(** * Elastic scattering mechanisms of amset: [amset/scattering/elastic.py]

    A shallow embedding of the three elastic scattering classes
    (acoustic deformation potential, ionized impurity, piezoelectric) and of
    [calculate_inverse_screening_length_sq], with the NumPy operations they
    call.

    Numbers.  Every finite binary64 value is a rational, so floats are
    embedded in [Q] and arithmetic is exact: rounding, overflow and the
    special values inf and nan are not part of the model.  A division of
    two Python floats raises [ZeroDivisionError] on a zero divisor, as in
    Python; where NumPy would divide by zero the model computes with
    [Qinv 0 = 0].  Statements that depend on the range of binary64 carry
    it as a hypothesis ([binary64.normal], [binary64.huge]), and the two
    places where a relation between results depends on rounding are also
    given with every operation rounded ([binary64.round]).

    Python effects.  Exceptions are values of [exn] carried by [result];
    records sent to the module logger are collected in order by [py]. *)

From Stdlib Require Import QArith Qabs Qpower Lqa Sorted.
From stdpp Require Import gmap strings list fin_maps.

Local Open Scope nat_scope.

(** ** Python values, exceptions and the logger *)

(** [pymatgen.Spin] is an enumeration with the two members [up] and [down]. *)
Inductive Spin := up | down.

#[global] Instance Spin_eq_dec : EqDecision Spin.
Proof. solve_decision. Defined.

#[global] Instance Spin_countable : Countable Spin.
Proof.
  refine (inj_countable' (fun s => match s with up => true | down => false end)
                         (fun b => if b then up else down) _).
  by intros [].
Defined.

(** Keys reported by a [KeyError]: property names or spins. *)
Inductive pykey := KStr (k : string) | KSpin (s : Spin).

Inductive exn :=
| KeyError (k : pykey)
| TypeError
| IndexError
| ValueError
| ZeroDivisionError.

Inductive result (A : Type) :=
| Ok (a : A)
| Raise (e : exn).
Arguments Ok {A} a.
Arguments Raise {A} e.

#[global] Instance result_ret : MRet result := fun A a => Ok a.
#[global] Instance result_bind : MBind result := fun A B f m =>
  match m with
  | Ok a => f a
  | Raise e => Raise e
  end.

(** A value stored in [materials_properties]: a float or a tuple of floats. *)
Inductive pyval :=
| PFloat (x : Q)
| PTuple (xs : list Q).

(** [isinstance(v, tuple)] *)
Definition is_tuple (v : pyval) : bool :=
  match v with PTuple _ => true | PFloat _ => false end.

(** [v * x] for a float [x]: a tuple cannot be multiplied by a float. *)
Definition py_mul (v : pyval) (x : Q) : result Q :=
  match v with
  | PFloat a => Ok (a * x)%Q
  | PTuple _ => Raise TypeError
  end.

(** [x * v] for a float [x]. *)
Definition py_rmul (x : Q) (v : pyval) : result Q :=
  match v with
  | PFloat a => Ok (x * a)%Q
  | PTuple _ => Raise TypeError
  end.

(** [a / b] for two Python floats. *)
Definition py_truediv (a b : Q) : result Q :=
  if Qeq_bool b 0 then Raise ZeroDivisionError else Ok (a / b)%Q.

(** [v ** 2]: the exact square.  Python takes the power of a float with
    the C library, which rounds the result and raises [OverflowError] when
    it exceeds the range of binary64; statements about a call returning
    assume squares below [binary64.huge]. *)
Definition py_sq (v : pyval) : result Q :=
  match v with
  | PFloat a => Ok (a ^ 2)%Q
  | PTuple _ => Raise TypeError
  end.

(** [v[i]]: a float is not subscriptable, a tuple checks its range. *)
Definition py_index (v : pyval) (i : nat) : result Q :=
  match v with
  | PFloat _ => Raise TypeError
  | PTuple xs =>
      match xs !! i with
      | Some x => Ok x
      | None => Raise IndexError
      end
  end.

(** Records of the module logger.  The per-entry report of the ionized
    impurity constructor is kept as the four numbers it formats. *)
Inductive log_record :=
| Warning (msg : string)
| Debug (msg : string)
| DebugImp (doping_cm3 temperature beta_sq n_ii_cm3 : Q).

(** A computation that logs and may raise: the records emitted so far are
    kept when an exception is raised. *)
Definition py (A : Type) : Type := list log_record * result A.

#[global] Instance py_ret : MRet py := fun A a => ([], Ok a).
#[global] Instance py_bind : MBind py := fun A B f m =>
  match m with
  | (l, Ok a) => let '(l', r) := f a in (l ++ l', r)
  | (l, Raise e) => (l, Raise e)
  end.

Definition lift {A} (r : result A) : py A := ([], r).
Definition logger_warning (msg : string) : py unit := ([Warning msg], Ok tt).
Definition logger_debug (msg : string) : py unit := ([Debug msg], Ok tt).
(** [amset.log.log_list(items, level=logging.DEBUG)]: one record per item. *)
Definition log_list (items : list log_record) : py unit := (items, Ok tt).

(** ** Binary64 *)

Module binary64.

(** The range in which the statements about floats are made: a number is
    [normal] when its magnitude lies between [tiny] and [huge], well inside
    the normal range of binary64, where an operation neither overflows nor
    underflows and rounds with a relative error of at most [2 ** -53]. *)
Definition tiny : Q := 1 # (2 ^ 1021).
Definition huge : Q := inject_Z (2 ^ 1023).
Definition normal (x : Q) : Prop := (tiny <= Qabs x /\ Qabs x <= huge)%Q.
Definition in_range (x : Q) : Prop := (x == 0)%Q \/ normal x.

(** [n / d] rounded to the nearest integer, a tie to the even neighbour
    (for [0 <= n] and [0 < d]). *)
Definition nearest_even (n d : Z) : Z :=
  let q := (n / d)%Z in
  match (2 * (n mod d) ?= d)%Z with
  | Lt => q
  | Gt => (q + 1)%Z
  | Eq => if Z.even q then q else (q + 1)%Z
  end.

(** The exponent [e] of the last place of [x > 0]:
    [2 ** 52 <= x / 2 ** e < 2 ** 53]. *)
Definition exponent (x : Q) : Z :=
  let e0 := (Z.log2 (Qnum x) - Z.log2 (Zpos (Qden x)) - 53)%Z in
  if Qle_bool (2 ^ 53) (x / 2 ^ e0) then (e0 + 1)%Z else e0.

Definition round_pos (x : Q) : Q :=
  let e := exponent x in
  let y := (x / 2 ^ e)%Q in
  (inject_Z (nearest_even (Qnum y) (Zpos (Qden y))) * 2 ^ e)%Q.

(** Rounding to 53 significant bits, to nearest, ties to even: the value
    binary64 stores for [x] while [x] is zero or normal (the exponent is
    not bounded here). *)
Definition round (x : Q) : Q :=
  Qred match Qnum x with
       | Z0 => 0
       | Zpos _ => round_pos x
       | Zneg _ => - round_pos (- x)
       end%Q.

End binary64.

(** ** The NumPy operations used by the module *)

Module np.

(** An array is its shape and its elements in row-major (C) order. *)
Record ndarray := mk { shape : list nat; data : list Q }.

(** Number of elements of a shape. *)
Definition prod (sh : list nat) : nat := foldr Nat.mul 1 sh.

Definition wf (a : ndarray) : Prop := length (data a) = prod (shape a).

(** Flat offset of a multi-index, and back. *)
Fixpoint ravel (sh idx : list nat) : nat :=
  match sh, idx with
  | _ :: sh', i :: idx' => i * prod sh' + ravel sh' idx'
  | _, _ => 0
  end.

Fixpoint unravel (sh : list nat) (j : nat) : list nat :=
  match sh with
  | [] => []
  | _ :: sh' => j / prod sh' :: unravel sh' (j mod prod sh')
  end.

Fixpoint in_bounds (sh idx : list nat) : bool :=
  match sh, idx with
  | [], [] => true
  | d :: sh', i :: idx' => (i <? d) && in_bounds sh' idx'
  | _, _ => false
  end.

(** Unchecked read of the element at a multi-index. *)
Definition item (a : ndarray) (idx : list nat) : Q :=
  nth (ravel (shape a) idx) (data a) 0%Q.

(** [a[i0, ..., ik]] with one index per axis (an index tuple shorter than
    the rank, which NumPy answers with a sub-array, is reported as an
    [IndexError] like a longer one). *)
Definition getitem (a : ndarray) (idx : list nat) : result Q :=
  if in_bounds (shape a) idx then Ok (item a idx) else Raise IndexError.

(** [a[i0, ..., ik] = v] *)
Definition setitem (a : ndarray) (idx : list nat) (v : Q) : result ndarray :=
  if in_bounds (shape a) idx
  then Ok (mk (shape a) (<[ravel (shape a) idx := v]> (data a)))
  else Raise IndexError.

(** The array of a given shape whose element at [idx] is [f idx]. *)
Definition tabulate (sh : list nat) (f : list nat -> Q) : ndarray :=
  mk sh ((fun j => f (unravel sh j)) <$> seq 0 (prod sh)).

(** [np.ndindex] of a shape: every multi-index, last axis fastest. *)
Definition ndindex (sh : list nat) : list (list nat) :=
  unravel sh <$> seq 0 (prod sh).

Definition ones (sh : list nat) : ndarray := mk sh (replicate (prod sh) 1%Q).
Definition zeros (sh : list nat) : ndarray := mk sh (replicate (prod sh) 0%Q).

(** [np.array(l)] for a flat sequence. *)
Definition array1 (l : list Q) : ndarray := mk [length l] l.

(** [a[None, ...]] and [a[..., None]]: a new axis of length one. *)
Definition newaxis_front (a : ndarray) : ndarray := mk (1 :: shape a) (data a).
Definition newaxis_back (a : ndarray) : ndarray := mk (shape a ++ [1]) (data a).

(** Elementwise operation with a scalar operand. *)
Definition map (f : Q -> Q) (a : ndarray) : ndarray :=
  mk (shape a) (f <$> data a).

(** Broadcasting: shapes are aligned on their last axis; two lengths are
    compatible when they are equal or one of them is 1. *)
Fixpoint broadcast_rev (a b : list nat) : option (list nat) :=
  match a, b with
  | [], _ => Some b
  | _, [] => Some a
  | x :: a', y :: b' =>
      if x =? y then cons x <$> broadcast_rev a' b'
      else if x =? 1 then cons y <$> broadcast_rev a' b'
      else if y =? 1 then cons x <$> broadcast_rev a' b'
      else None
  end.

Definition broadcast_shapes (a b : list nat) : option (list nat) :=
  reverse <$> broadcast_rev (reverse a) (reverse b).

(** Where an operand of shape [sh] is read for the result index [idx]. *)
Definition bidx (sh idx : list nat) : list nat :=
  zip_with (fun d i => if d =? 1 then 0 else i) sh
           (drop (length idx - length sh) idx).

(** Binary elementwise operation on two arrays. *)
Definition map2 (op : Q -> Q -> Q) (a b : ndarray) : result ndarray :=
  match broadcast_shapes (shape a) (shape b) with
  | Some sh =>
      Ok (tabulate sh (fun idx => op (item a (bidx (shape a) idx))
                                     (item b (bidx (shape b) idx))))
  | None => Raise ValueError
  end.

Definition add := map2 Qplus.
Definition multiply := map2 Qmult.

(** [np.tile(a, reps)]: the shorter of shape and [reps] is padded with
    ones on the left, then every axis is repeated. *)
Definition pad_left (n : nat) (l : list nat) : list nat :=
  replicate (n - length l) 1 ++ l.

Definition tile (a : ndarray) (reps : list nat) : ndarray :=
  let sh := pad_left (length reps) (shape a) in
  let tup := pad_left (length sh) reps in
  tabulate (zip_with Nat.mul sh tup)
           (fun idx => item (mk sh (data a)) (zip_with Nat.modulo idx sh)).

(** [np.diff] of a flat sequence: [x[1:] - x[:-1]]. *)
Definition diff (x : list Q) : list Q := zip_with Qminus (tail x) x.

Definition sum (l : list Q) : Q := foldr Qplus 0%Q l.

(** [np.trapz(y, x=x)] for one-dimensional [y] and [x]:
    [(diff(x) * (y[1:] + y[:-1]) / 2.0).sum()]. *)
Definition trapz (y x : ndarray) : result Q :=
  match shape y, shape x with
  | [_], [_] =>
      let d := array1 (diff (data x)) in
      let s := array1 (zip_with Qplus (tail (data y)) (data y)) in
      p ← multiply d s;
      Ok (sum (data (map (fun v => v / 2)%Q p)))
  | _, _ => Raise ValueError
  end.

End np.

Abbreviation ndarray := np.ndarray.

(** ** Python containers *)

(** [d[k]] on a dictionary keyed by property names, and by spins. *)
Definition dict_get {V} (d : gmap string V) (k : string) : result V :=
  match d !! k with
  | Some v => Ok v
  | None => Raise (KeyError (KStr k))
  end.

Definition spin_get {V} (d : gmap Spin V) (s : Spin) : result V :=
  match d !! s with
  | Some v => Ok v
  | None => Raise (KeyError (KSpin s))
  end.

(** [l[i]] on a one-dimensional array, for an index produced by a loop. *)
Definition list_get (l : list Q) (i : nat) : result Q :=
  match l !! i with
  | Some x => Ok x
  | None => Raise IndexError
  end.

(** [{k: f(k) for k in keys}]: keys are visited in order, the first
    exception stops the comprehension. *)
Fixpoint dict_comp_from `{Countable K} {V} (f : K -> result V)
    (keys : list K) (acc : gmap K V) : result (gmap K V) :=
  match keys with
  | [] => Ok acc
  | k :: ks => v ← f k; dict_comp_from f ks (<[k := v]> acc)
  end.

Definition dict_comp `{Countable K} {V} (f : K -> result V) (keys : list K)
  : result (gmap K V) := dict_comp_from f keys ∅.

(** [for x in l: s = body(s, x)] *)
Fixpoint for_each {A S} (body : S -> A -> result S) (l : list A) (s : S)
  : result S :=
  match l with
  | [] => Ok s
  | x :: l' => s' ← body s x; for_each body l' s'
  end.

(** [len(a)] of an array: the length of its first axis. *)
Definition np_len (a : ndarray) : result nat :=
  match np.shape a with
  | [] => Raise TypeError
  | d :: _ => Ok d
  end.

(** ** Imported constants and the transport state *)

(** The constants the module imports: [np.pi], [scipy.constants.epsilon_0],
    [e], [gpa_to_au], [hbar], [k_B] and [bohr_to_cm] of [amset.constants],
    [Second], [eV] and [BOLTZMANN] of [BoltzTraP2.units].  Their values are
    not part of this file and are left open. *)
Class constants := {
  pi : Q;
  epsilon_0 : Q;
  e : Q;
  gpa_to_au : Q;
  hbar : Q;
  k_B : Q;
  bohr_to_cm : Q;
  Second : Q;
  eV : Q;
  BOLTZMANN : Q
}.

Module Dos.
(** [amset_data.dos]: the energy grid and the total density of states. *)
Record t := { tdos : list Q; energies : list Q }.
End Dos.

Module Structure.
(** [amset_data.structure]: the cell volume and
    [lattice.reciprocal_lattice.matrix]. *)
Record t := { volume : Q; reciprocal_lattice_matrix : ndarray }.
End Structure.

Module AmsetData.
(** The attributes of [amset.core.data.AmsetData] read by the module. *)
Record t := {
  doping : list Q;
  temperatures : list Q;
  energies : gmap Spin ndarray;
  spins : list Spin;
  vb_idx : gmap Spin Z;
  is_metal : bool;
  fermi_levels : ndarray;
  electron_conc : ndarray;
  hole_conc : ndarray;
  dos : Dos.t;
  structure : Structure.t
}.

(** The arrays indexed by (doping, temperature) have that shape. *)
Definition shaped (ad : t) : Prop :=
  np.shape (fermi_levels ad) = [length (doping ad); length (temperatures ad)].
End AmsetData.

(** ** class AbstractElasticScattering *)

Module AbstractElasticScattering.

Record t := {
  properties : gmap string pyval;
  doping : list Q;
  temperatures : list Q;
  nbands : gmap Spin nat;
  spins : list Spin
}.

(** [__init__], given the class attribute [required_properties]. *)
Definition __init__ (required_properties : list string)
    (mp : gmap string pyval) (amset_data : AmsetData.t) : result t :=
  properties ← dict_comp (dict_get mp) required_properties;
  nbands ← dict_comp
    (fun s => a ← spin_get (AmsetData.energies amset_data) s; np_len a)
    (AmsetData.spins amset_data);
  Ok {| properties := properties;
        doping := AmsetData.doping amset_data;
        temperatures := AmsetData.temperatures amset_data;
        nbands := nbands;
        spins := AmsetData.spins amset_data |}.

End AbstractElasticScattering.

(** The interface of the concrete classes: the two class attributes, the
    constructor and the two abstract methods. *)
Class ElasticScattering (M : Type) := {
  name : string;
  required_properties : list string;
  __init__ : gmap string pyval -> AmsetData.t -> py M;
  base : M -> AbstractElasticScattering.t;
  prefactor : M -> Spin -> Z -> result ndarray;
  factor : M -> ndarray -> result ndarray
}.

(** ** class AcousticDeformationPotentialScattering *)

Module AcousticDeformationPotentialScattering.
Section defs.
Context {K : constants}.

Record t := {
  super : AbstractElasticScattering.t;
  vb_idx : gmap Spin Z;
  is_metal : bool;
  fermi_levels : ndarray;
  _prefactor : Q;
  deformation_potential : pyval
}.

Definition name : string := "ADP".
Definition required_properties : list string :=
  ["deformation_potential"; "elastic_constant"].

Definition metal_warning : string :=
  "System is metallic but deformation potentials for both the valence and conduction bands have been set... using the valence band potential for all bands".
Definition semiconductor_warning : string :=
  "System is semiconducting but only one deformation potential has been set... using this potential for all bands.".

(** The branches of [__init__] that set [self.deformation_potential]. *)
Definition init_deformation_potential (is_metal : bool) (dp : pyval) : py pyval :=
  if is_metal && is_tuple dp then
    _ ← logger_warning metal_warning;
    d0 ← lift (py_index dp 0);
    mret (PFloat (d0 * eV))
  else if is_metal then
    d ← lift (py_mul dp eV);
    mret (PFloat d)
  else if negb is_metal && negb (is_tuple dp) then
    _ ← logger_warning semiconductor_warning;
    d0 ← lift (py_mul dp eV);
    d1 ← lift (py_mul dp eV);
    mret (PTuple [d0; d1])
  else
    d0 ← lift (py_index dp 0);
    d1 ← lift (py_index dp 1);
    mret (PTuple [d0 * eV; d1 * eV])%Q.

(** The constructor.  [_prefactor] is a quotient of Python floats: a zero
    divisor raises [ZeroDivisionError]. *)
Definition __init__ (mp : gmap string pyval) (amset_data : AmsetData.t) : py t :=
  self ← lift (AbstractElasticScattering.__init__ required_properties mp amset_data);
  let properties := AbstractElasticScattering.properties self in
  let is_metal := AmsetData.is_metal amset_data in
  elastic_constant ← lift (dict_get properties "elastic_constant");
  den ← lift (py_rmul (4 * pi ^ 2) elastic_constant);
  _prefactor ← lift (py_truediv (BOLTZMANN * Second) (den * gpa_to_au));
  dp ← lift (dict_get properties "deformation_potential");
  deformation_potential ← init_deformation_potential is_metal dp;
  mret {| super := self;
          vb_idx := AmsetData.vb_idx amset_data;
          is_metal := is_metal;
          fermi_levels := AmsetData.fermi_levels amset_data;
          _prefactor := _prefactor;
          deformation_potential := deformation_potential |}.

(** The array bound to [prefactor] before the deformation potential is
    applied: [_prefactor * temperatures[None, :] * np.ones((nd, nt))]. *)
Definition base_term (self : t) : result ndarray :=
  let temperatures := AbstractElasticScattering.temperatures (super self) in
  let doping := AbstractElasticScattering.doping (super self) in
  np.multiply (np.map (Qmult (_prefactor self))
                 (np.newaxis_front (np.array1 temperatures)))
         (np.ones [length doping; length temperatures]).

(** [prefactor]: the base term times the square of the deformation
    potential chosen for the band (an exact square, see [py_sq]). *)
Definition prefactor (self : t) (spin : Spin) (b_idx : Z) : result ndarray :=
  prefactor ← base_term self;
  if is_metal self then
    d2 ← py_sq (deformation_potential self);
    Ok (np.map (fun x => x * d2)%Q prefactor)
  else
    vb ← spin_get (vb_idx self) spin;
    let def_idx := if (b_idx >? vb)%Z then 1 else 0 in
    d ← py_index (deformation_potential self) def_idx;
    Ok (np.map (fun x => x * d ^ 2)%Q prefactor).

Definition factor (self : t) (norm_q_sq : ndarray) : result ndarray :=
  Ok (np.ones (np.shape (fermi_levels self) ++ np.shape norm_q_sq)).

End defs.
End AcousticDeformationPotentialScattering.

(** ** calculate_inverse_screening_length_sq *)

Section screening.
Context {K : constants}.
(** [BoltzTraP2.fd.FD(energies, mu, kBT)]: the Fermi-Dirac occupation on
    an energy grid; an external function, left open. *)
Variable FD : list Q -> Q -> Q -> list Q.

(** One pass of the loop over [np.ndindex(shape)]. *)
Definition screening_step (amset_data : AmsetData.t) (static_dielectric : pyval)
    (inverse_screening_length_sq : ndarray) (idx : list nat) : result ndarray :=
  let tdos := Dos.tdos (AmsetData.dos amset_data) in
  let energies := Dos.energies (AmsetData.dos amset_data) in
  let fermi_levels := AmsetData.fermi_levels amset_data in
  let vol := Structure.volume (AmsetData.structure amset_data) in
  match idx with
  | [n; t] =>
      ef ← np.getitem fermi_levels [n; t];
      temp ← list_get (AmsetData.temperatures amset_data) t;
      let f := FD energies ef (temp * BOLTZMANN)%Q in
      tf ← np.multiply (np.array1 tdos) (np.array1 f);
      y ← np.multiply tf (np.map (fun v => 1 - v)%Q (np.array1 f));
      integral ← np.trapz y (np.array1 energies);
      sb ← py_mul static_dielectric BOLTZMANN;
      np.setitem inverse_screening_length_sq [n; t]
                 (integral * 4 * pi / (sb * temp * vol))%Q
  | _ => Raise ValueError
  end.

Definition calculate_inverse_screening_length_sq
    (amset_data : AmsetData.t) (static_dielectric : pyval) : result ndarray :=
  let inverse_screening_length_sq :=
    np.zeros (np.shape (AmsetData.fermi_levels amset_data)) in
  for_each (screening_step amset_data static_dielectric)
           (np.ndindex (np.shape inverse_screening_length_sq))
           inverse_screening_length_sq.

End screening.

(** ** class IonizedImpurityScattering *)

Module IonizedImpurityScattering.
Section defs.
Context {K : constants}.
Variable FD : list Q -> Q -> Q -> list Q.

Record t := {
  super : AbstractElasticScattering.t;
  _rlat : ndarray;
  inverse_screening_length_sq : ndarray;
  _prefactor : ndarray
}.

Definition name : string := "IMP".
Definition required_properties : list string :=
  ["acceptor_charge"; "donor_charge"; "static_dielectric"].

(** One pass of the loop of [__init__]; the state is
    [(impurity_concentration, imp_info)]. *)
Definition impurity_step (properties : gmap string pyval)
    (amset_data : AmsetData.t) (inverse_screening_length_sq : ndarray)
    (st : ndarray * list log_record) (idx : list nat)
  : result (ndarray * list log_record) :=
  let '(impurity_concentration, imp_info) := st in
  match idx with
  | [n; t] =>
      e_nt ← np.getitem (AmsetData.electron_conc amset_data) [n; t];
      let n_conc := Qabs e_nt in
      h_nt ← np.getitem (AmsetData.hole_conc amset_data) [n; t];
      let p_conc := Qabs h_nt in
      donor_charge ← dict_get properties "donor_charge";
      dc2 ← py_sq donor_charge;
      acceptor_charge ← dict_get properties "acceptor_charge";
      ac2 ← py_sq acceptor_charge;
      impurity_concentration ←
        np.setitem impurity_concentration [n; t]
                   (n_conc * dc2 + p_conc * ac2)%Q;
      dop ← list_get (AmsetData.doping amset_data) n;
      temp ← list_get (AmsetData.temperatures amset_data) t;
      beta_sq ← np.getitem inverse_screening_length_sq [n; t];
      n_ii ← np.getitem impurity_concentration [n; t];
      Ok (impurity_concentration,
          imp_info ++ [DebugImp (dop * (1 / bohr_to_cm) ^ 3) temp beta_sq
                                (n_ii * (1 / bohr_to_cm) ^ 3)]%Q)
  | _ => Raise ValueError
  end.

(** The constructor.  Its last statement divides an array by the square
    of the dielectric constant: on a zero divisor NumPy stores inf or nan
    and goes on, and the model stores [x / 0 = 0]; statements about the
    entries assume a square that is a normal number. *)
Definition __init__ (mp : gmap string pyval) (amset_data : AmsetData.t) : py t :=
  self ← lift (AbstractElasticScattering.__init__ required_properties mp amset_data);
  let properties := AbstractElasticScattering.properties self in
  let _rlat := Structure.reciprocal_lattice_matrix
                 (AmsetData.structure amset_data) in
  _ ← logger_debug "Initializing IMP scattering";
  static_dielectric ← lift (dict_get properties "static_dielectric");
  inverse_screening_length_sq ←
    lift (calculate_inverse_screening_length_sq FD amset_data static_dielectric);
  let impurity_concentration :=
    np.zeros (np.shape (AmsetData.fermi_levels amset_data)) in
  '(impurity_concentration, imp_info) ←
    lift (for_each
            (impurity_step properties amset_data inverse_screening_length_sq)
            (np.ndindex (np.shape inverse_screening_length_sq))
            (impurity_concentration, []));
  _ ← logger_debug "Inverse screening length (β) and impurity concentration (Nᵢᵢ):";
  _ ← log_list imp_info;
  static_dielectric ← lift (dict_get properties "static_dielectric");
  sd2 ← lift (py_sq static_dielectric);
  mret {| super := self;
          _rlat := _rlat;
          inverse_screening_length_sq := inverse_screening_length_sq;
          _prefactor :=
            np.map (fun x => x * (4 * pi) ^ 2 * Second / sd2)%Q
                   impurity_concentration |}.




Definition prefactor (self : t) (spin : Spin) (b_idx : Z) : result ndarray :=
  Ok (_prefactor self).

Definition factor (self : t) (norm_q_sq : ndarray) : result ndarray :=
  s ← np.add (np.newaxis_front (np.newaxis_front norm_q_sq))
             (np.newaxis_back (inverse_screening_length_sq self));
  Ok (np.map (fun v => 1 / v ^ 2)%Q s).

End defs.
End IonizedImpurityScattering.

(** ** class PiezoelectricScattering *)

Module PiezoelectricScattering.
Section defs.
Context {K : constants}.

Record t := {
  super : AbstractElasticScattering.t;
  _prefactor : Q
}.

Definition name : string := "PIE".
Definition required_properties : list string :=
  ["piezoelectric_coefficient"; "static_dielectric"].

(** The constructor.  [unit_conversion] and [_prefactor] are quotients of
    Python floats: a zero divisor raises [ZeroDivisionError]. *)
Definition __init__ (mp : gmap string pyval) (amset_data : AmsetData.t) : py t :=
  self ← lift (AbstractElasticScattering.__init__ required_properties mp amset_data);
  let properties := AbstractElasticScattering.properties self in
  unit_conversion ← lift (py_truediv 1000000000 e);
  piezoelectric_coefficient ←
    lift (dict_get properties "piezoelectric_coefficient");
  pc2 ← lift (py_sq piezoelectric_coefficient);
  static_dielectric ← lift (dict_get properties "static_dielectric");
  den ← lift (py_rmul (4 * pi ^ 2 * hbar * epsilon_0) static_dielectric);
  _prefactor ← lift (py_truediv (unit_conversion * e ^ 2 * k_B * pc2) den);
  mret {| super := self; _prefactor := _prefactor |}.

Definition prefactor (self : t) (spin : Spin) (b_idx : Z) : result ndarray :=
  let temperatures := AbstractElasticScattering.temperatures (super self) in
  let doping := AbstractElasticScattering.doping (super self) in
  np.multiply (np.map (Qmult (_prefactor self))
                 (np.newaxis_front (np.array1 temperatures)))
         (np.ones [length doping; length temperatures]).

(** [prefactor] with both products rounded as NumPy rounds them: the
    scalar times the row of temperatures, then the elementwise product
    with the array of ones. *)
Definition prefactor_binary64 (self : t) (spin : Spin) (b_idx : Z)
  : result ndarray :=
  let temperatures := AbstractElasticScattering.temperatures (super self) in
  let doping := AbstractElasticScattering.doping (super self) in
  np.map2 (fun x y => binary64.round (x * y))
          (np.map (fun T => binary64.round (_prefactor self * T))
                  (np.newaxis_front (np.array1 temperatures)))
          (np.ones [length doping; length temperatures]).

Definition factor (self : t) (k_diff_sq : ndarray) : result ndarray :=
  let temperatures := AbstractElasticScattering.temperatures (super self) in
  let doping := AbstractElasticScattering.doping (super self) in
  Ok (np.map (fun v => 1 / v)%Q
             (np.tile k_diff_sq [length doping; length temperatures; 1])).

End defs.
End PiezoelectricScattering.

(** The three classes implement the interface. *)
Section instances.
Context {K : constants}.
Variable FD : list Q -> Q -> Q -> list Q.

#[export] Instance ADP : ElasticScattering AcousticDeformationPotentialScattering.t := {
  name := AcousticDeformationPotentialScattering.name;
  required_properties := AcousticDeformationPotentialScattering.required_properties;
  __init__ := AcousticDeformationPotentialScattering.__init__;
  base := AcousticDeformationPotentialScattering.super;
  prefactor := AcousticDeformationPotentialScattering.prefactor;
  factor := AcousticDeformationPotentialScattering.factor
}.

#[export] Instance IMP : ElasticScattering IonizedImpurityScattering.t := {
  name := IonizedImpurityScattering.name;
  required_properties := IonizedImpurityScattering.required_properties;
  __init__ := IonizedImpurityScattering.__init__ FD;
  base := IonizedImpurityScattering.super;
  prefactor := IonizedImpurityScattering.prefactor;
  factor := IonizedImpurityScattering.factor
}.

#[export] Instance PIE : ElasticScattering PiezoelectricScattering.t := {
  name := PiezoelectricScattering.name;
  required_properties := PiezoelectricScattering.required_properties;
  __init__ := PiezoelectricScattering.__init__;
  base := PiezoelectricScattering.super;
  prefactor := PiezoelectricScattering.prefactor;
  factor := PiezoelectricScattering.factor
}.
End instances.

(** ** Sample inputs

    Concrete constants and transport states on which the definitions are
    evaluated.  The constants are rounded physical values; nothing below
    depends on their digits. *)

Definition sample_constants : constants := {|
  pi := 314159 # 100000;
  epsilon_0 := 8854 # 1000000000000000;
  e := 1602 # 10000000000000000000000;
  gpa_to_au := 34 # 1000000;
  hbar := 6582 # 10000000000000000000;
  k_B := 8617 # 100000000;
  bohr_to_cm := 5292 # 1000000000000;
  Second := 41341 # 1;
  eV := 3675 # 100000;
  BOLTZMANN := 3167 # 1000000000
|}.

(** A Fermi-Dirac stand-in for the examples: half occupation everywhere. *)
Definition sample_FD (energies : list Q) (mu kBT : Q) : list Q :=
  (fun _ => 1 # 2) <$> energies.

Definition qs (l : list Z) : list Q := inject_Z <$> l.

(** One doping level, two temperatures, two spins with three bands each. *)
Definition sample_data (metal : bool) : AmsetData.t := {|
  AmsetData.doping := qs [1000%Z];
  AmsetData.temperatures := qs [100%Z; 200%Z];
  AmsetData.energies :=
    {[ up := np.zeros [3; 4]; down := np.zeros [3; 4] ]};
  AmsetData.spins := [up; down];
  AmsetData.vb_idx := {[ up := 1%Z; down := 1%Z ]};
  AmsetData.is_metal := metal;
  AmsetData.fermi_levels := np.mk [1; 2] (qs [0%Z; 1%Z]);
  AmsetData.electron_conc := np.mk [1; 2] (qs [(-3)%Z; 5%Z]);
  AmsetData.hole_conc := np.mk [1; 2] (qs [2%Z; (-7)%Z]);
  AmsetData.dos := {| Dos.tdos := qs [1%Z; 2%Z; 3%Z];
                      Dos.energies := qs [(-1)%Z; 0%Z; 2%Z] |};
  AmsetData.structure :=
    {| Structure.volume := 10;
       Structure.reciprocal_lattice_matrix := np.ones [3; 3] |}
|}.

Definition sample_properties : gmap string pyval :=
  {[ "deformation_potential" := PTuple (qs [2%Z; 3%Z]);
     "elastic_constant" := PFloat 150;
     "acceptor_charge" := PFloat 1;
     "donor_charge" := PFloat 2;
     "static_dielectric" := PFloat 10;
     "piezoelectric_coefficient" := PFloat (1 # 10) ]}.

(** A 2 x 2 array of momentum transfers. *)
Definition sample_matrix : ndarray := np.mk [2; 2] (qs [1%Z; 2%Z; 3%Z; 4%Z]).

(** The same properties with a single deformation potential. *)
Definition sample_scalar_properties : gmap string pyval :=
  <["deformation_potential" := PFloat 2]> sample_properties.

(** A metal with one doping level at 300 K, a deformation potential of
    2 eV and an elastic constant of 150 GPa. *)
Definition metal_300K : AmsetData.t := {|
  AmsetData.doping := qs [1000%Z];
  AmsetData.temperatures := qs [300%Z];
  AmsetData.energies := {[ up := np.zeros [2; 4] ]};
  AmsetData.spins := [up];
  AmsetData.vb_idx := ∅;
  AmsetData.is_metal := true;
  AmsetData.fermi_levels := np.mk [1; 1] (qs [0%Z]);
  AmsetData.electron_conc := np.mk [1; 1] (qs [4%Z]);
  AmsetData.hole_conc := np.mk [1; 1] (qs [0%Z]);
  AmsetData.dos := {| Dos.tdos := qs [1%Z; 1%Z]; Dos.energies := qs [0%Z; 1%Z] |};
  AmsetData.structure :=
    {| Structure.volume := 10;
       Structure.reciprocal_lattice_matrix := np.ones [3; 3] |}
|}.

Definition metal_properties : gmap string pyval :=
  {[ "deformation_potential" := PFloat 2; "elastic_constant" := PFloat 150 ]}.

(** ** Statements shared by the three classes *)

(** Construction stops on a missing required property: it raises the
    [KeyError] of the first required key that is absent, before anything is
    logged, and yields no instance. *)
Definition rejects_missing_property (M : Type) `{ElasticScattering M} : Prop :=
  forall (mp : gmap string pyval) (amset_data : AmsetData.t) (k : string),
    k ∈ required_properties -> mp !! k = None ->
    exists k', k' ∈ required_properties /\ mp !! k' = None /\
      __init__ mp amset_data = ([], Raise (KeyError (KStr k'))).

(** Construction depends on [materials_properties] through the required
    keys only. *)
Definition reads_only_required (M : Type) `{ElasticScattering M} : Prop :=
  forall (mp1 mp2 : gmap string pyval) (amset_data : AmsetData.t),
    (forall k, k ∈ required_properties -> mp1 !! k = mp2 !! k) ->
    __init__ mp1 amset_data = __init__ mp2 amset_data /\
    forall l1 l2 m1 m2,
      __init__ mp1 amset_data = (l1, Ok m1) ->
      __init__ mp2 amset_data = (l2, Ok m2) ->
      (forall spin b_idx, prefactor m1 spin b_idx = prefactor m2 spin b_idx) /\
      (forall q, factor m1 q = factor m2 q).

(** ** Statements about the acoustic deformation potential class *)

(** Every spin and band gets the base term scaled by the square of [d]. *)
Definition uses_for_all_bands `{K : constants}
    (m : AcousticDeformationPotentialScattering.t) (d : Q) : Prop :=
  forall (spin : Spin) (b_idx : Z),
    AcousticDeformationPotentialScattering.prefactor m spin b_idx
    = (p ← AcousticDeformationPotentialScattering.base_term m;
       Ok (np.map (fun x => x * d ^ 2)%Q p)).

(** Two instances answer every call alike. *)
Definition same_answers `{K : constants}
    (m m' : AcousticDeformationPotentialScattering.t) : Prop :=
  (forall spin b_idx,
      AcousticDeformationPotentialScattering.prefactor m spin b_idx
      = AcousticDeformationPotentialScattering.prefactor m' spin b_idx) /\
  (forall q,
      AcousticDeformationPotentialScattering.factor m q
      = AcousticDeformationPotentialScattering.factor m' q).

(** ** Sample inputs in binary64 *)

(** An instance whose cached [_prefactor] is the float 60007986.17403545,
    over one doping level and the temperatures 100 K and 350 K. *)
Definition sample_piezoelectric : PiezoelectricScattering.t := {|
  PiezoelectricScattering.super := {|
    AbstractElasticScattering.properties :=
      {[ "piezoelectric_coefficient" := PFloat (1 # 10);
         "static_dielectric" := PFloat 10 ]};
    AbstractElasticScattering.doping := qs [1000%Z];
    AbstractElasticScattering.temperatures := qs [100%Z; 350%Z];
    AbstractElasticScattering.nbands := {[ up := 3; down := 3 ]};
    AbstractElasticScattering.spins := [up; down]
  |};
  PiezoelectricScattering._prefactor := 8054135566134451 # 134217728
|}.




(** ** Further sample inputs *)

(** The sample transport state with the band energies of spin down left
    out. *)
Definition sample_data_without_down : AmsetData.t := {|
  AmsetData.doping := AmsetData.doping (sample_data false);
  AmsetData.temperatures := AmsetData.temperatures (sample_data false);
  AmsetData.energies := {[ up := np.zeros [3; 4] ]};
  AmsetData.spins := [up; down];
  AmsetData.vb_idx := {[ up := 1%Z ]};
  AmsetData.is_metal := false;
  AmsetData.fermi_levels := AmsetData.fermi_levels (sample_data false);
  AmsetData.electron_conc := AmsetData.electron_conc (sample_data false);
  AmsetData.hole_conc := AmsetData.hole_conc (sample_data false);
  AmsetData.dos := AmsetData.dos (sample_data false);
  AmsetData.structure := AmsetData.structure (sample_data false)
|}.

(** The sample semiconductor with a valence-band index for spin up only. *)
Definition sample_data_vb_up_only : AmsetData.t := {|
  AmsetData.doping := AmsetData.doping (sample_data false);
  AmsetData.temperatures := AmsetData.temperatures (sample_data false);
  AmsetData.energies := AmsetData.energies (sample_data false);
  AmsetData.spins := [up; down];
  AmsetData.vb_idx := {[ up := 1%Z ]};
  AmsetData.is_metal := false;
  AmsetData.fermi_levels := AmsetData.fermi_levels (sample_data false);
  AmsetData.electron_conc := AmsetData.electron_conc (sample_data false);
  AmsetData.hole_conc := AmsetData.hole_conc (sample_data false);
  AmsetData.dos := AmsetData.dos (sample_data false);
  AmsetData.structure := AmsetData.structure (sample_data false)
|}.

(** A transport state with other Fermi levels, density of states or
    doping levels. *)
Definition with_fermi_levels (fl : ndarray) (ad : AmsetData.t) : AmsetData.t := {|
  AmsetData.doping := AmsetData.doping ad;
  AmsetData.temperatures := AmsetData.temperatures ad;
  AmsetData.energies := AmsetData.energies ad;
  AmsetData.spins := AmsetData.spins ad;
  AmsetData.vb_idx := AmsetData.vb_idx ad;
  AmsetData.is_metal := AmsetData.is_metal ad;
  AmsetData.fermi_levels := fl;
  AmsetData.electron_conc := AmsetData.electron_conc ad;
  AmsetData.hole_conc := AmsetData.hole_conc ad;
  AmsetData.dos := AmsetData.dos ad;
  AmsetData.structure := AmsetData.structure ad
|}.

Definition with_dos (dos : Dos.t) (ad : AmsetData.t) : AmsetData.t := {|
  AmsetData.doping := AmsetData.doping ad;
  AmsetData.temperatures := AmsetData.temperatures ad;
  AmsetData.energies := AmsetData.energies ad;
  AmsetData.spins := AmsetData.spins ad;
  AmsetData.vb_idx := AmsetData.vb_idx ad;
  AmsetData.is_metal := AmsetData.is_metal ad;
  AmsetData.fermi_levels := AmsetData.fermi_levels ad;
  AmsetData.electron_conc := AmsetData.electron_conc ad;
  AmsetData.hole_conc := AmsetData.hole_conc ad;
  AmsetData.dos := dos;
  AmsetData.structure := AmsetData.structure ad
|}.

Definition with_doping (doping : list Q) (ad : AmsetData.t) : AmsetData.t := {|
  AmsetData.doping := doping;
  AmsetData.temperatures := AmsetData.temperatures ad;
  AmsetData.energies := AmsetData.energies ad;
  AmsetData.spins := AmsetData.spins ad;
  AmsetData.vb_idx := AmsetData.vb_idx ad;
  AmsetData.is_metal := AmsetData.is_metal ad;
  AmsetData.fermi_levels := AmsetData.fermi_levels ad;
  AmsetData.electron_conc := AmsetData.electron_conc ad;
  AmsetData.hole_conc := AmsetData.hole_conc ad;
  AmsetData.dos := AmsetData.dos ad;
  AmsetData.structure := AmsetData.structure ad
|}.

(** ** Closed forms used in the statements *)

(** The trapezoidal sum of the samples [y] on the grid [x]:
    the sum of [(x[i+1] - x[i]) * (y[i+1] + y[i]) / 2]. *)
Definition trapezoid (y x : list Q) : Q :=
  np.sum ((fun v => v / 2)%Q
            <$> zip_with Qmult (np.diff x) (zip_with Qplus (tail y) y)).

(** The samples [tdos[i] * f[i] * (1 - f[i])]. *)
Definition screening_integrand (tdos f : list Q) : list Q :=
  zip_with Qmult (zip_with Qmult tdos f) ((fun v => 1 - v)%Q <$> f).

(** What one pass of [calculate_inverse_screening_length_sq] writes at [idx]. *)
Definition screening_written `{K : constants} (FD : list Q -> Q -> Q -> list Q)
    (ad : AmsetData.t) (d : Q) (idx : list nat) (v : Q)
  : Prop :=
  exists (n t : nat) (ef T : Q) (tf y : ndarray) (integral : Q),
    idx = [n; t] /\
    np.getitem (AmsetData.fermi_levels ad) [n; t] = Ok ef /\
    AmsetData.temperatures ad !! t = Some T /\
    np.multiply (np.array1 (Dos.tdos (AmsetData.dos ad)))
                (np.array1 (FD (Dos.energies (AmsetData.dos ad)) ef (T * BOLTZMANN)%Q))
      = Ok tf /\
    np.multiply tf (np.map (fun v => 1 - v)%Q
                      (np.array1 (FD (Dos.energies (AmsetData.dos ad)) ef
                                     (T * BOLTZMANN)%Q))) = Ok y /\
    np.trapz y (np.array1 (Dos.energies (AmsetData.dos ad))) = Ok integral /\
    v = (integral * 4 * pi
         / (d * BOLTZMANN * T * Structure.volume (AmsetData.structure ad)))%Q.

(** What one pass of the loop of [IonizedImpurityScattering.__init__] writes
    into [impurity_concentration] at [idx]. *)
Definition concentration_written (properties : gmap string pyval)
    (ad : AmsetData.t) (idx : list nat) (v : Q) : Prop :=
  exists (n t : nat) (e_nt h_nt dc ac : Q),
    idx = [n; t] /\
    np.getitem (AmsetData.electron_conc ad) [n; t] = Ok e_nt /\
    np.getitem (AmsetData.hole_conc ad) [n; t] = Ok h_nt /\
    properties !! "donor_charge" = Some (PFloat dc) /\
    properties !! "acceptor_charge" = Some (PFloat ac) /\
    v = (Qabs e_nt * dc ^ 2 + Qabs h_nt * ac ^ 2)%Q.

(** The record the same pass appends to [imp_info]. *)
Definition impurity_report `{K : constants} (properties : gmap string pyval)
    (ad : AmsetData.t) (isl : ndarray) (idx : list nat) (r : log_record) : Prop :=
  exists (n t : nat) (dop T v : Q),
    idx = [n; t] /\
    AmsetData.doping ad !! n = Some dop /\
    AmsetData.temperatures ad !! t = Some T /\
    concentration_written properties ad idx v /\
    r = DebugImp (dop * (1 / bohr_to_cm) ^ 3)%Q T (np.item isl [n; t])
                 (v * (1 / bohr_to_cm) ^ 3)%Q.

(** * Properties *)

(** ** Arrays *)

(** The model against NumPy on small inputs. *)
Example tile_vector :
  np.tile (np.array1 (qs [1; 2]%Z)) [2; 3; 1]
  = np.mk [2; 3; 2] (qs [1; 2; 1; 2; 1; 2; 1; 2; 1; 2; 1; 2]%Z).
Proof. reflexivity. Qed.

Example tile_matrix :
  np.tile (np.mk [2; 2] (qs [1; 2; 3; 4]%Z)) [1; 2; 1]
  = np.mk [1; 4; 2] (qs [1; 2; 3; 4; 1; 2; 3; 4]%Z).
Proof. reflexivity. Qed.

Example add_vector_to_matrix :
  np.add (np.newaxis_front (np.newaxis_front (np.array1 (qs [1; 2]%Z))))
         (np.newaxis_back (np.mk [2; 3] (qs [10; 20; 30; 40; 50; 60]%Z)))
  = Ok (np.mk [2; 3; 2]
          (qs [11; 12; 21; 22; 31; 32; 41; 42; 51; 52; 61; 62]%Z)).
Proof. reflexivity. Qed.

Example add_incompatible :
  np.add (np.newaxis_front (np.newaxis_front (np.mk [2; 2] (qs [1; 2; 3; 4]%Z))))
         (np.newaxis_back (np.mk [2; 3] (qs [10; 20; 30; 40; 50; 60]%Z)))
  = Raise ValueError.
Proof. reflexivity. Qed.

Example trapz_triangle :
  np.trapz (np.array1 (qs [1; 2; 3]%Z)) (np.array1 (qs [0; 1; 3]%Z)) = Ok (26 # 4).
Proof. reflexivity. Qed.

Example ndindex_2_3 :
  np.ndindex [2; 3] = [[0; 0]; [0; 1]; [0; 2]; [1; 0]; [1; 1]; [1; 2]].
Proof. reflexivity. Qed.

Module np_facts.
Import np.

Lemma ravel_lt sh idx : in_bounds sh idx = true -> ravel sh idx < prod sh.
Proof.
  revert idx. induction sh as [|d sh IH]; intros [|i idx]; simpl; try done.
  - lia.
  - intros [Hi Hb]%andb_prop. apply Nat.ltb_lt in Hi.
    specialize (IH _ Hb). nia.
Qed.

Lemma unravel_ravel sh idx :
  in_bounds sh idx = true -> unravel sh (ravel sh idx) = idx.
Proof.
  revert idx. induction sh as [|d sh IH]; intros [|i idx]; simpl; try done.
  intros [Hi Hb]%andb_prop.
  pose proof (ravel_lt _ _ Hb) as Hlt.
  rewrite Nat.div_add_l by lia.
  rewrite Nat.div_small by done.
  rewrite (Nat.add_comm (i * prod sh)), Nat.Div0.mod_add, Nat.mod_small by done.
  rewrite IH by done. f_equal. lia.
Qed.

Lemma in_bounds_unravel sh j : j < prod sh -> in_bounds sh (unravel sh j) = true.
Proof.
  revert j. induction sh as [|d sh IH]; intros j; simpl; [done|].
  intros Hj. assert (0 < prod sh) by nia.
  apply andb_true_intro; split.
  - apply Nat.ltb_lt. apply Nat.Div0.div_lt_upper_bound. lia.
  - apply IH. by apply Nat.mod_upper_bound, Nat.neq_0_lt_0.
Qed.

Lemma in_bounds_length sh idx : in_bounds sh idx = true -> length idx = length sh.
Proof.
  revert idx. induction sh as [|d sh IH]; intros [|i idx]; simpl; try done.
  intros [_ Hb]%andb_prop. f_equal. by apply IH.
Qed.

Lemma item_tabulate sh f idx :
  in_bounds sh idx = true -> item (tabulate sh f) idx = f idx.
Proof.
  intros Hb. unfold item, tabulate; simpl.
  rewrite nth_lookup, list_lookup_fmap.
  rewrite lookup_seq_lt by by apply ravel_lt.
  simpl. by rewrite unravel_ravel.
Qed.

Lemma wf_tabulate sh f : wf (tabulate sh f).
Proof. unfold wf, tabulate; simpl. by rewrite length_fmap, length_seq. Qed.

Lemma item_map f a idx :
  ravel (shape a) idx < length (data a) ->
  item (map f a) idx = f (item a idx).
Proof.
  intros Hlt. unfold item, map; simpl.
  rewrite !nth_lookup, list_lookup_fmap.
  destruct (lookup_lt_is_Some_2 _ _ Hlt) as [x Hx]. by rewrite Hx.
Qed.

Lemma item_map_in a f idx :
  wf a -> in_bounds (shape a) idx = true -> item (map f a) idx = f (item a idx).
Proof. intros Hwf Hb. apply item_map. rewrite Hwf. by apply ravel_lt. Qed.

Lemma zip_bidx_in_bounds sh idx :
  in_bounds sh idx = true ->
  zip_with (fun d i => if d =? 1 then 0 else i) sh idx = idx.
Proof.
  revert idx. induction sh as [|d sh IH]; intros [|i idx]; simpl; try done.
  intros [Hi Hb]%andb_prop. apply Nat.ltb_lt in Hi.
  rewrite IH by done. f_equal.
  destruct (d =? 1) eqn:Hd; [|done]. apply Nat.eqb_eq in Hd. lia.
Qed.

(** An operand that already has the shape of the result is read in place. *)
Lemma bidx_in_bounds sh idx : in_bounds sh idx = true -> bidx sh idx = idx.
Proof.
  intros Hb. unfold bidx.
  rewrite (in_bounds_length _ _ Hb), Nat.sub_diag. simpl.
  by apply zip_bidx_in_bounds.
Qed.

Lemma item_ones sh idx : in_bounds sh idx = true -> item (ones sh) idx = 1%Q.
Proof.
  intros Hb. unfold item, ones; simpl.
  rewrite nth_lookup, lookup_replicate_2; [done|by apply ravel_lt].
Qed.

Lemma Forall_tabulate (P : Q -> Prop) sh f :
  (forall idx, in_bounds sh idx = true -> P (f idx)) ->
  Forall P (data (tabulate sh f)).
Proof.
  intros Hf. unfold tabulate; simpl.
  apply Forall_fmap, Forall_forall. intros j Hj.
  apply elem_of_seq in Hj. simpl. apply Hf, in_bounds_unravel. lia.
Qed.

Lemma Forall_item (P : Q -> Prop) a idx :
  P 0%Q -> Forall P (data a) -> P (item a idx).
Proof.
  intros H0 Ha. unfold item. rewrite nth_lookup.
  destruct (data a !! ravel (shape a) idx) as [x|] eqn:Hx; simpl; [|done].
  by eapply Forall_lookup_1.
Qed.

Lemma getitem_in a idx :
  in_bounds (shape a) idx = true -> getitem a idx = Ok (item a idx).
Proof. unfold getitem. by intros ->. Qed.

Lemma map2_Ok op a b sh :
  broadcast_shapes (shape a) (shape b) = Some sh ->
  map2 op a b
  = Ok (tabulate sh (fun idx => op (item a (bidx (shape a) idx))
                                   (item b (bidx (shape b) idx)))).
Proof. unfold map2. by intros ->. Qed.

(** A row against a matrix of the same width. *)
Lemma broadcast_row_matrix nd nt :
  broadcast_shapes [1; nt] [nd; nt] = Some [nd; nt].
Proof.
  unfold broadcast_shapes; simpl. rewrite Nat.eqb_refl.
  by destruct nd as [|[|nd]].
Qed.

Lemma broadcast_same_vector n : np.broadcast_shapes [n] [n] = Some [n].
Proof. unfold np.broadcast_shapes; simpl. by rewrite Nat.eqb_refl. Qed.

(** [q[None, None]] against [isl[..., None]] for a vector [q]. *)
Lemma broadcast_vector_matrix nd nt nk :
  np.broadcast_shapes [1; 1; nk] [nd; nt; 1] = Some [nd; nt; nk].
Proof. by destruct nd as [|[|nd]], nt as [|[|nt]], nk as [|[|nk]]. Qed.

Lemma in_bounds_2 nd nt n t :
  n < nd -> t < nt -> np.in_bounds [nd; nt] [n; t] = true.
Proof.
  intros Hn Ht. simpl.
  apply Nat.ltb_lt in Hn, Ht. by rewrite Hn, Ht.
Qed.

Lemma in_bounds_3 nd nt nk n t k :
  n < nd -> t < nt -> k < nk -> np.in_bounds [nd; nt; nk] [n; t; k] = true.
Proof.
  intros Hn Ht Hk. simpl.
  apply Nat.ltb_lt in Hn, Ht, Hk. by rewrite Hn, Ht, Hk.
Qed.

Lemma elem_of_ndindex_2 nd nt idx :
  idx ∈ np.ndindex [nd; nt] -> exists n t, idx = [n; t] /\ n < nd /\ t < nt.
Proof.
  unfold np.ndindex. intros (j & -> & Hj)%list_elem_of_fmap.
  apply elem_of_seq in Hj.
  assert (Hb : np.in_bounds [nd; nt] (np.unravel [nd; nt] j) = true)
    by (apply in_bounds_unravel; lia).
  simpl in *. eexists _, _. split; [reflexivity|].
  apply andb_prop in Hb as [H1 [H2 _]%andb_prop].
  by apply Nat.ltb_lt in H1, H2.
Qed.

Lemma setitem_Ok a idx v a' :
  np.setitem a idx v = Ok a' ->
  np.in_bounds (np.shape a) idx = true /\
  a' = np.mk (np.shape a) (<[np.ravel (np.shape a) idx := v]> (np.data a)).
Proof.
  unfold np.setitem. destruct (np.in_bounds _ _); [|done]. by intros [= <-].
Qed.

Lemma setitem_shape a idx v a' :
  np.setitem a idx v = Ok a' ->
  np.shape a' = np.shape a /\ (np.wf a -> np.wf a').
Proof.
  intros [_ ->]%setitem_Ok. split; [done|].
  unfold np.wf; simpl. by rewrite length_insert.
Qed.

Lemma wf_zeros sh : np.wf (np.zeros sh).
Proof. unfold np.wf; simpl. by rewrite length_replicate. Qed.

End np_facts.

Import np_facts.

(** ** Binary64 rounding *)

Lemma nearest_even_error (y : Q) :
  (Qabs (inject_Z (binary64.nearest_even (Qnum y) (Zpos (Qden y))) - y) <= 1 # 2)%Q.
Proof.
  destruct y as [n d]. cbn [Qnum Qden].
  apply Qabs_Qle_condition.
  pose proof (Z.div_mod n (Zpos d) ltac:(lia)) as Hdm.
  pose proof (Z.mod_pos_bound n (Zpos d) ltac:(lia)) as Hr.
  unfold binary64.nearest_even.
  set (q := (n / Zpos d)%Z) in *. set (r := (n mod Zpos d)%Z) in *.
  destruct (Z.compare_spec (2 * r) (Zpos d)) as [He|Hl|Hg];
    [destruct (Z.even q)| |];
    unfold Qle, Qminus, Qplus, Qopp, inject_Z; cbn [Qnum Qden]; nia.
Qed.

Lemma two_power_pos (z : Z) : (0 < 2 ^ z)%Q.
Proof. by apply Qpower_0_lt. Qed.

Lemma two_power_succ (z : Z) : (2 ^ (z + 1) == 2 ^ z * 2)%Q.
Proof. rewrite Qpower_plus by discriminate. reflexivity. Qed.

(** The scaled significand has at least 53 bits. *)
Lemma exponent_lower (x : Q) :
  (0 < x)%Q -> (2 ^ 52 <= x / 2 ^ binary64.exponent x)%Q.
Proof.
  intros Hx. destruct x as [n d].
  assert (Hn : (0 < n)%Z) by (unfold Qlt in Hx; simpl in Hx; lia).
  unfold binary64.exponent. cbn [Qnum Qden].
  set (a := Z.log2 n). set (b := Z.log2 (Zpos d)).
  set (e0 := (a - b - 53)%Z).
  destruct (Z.log2_spec n Hn) as [Ha _]. fold a in Ha.
  destruct (Z.log2_spec (Zpos d) ltac:(lia)) as [_ Hb]. fold b in Hb.
  assert (Ha0 : (0 <= a)%Z) by apply Z.log2_nonneg.
  assert (Hb0 : (0 <= b)%Z) by apply Z.log2_nonneg.
  assert (Hlow : (2 ^ 52 <= (n # d) / 2 ^ e0)%Q).
  { apply Qle_shift_div_l; [apply two_power_pos|].
    assert (E : (2 ^ 52 * 2 ^ e0 == 2 ^ a / 2 ^ (b + 1))%Q).
    { rewrite <- Qpower_plus, <- Qpower_minus by discriminate.
      replace (52 + e0)%Z with (a - (b + 1))%Z by (unfold e0; lia).
      reflexivity. }
    rewrite E.
    apply Qle_shift_div_r; [apply two_power_pos|].
    pose proof (Zpower_Qpower 2 a Ha0) as Ea.
    pose proof (Zpower_Qpower 2 (b + 1) ltac:(lia)) as Eb.
    change (inject_Z 2) with 2%Q in Ea, Eb.
    rewrite <- Ea, <- Eb.
    unfold Qle, Qmult, inject_Z; cbn [Qnum Qden].
    rewrite Z.mul_1_r.
    change (Z.succ b) with (b + 1)%Z in Hb. nia. }
  destruct (Qle_bool (2 ^ 53) ((n # d) / 2 ^ e0)) eqn:Hc; [|exact Hlow].
  apply Qle_bool_iff in Hc.
  assert (E : ((n # d) / 2 ^ (e0 + 1) == (n # d) / 2 ^ e0 / 2)%Q).
  { pose proof (two_power_pos e0). rewrite two_power_succ. field. lra. }
  rewrite E.
  change (2 ^ 53)%Q with (9007199254740992 # 1)%Q in Hc.
  change (2 ^ 52)%Q with (4503599627370496 # 1)%Q.
  generalize dependent ((n # d) / 2 ^ e0)%Q. intros z _ Hz _.
  apply Qle_shift_div_l; [done|]. lra.
Qed.

(** ... and at most 53: the scaled significand is below [2 ** 53]. *)
Lemma exponent_upper (x : Q) :
  (0 < x)%Q -> (x / 2 ^ binary64.exponent x < 2 ^ 53)%Q.
Proof.
  intros Hx. destruct x as [n d].
  assert (Hn : (0 < n)%Z) by (unfold Qlt in Hx; simpl in Hx; lia).
  unfold binary64.exponent. cbn [Qnum Qden].
  set (a := Z.log2 n). set (b := Z.log2 (Zpos d)).
  set (e0 := (a - b - 53)%Z).
  destruct (Z.log2_spec n Hn) as [_ Ha]. fold a in Ha.
  destruct (Z.log2_spec (Zpos d) ltac:(lia)) as [Hb _]. fold b in Hb.
  assert (Ha0 : (0 <= a)%Z) by apply Z.log2_nonneg.
  assert (Hb0 : (0 <= b)%Z) by apply Z.log2_nonneg.
  destruct (Qle_bool (2 ^ 53) ((n # d) / 2 ^ e0)) eqn:Hc.
  - apply Qlt_shift_div_r; [apply two_power_pos|].
    assert (E : (2 ^ 53 * 2 ^ (e0 + 1) == 2 ^ (a + 1) / 2 ^ b)%Q).
    { rewrite <- Qpower_plus, <- Qpower_minus by discriminate.
      replace (53 + (e0 + 1))%Z with (a + 1 - b)%Z by (unfold e0; lia).
      reflexivity. }
    rewrite E.
    apply Qlt_shift_div_l; [apply two_power_pos|].
    pose proof (Zpower_Qpower 2 (a + 1) ltac:(lia)) as Ea.
    pose proof (Zpower_Qpower 2 b Hb0) as Eb.
    change (inject_Z 2) with 2%Q in Ea, Eb.
    rewrite <- Ea, <- Eb.
    unfold Qlt, Qmult, inject_Z; cbn [Qnum Qden].
    rewrite Z.mul_1_r.
    change (Z.succ a) with (a + 1)%Z in Ha. nia.
  - apply Qnot_le_lt. intros Hle. apply Qle_bool_iff in Hle. congruence.
Qed.

Lemma round_pos_error (x : Q) :
  (0 < x)%Q -> (Qabs (binary64.round_pos x - x) <= (1 # 2 ^ 53) * x)%Q.
Proof.
  intros Hx. unfold binary64.round_pos.
  pose proof (exponent_lower x Hx) as Hlow.
  set (e := binary64.exponent x) in *.
  pose proof (two_power_pos e) as He.
  set (p := (2 ^ e)%Q) in *.
  set (y := (x / p)%Q) in *.
  pose proof (nearest_even_error y) as Hm.
  set (m := inject_Z (binary64.nearest_even (Qnum y) (Zpos (Qden y)))) in *.
  assert (Hxy : (x == y * p)%Q) by (unfold y; field; lra).
  clearbody m y p. clear e.
  apply Qabs_Qle_condition in Hm as [Hm1 Hm2].
  apply Qabs_Qle_condition.
  change (2 ^ 52)%Q with (4503599627370496 # 1)%Q in Hlow.
  change (1 # 2 ^ 53)%Q with (1 # 9007199254740992)%Q.
  rewrite Hxy. clear Hxy Hx x.
  split; nra.
Qed.

(** Rounding changes a number by at most [2 ** -53] of its magnitude. *)
Lemma round_error (x : Q) :
  (Qabs (binary64.round x - x) <= (1 # 2 ^ 53) * Qabs x)%Q.
Proof.
  unfold binary64.round. rewrite Qred_correct.
  destruct x as [[|n|n] d]; cbn [Qnum].
  - vm_compute. discriminate.
  - rewrite (Qabs_pos (Zpos n # d)) by done.
    by apply round_pos_error.
  - change (- (Zneg n # d))%Q with (Zpos n # d).
    assert (E : (- binary64.round_pos (Zpos n # d) - (Zneg n # d)
                 == - (binary64.round_pos (Zpos n # d) - (Zpos n # d)))%Q).
    { change (Zneg n # d) with (- (Zpos n # d))%Q. ring. }
    rewrite E, Qabs_opp, (Qabs_neg (Zneg n # d)) by done.
    change (- (Zneg n # d))%Q with (Zpos n # d).
    by apply round_pos_error.
Qed.

Example round_one_tenth :
  binary64.round (1 # 10) = (3602879701896397 # 36028797018963968)%Q.
Proof. vm_compute. reflexivity. Qed.

Example round_tie_to_even :
  binary64.round 9007199254740993 = 9007199254740992%Q /\
  binary64.round 9007199254740995 = 9007199254740996%Q.
Proof. split; vm_compute; reflexivity. Qed.

Example round_is_odd : binary64.round (- (1 # 3)) = (- binary64.round (1 # 3))%Q.
Proof. vm_compute. reflexivity. Qed.

Lemma Qabs_cases (x : Q) :
  ((0 <= x)%Q /\ (Qabs x == x)%Q) \/ ((x <= 0)%Q /\ (Qabs x == - x)%Q).
Proof.
  destruct (Qlt_le_dec x 0) as [H|H].
  - right. split; [lra|]. apply Qabs_neg. lra.
  - left. split; [done|]. by apply Qabs_pos.
Qed.

(** The same bound, without absolute values. *)
Lemma round_between (x : Q) :
  (x - (1 # 2 ^ 53) * Qabs x <= binary64.round x <= x + (1 # 2 ^ 53) * Qabs x)%Q.
Proof.
  pose proof (round_error x) as H. apply Qabs_Qle_condition in H.
  destruct H. split; lra.
Qed.

(** Two roundings in a row, the second after a multiplication by one. *)
Lemma round_twice_error (q : Q) :
  (Qabs (binary64.round (binary64.round q * 1) - q) <= (3 # 2 ^ 53) * Qabs q)%Q.
Proof.
  pose proof (round_between q) as [H1 H2].
  pose proof (round_between (binary64.round q * 1)) as [H3 H4].
  set (r := binary64.round q) in *.
  set (x := binary64.round (r * 1)) in *. clearbody x r.
  apply Qabs_Qle_condition.
  change (1 # 2 ^ 53)%Q with (1 # 9007199254740992)%Q in *.
  change (3 # 2 ^ 53)%Q with (3 # 9007199254740992)%Q.
  destruct (Qabs_cases q) as [[Hq Eq]|[Hq Eq]];
    destruct (Qabs_cases (r * 1)) as [[Hr Er]|[Hr Er]];
    rewrite Eq in *; rewrite Er in *; split; lra.
Qed.


(** ** Exceptions and the logger *)

Lemma bind_result_inv {A B} (m : result A) (f : A -> result B) b :
  m ≫= f = Ok b -> exists a, m = Ok a /\ f a = Ok b.
Proof. destruct m as [a|]; simpl; [by exists a|done]. Qed.

Ltac inv_bind H :=
  let x := fresh "x" in
  let E := fresh "E" in
  apply bind_result_inv in H as (x & E & H).

Ltac same_result :=
  repeat match goal with
         | H1 : ?t = Ok _, H2 : ?t = Ok _ |- _ => rewrite H1 in H2; simplify_eq
         end.

Lemma lift_bind {A B} (r : result A) (f : A -> py B) :
  lift r ≫= f = match r with Ok a => f a | Raise e => ([], Raise e) end.
Proof. destruct r as [a|]; simpl; [by destruct (f a)|done]. Qed.

Lemma bind_Ok_inv {A B} (m : py A) (f : A -> py B) l b :
  m ≫= f = (l, Ok b) ->
  exists l1 a l2, m = (l1, Ok a) /\ f a = (l2, Ok b) /\ l = l1 ++ l2.
Proof.
  destruct m as [l1 [a|]]; simpl; [|done].
  destruct (f a) as [l2 r] eqn:Hf. intros [= <- ->]. by exists l1, a, l2.
Qed.

Lemma lift_Ok_inv {A} (r : result A) l a : lift r = (l, Ok a) -> r = Ok a /\ l = [].
Proof. by intros [= <- ->]. Qed.

Lemma py_truediv_Ok_inv (a b v : Q) :
  py_truediv a b = Ok v -> ~ (b == 0)%Q /\ v = (a / b)%Q.
Proof.
  unfold py_truediv. destruct (Qeq_bool b 0) eqn:E; [done|].
  intros [= <-]. split; [|done]. by apply Qeq_bool_neq.
Qed.

Lemma py_truediv_nonzero (a b : Q) :
  ~ (b == 0)%Q -> py_truediv a b = Ok (a / b)%Q.
Proof.
  intros Hb. unfold py_truediv. destruct (Qeq_bool b 0) eqn:E; [|done].
  by apply Qeq_bool_eq in E.
Qed.

Lemma py_truediv_zero (a b : Q) :
  (b == 0)%Q -> py_truediv a b = Raise ZeroDivisionError.
Proof. intros Hb. unfold py_truediv. by rewrite (Qeq_eq_bool _ _ Hb). Qed.

(** ** Dictionaries and loops *)

Section containers.
Context `{Countable K} {V : Type}.

Lemma dict_comp_from_ext (f g : K -> result V) keys acc :
  (forall k, k ∈ keys -> f k = g k) ->
  dict_comp_from f keys acc = dict_comp_from g keys acc.
Proof.
  revert acc. induction keys as [|k ks IH]; intros acc Hfg; simpl; [done|].
  rewrite <- (Hfg k) by left.
  destruct (f k); simpl; [|done].
  apply IH. intros k' Hk'. apply Hfg. by right.
Qed.

Lemma dict_comp_ext (f g : K -> result V) keys :
  (forall k, k ∈ keys -> f k = g k) -> dict_comp f keys = dict_comp g keys.
Proof. apply dict_comp_from_ext. Qed.

End containers.

Lemma dict_get_Some {V} (d : gmap string V) k v :
  d !! k = Some v -> dict_get d k = Ok v.
Proof. unfold dict_get. by intros ->. Qed.

Lemma dict_get_None {V} (d : gmap string V) k :
  d !! k = None -> dict_get d k = Raise (KeyError (KStr k)).
Proof. unfold dict_get. by intros ->. Qed.

Lemma dict_comp_from_missing (mp : gmap string pyval) keys acc k :
  k ∈ keys -> mp !! k = None ->
  exists k', k' ∈ keys /\ mp !! k' = None /\
    dict_comp_from (dict_get mp) keys acc = Raise (KeyError (KStr k')).
Proof.
  revert acc. induction keys as [|k0 ks IH]; intros acc Hin Hk.
  - by apply elem_of_nil in Hin.
  - simpl.
    destruct (mp !! k0) as [v|] eqn:Hk0;
      [rewrite (dict_get_Some _ _ _ Hk0)|rewrite (dict_get_None _ _ Hk0)]; simpl.
    + apply elem_of_cons in Hin as [->|Hin]; [congruence|].
      destruct (IH (<[k0:=v]> acc) Hin Hk) as (k' & ? & ? & ?).
      exists k'. split; [by right|auto].
    + exists k0. split; [by left|auto].
Qed.

Lemma dict_comp_from_lookup (mp : gmap string pyval) keys acc d k :
  dict_comp_from (dict_get mp) keys acc = Ok d ->
  d !! k = if decide (k ∈ keys) then mp !! k else acc !! k.
Proof.
  revert acc. induction keys as [|k0 ks IH]; intros acc; cbn [dict_comp_from].
  - intros [= <-]. case_decide as Hin; [by apply elem_of_nil in Hin|done].
  - destruct (mp !! k0) as [v|] eqn:Hk0;
      [rewrite (dict_get_Some _ _ _ Hk0)|by rewrite (dict_get_None _ _ Hk0)].
    cbn [mbind result_bind]. intros Hd. rewrite (IH _ Hd).
    destruct (decide (k ∈ ks)) as [Hin|Hnin].
    + case_decide as Hin'; [done|]. destruct Hin'. by right.
    + destruct (decide (k = k0)) as [->|Hne].
      * case_decide as Hin'; [by rewrite lookup_insert_eq|].
        destruct Hin'. by left.
      * rewrite lookup_insert_ne by done.
        case_decide as Hin'; [|done].
        apply elem_of_cons in Hin' as [?|?]; done.
Qed.

Lemma dict_comp_from_total (mp : gmap string pyval) keys acc :
  (forall k, k ∈ keys -> is_Some (mp !! k)) ->
  exists d, dict_comp_from (dict_get mp) keys acc = Ok d.
Proof.
  revert acc. induction keys as [|k0 ks IH]; intros acc Hall; simpl.
  - by exists acc.
  - destruct (Hall k0) as [v Hv]; [by left|].
    rewrite (dict_get_Some _ _ _ Hv). simpl.
    apply IH. intros k Hk. apply Hall. by right.
Qed.

Lemma for_each_inv {A S} (body : S -> A -> result S) (I : S -> Prop) l s :
  I s ->
  (forall s x, x ∈ l -> I s -> exists s', body s x = Ok s' /\ I s') ->
  exists s', for_each body l s = Ok s' /\ I s'.
Proof.
  revert s. induction l as [|x l IH]; intros s Hs Hstep; simpl.
  - by exists s.
  - destruct (Hstep s x) as (s1 & -> & Hs1); [by left|done|]. simpl.
    apply IH; [done|]. intros s2 y Hy. apply Hstep. by right.
Qed.

Lemma for_each_inv_Ok {A S} (body : S -> A -> result S) (I : S -> Prop) l s s' :
  I s ->
  (forall s x s', x ∈ l -> I s -> body s x = Ok s' -> I s') ->
  for_each body l s = Ok s' -> I s'.
Proof.
  revert s. induction l as [|x l IH]; intros s Hs Hstep; simpl.
  - by intros [= <-].
  - destruct (body s x) as [s1|] eqn:Hb; simpl; [|done].
    apply IH.
    + eapply Hstep; [by left|done..].
    + intros s2 y s3 Hy. apply Hstep. by right.
Qed.

(** ** The shared constructor *)

Lemma base_init_missing req mp amset_data k :
  k ∈ req -> mp !! k = None ->
  exists k', k' ∈ req /\ mp !! k' = None /\
    AbstractElasticScattering.__init__ req mp amset_data = Raise (KeyError (KStr k')).
Proof.
  intros Hin Hk. unfold AbstractElasticScattering.__init__, dict_comp.
  destruct (dict_comp_from_missing mp req ∅ k Hin Hk) as (k' & ? & ? & ->).
  by exists k'.
Qed.

Lemma base_init_ext req mp1 mp2 amset_data :
  (forall k, k ∈ req -> mp1 !! k = mp2 !! k) ->
  AbstractElasticScattering.__init__ req mp1 amset_data
  = AbstractElasticScattering.__init__ req mp2 amset_data.
Proof.
  intros Hagree. unfold AbstractElasticScattering.__init__.
  rewrite (dict_comp_ext (dict_get mp1) (dict_get mp2)); [done|].
  intros k Hk. unfold dict_get. by rewrite Hagree.
Qed.

(** What a successful run of the shared constructor stores. *)
Lemma base_init_Ok req mp amset_data self :
  AbstractElasticScattering.__init__ req mp amset_data = Ok self ->
  AbstractElasticScattering.doping self = AmsetData.doping amset_data /\
  AbstractElasticScattering.temperatures self = AmsetData.temperatures amset_data /\
  AbstractElasticScattering.spins self = AmsetData.spins amset_data /\
  forall k, k ∈ req -> AbstractElasticScattering.properties self !! k = mp !! k.
Proof.
  unfold AbstractElasticScattering.__init__, dict_comp.
  destruct (dict_comp_from (dict_get mp) req ∅) as [props|] eqn:Hp; simpl; [|done].
  destruct (dict_comp_from _ (AmsetData.spins amset_data) ∅); simpl; [|done].
  intros [= <-]; simpl. repeat split.
  intros k Hk. rewrite (dict_comp_from_lookup _ _ _ _ k Hp).
  by case_decide.
Qed.

Lemma base_init_other req mp mp' ad self :
  AbstractElasticScattering.__init__ req mp ad = Ok self ->
  (forall k, k ∈ req -> is_Some (mp' !! k)) ->
  exists self',
    AbstractElasticScattering.__init__ req mp' ad = Ok self' /\
    AbstractElasticScattering.doping self' = AbstractElasticScattering.doping self /\
    AbstractElasticScattering.temperatures self'
      = AbstractElasticScattering.temperatures self.
Proof.
  unfold AbstractElasticScattering.__init__, dict_comp. intros Hb Hall.
  destruct (dict_comp_from_total mp' req ∅ Hall) as [d' ->].
  destruct (dict_comp_from (dict_get mp) req ∅); simpl in *; [|done].
  destruct (dict_comp_from _ (AmsetData.spins ad) ∅); simpl in *; [|done].
  injection Hb as <-. by eexists.
Qed.

(** ** Missing and extra properties *)

(** C3. For each of the three classes, building an instance from a mapping
    that lacks a required property raises at once the [KeyError] of the
    first missing required key (the error the specification calls
    MissingPropertyError): nothing has been logged and no instance exists. *)
Theorem missing_property_rejected `{K : constants} (FD : list Q -> Q -> Q -> list Q) :
  rejects_missing_property AcousticDeformationPotentialScattering.t (H:=ADP) /\
  rejects_missing_property IonizedImpurityScattering.t (H:=IMP FD) /\
  rejects_missing_property PiezoelectricScattering.t (H:=PIE).
Proof.
  repeat split; intros mp ad k Hin Hk; simpl in *;
    destruct (base_init_missing _ mp ad k Hin Hk) as (k' & ? & ? & Hr);
    exists k'; (split; [done|]); (split; [done|]).
  - unfold AcousticDeformationPotentialScattering.__init__. by rewrite Hr.
  - unfold IonizedImpurityScattering.__init__. by rewrite Hr.
  - unfold PiezoelectricScattering.__init__. by rewrite Hr.
Qed.

Lemma missing_property_rejected_witness :
  exists k',
    AcousticDeformationPotentialScattering.__init__ (K:=sample_constants)
      (delete "elastic_constant" sample_properties) (sample_data false)
    = ([], Raise (KeyError (KStr k'))).
Proof.
  destruct (proj1 (missing_property_rejected (K:=sample_constants) sample_FD)
              (delete "elastic_constant" sample_properties) (sample_data false)
              "elastic_constant") as (k' & _ & _ & Hr).
  - simpl. apply list_elem_of_In. simpl. by right; left.
  - apply lookup_delete_eq.
  - exists k'. exact Hr.
Defined.

Lemma reads_only_required_intro M (C : ElasticScattering M) :
  (forall mp1 mp2 ad,
      (forall k, k ∈ required_properties -> mp1 !! k = mp2 !! k) ->
      __init__ mp1 ad = __init__ mp2 ad) ->
  reads_only_required M.
Proof.
  intros Hinit mp1 mp2 ad Hagree.
  specialize (Hinit mp1 mp2 ad Hagree). split; [done|].
  intros l1 l2 m1 m2 H1 H2.
  rewrite Hinit, H2 in H1. by injection H1 as <- <-.
Qed.

(** C10. For each of the three classes, two mappings that agree on the
    required properties give the same construction (same log, same instance
    or same exception), hence the same [prefactor] and [factor] for every
    argument; keys outside [required_properties] are never looked at. *)
Theorem extra_properties_ignored `{K : constants} (FD : list Q -> Q -> Q -> list Q) :
  reads_only_required AcousticDeformationPotentialScattering.t (H:=ADP) /\
  reads_only_required IonizedImpurityScattering.t (H:=IMP FD) /\
  reads_only_required PiezoelectricScattering.t (H:=PIE).
Proof.
  split; [|split]; apply reads_only_required_intro;
    intros mp1 mp2 ad Hagree; simpl in *.
  - unfold AcousticDeformationPotentialScattering.__init__.
    by rewrite (base_init_ext _ mp1 mp2).
  - unfold IonizedImpurityScattering.__init__.
    by rewrite (base_init_ext _ mp1 mp2).
  - unfold PiezoelectricScattering.__init__.
    by rewrite (base_init_ext _ mp1 mp2).
Qed.

Lemma extra_properties_ignored_witness :
  PiezoelectricScattering.__init__ (K:=sample_constants)
    sample_properties (sample_data false)
  = PiezoelectricScattering.__init__ (K:=sample_constants)
      (<["unknown_property" := PFloat 1]> sample_properties) (sample_data false).
Proof.
  apply (proj2 (proj2 (extra_properties_ignored (K:=sample_constants) sample_FD))).
  intros k Hk. simpl in Hk.
  unfold PiezoelectricScattering.required_properties in Hk.
  rewrite lookup_insert_ne; [done|].
  intros <-. apply list_elem_of_In in Hk. simpl in Hk.
  by destruct Hk as [|[|[]]].
Defined.

(** ** Temperature broadcast shared by two [prefactor] methods *)

(** [p * T[None, :] * np.ones((nd, len(T)))]: the row of temperatures scaled
    by [p], repeated for every doping. *)
Lemma scaled_temperatures (p : Q) (T : list Q) (nd : nat) :
  exists r,
    np.multiply (np.map (Qmult p) (np.newaxis_front (np.array1 T)))
           (np.ones [nd; length T]) = Ok r /\
    np.shape r = [nd; length T] /\ np.wf r /\
    forall n t, n < nd -> t < length T ->
      np.item r [n; t] = (p * nth t T 0 * 1)%Q.
Proof.
  eexists. split; [|split; [|split]].
  - unfold np.multiply. apply map2_Ok. simpl. apply broadcast_row_matrix.
  - done.
  - apply wf_tabulate.
  - intros n t Hn Ht.
    rewrite item_tabulate by by apply in_bounds_2.
    rewrite (bidx_in_bounds [nd; length T]) by by apply in_bounds_2.
    rewrite item_ones by by apply in_bounds_2.
    f_equal. unfold np.bidx, np.item; simpl.
    destruct (lookup_lt_is_Some_2 T t Ht) as [x Hx].
    assert (Hr : (if length T =? 1 then 0 else t) = t).
    { destruct (length T =? 1) eqn:E; [|done]. apply Nat.eqb_eq in E. lia. }
    rewrite Hr, !nth_lookup, Nat.mul_1_r, Nat.add_0_r, list_lookup_fmap, Hx.
    done.
Qed.

(** [round(round(p * T[None, :]) * np.ones((nd, len(T))))]: the rounded row
    of temperatures scaled by [p], repeated for every doping. *)
Lemma rounded_temperatures (p : Q) (T : list Q) (nd : nat) :
  exists r,
    np.map2 (fun x y => binary64.round (x * y))
            (np.map (fun T => binary64.round (p * T))
                    (np.newaxis_front (np.array1 T)))
            (np.ones [nd; length T]) = Ok r /\
    np.shape r = [nd; length T] /\ np.wf r /\
    forall n t, n < nd -> t < length T ->
      np.item r [n; t]
      = binary64.round (binary64.round (p * nth t T 0%Q) * 1).
Proof.
  eexists. split; [|split; [|split]].
  - apply map2_Ok. simpl. apply broadcast_row_matrix.
  - done.
  - apply wf_tabulate.
  - intros n t Hn Ht.
    rewrite item_tabulate by by apply in_bounds_2.
    rewrite (bidx_in_bounds [nd; length T]) by by apply in_bounds_2.
    rewrite item_ones by by apply in_bounds_2.
    do 2 f_equal. unfold np.bidx, np.item; simpl.
    destruct (lookup_lt_is_Some_2 T t Ht) as [x Hx].
    assert (Hr : (if length T =? 1 then 0 else t) = t).
    { destruct (length T =? 1) eqn:E; [|done]. apply Nat.eqb_eq in E. lia. }
    rewrite Hr, !nth_lookup, Nat.mul_1_r, Nat.add_0_r, list_lookup_fmap, Hx.
    done.
Qed.

(** ** Acoustic deformation potential *)

Section adp.
Context {K : constants}.
Import AcousticDeformationPotentialScattering.

Lemma adp_init_Ok mp ad log m :
  __init__ mp ad = (log, Ok m) ->
  exists self c dp,
    AbstractElasticScattering.__init__ required_properties mp ad = Ok self /\
    mp !! "elastic_constant" = Some (PFloat c) /\
    mp !! "deformation_potential" = Some dp /\
    init_deformation_potential (AmsetData.is_metal ad) dp
      = (log, Ok (deformation_potential m)) /\
    super m = self /\
    vb_idx m = AmsetData.vb_idx ad /\
    is_metal m = AmsetData.is_metal ad /\
    fermi_levels m = AmsetData.fermi_levels ad /\
    _prefactor m = (BOLTZMANN * Second / (4 * pi ^ 2 * c * gpa_to_au))%Q /\
    ~ (4 * pi ^ 2 * c * gpa_to_au == 0)%Q.
Proof.
  unfold __init__. intros Hi.
  apply bind_Ok_inv in Hi as (l1 & self & l2 & [Hb ->]%lift_Ok_inv & Hi & ->).
  destruct (base_init_Ok _ _ _ _ Hb) as (_ & _ & _ & Hp).
  apply bind_Ok_inv in Hi as (l1 & ec & l3 & [Hec ->]%lift_Ok_inv & Hi & ->).
  apply bind_Ok_inv in Hi as (l1 & den & l4 & [Hden ->]%lift_Ok_inv & Hi & ->).
  apply bind_Ok_inv in Hi as (l1 & pre & l7 & [Hpre ->]%lift_Ok_inv & Hi & ->).
  apply bind_Ok_inv in Hi as (l1 & dp & l5 & [Hdp ->]%lift_Ok_inv & Hi & ->).
  apply bind_Ok_inv in Hi as (l1 & dp' & l6 & Hpol & Hi & ->).
  injection Hi as <- <-. simpl.
  unfold dict_get in Hec, Hdp.
  rewrite Hp in Hec, Hdp by (apply list_elem_of_In; simpl; tauto).
  destruct (mp !! "elastic_constant") as [ec'|] eqn:E1; [|done].
  destruct (mp !! "deformation_potential") as [dp0|] eqn:E2; [|done].
  injection Hec as ->. injection Hdp as ->.
  destruct ec as [c|]; [|done]. injection Hden as <-.
  apply py_truediv_Ok_inv in Hpre as [Hnz ->].
  exists self, c, dp. rewrite app_nil_r. by repeat split.
Qed.

(** The constructor runs to the deformation-potential branches as soon as
    the shared part succeeds and the elastic constant is a float. *)
Lemma adp_init_run mp ad self c dp :
  AbstractElasticScattering.__init__ required_properties mp ad = Ok self ->
  mp !! "elastic_constant" = Some (PFloat c) ->
  ~ (4 * pi ^ 2 * c * gpa_to_au == 0)%Q ->
  mp !! "deformation_potential" = Some dp ->
  __init__ mp ad =
    (d ← init_deformation_potential (AmsetData.is_metal ad) dp;
     mret {| super := self;
             vb_idx := AmsetData.vb_idx ad;
             is_metal := AmsetData.is_metal ad;
             fermi_levels := AmsetData.fermi_levels ad;
             _prefactor := (BOLTZMANN * Second / (4 * pi ^ 2 * c * gpa_to_au))%Q;
             deformation_potential := d |}).
Proof.
  intros Hb Hec Hnz Hdp. unfold __init__. rewrite Hb, lift_bind.
  destruct (base_init_Ok _ _ _ _ Hb) as (_ & _ & _ & Hp).
  cbv zeta.
  rewrite (dict_get_Some _ "elastic_constant" (PFloat c)), lift_bind
    by (rewrite Hp; [done|apply list_elem_of_In; simpl; tauto]).
  unfold py_rmul. rewrite lift_bind.
  rewrite (py_truediv_nonzero _ _ Hnz), lift_bind.
  rewrite (dict_get_Some _ "deformation_potential" dp), lift_bind
    by (rewrite Hp; [done|apply list_elem_of_In; simpl; tauto]).
  done.
Qed.

(** What an instance keeps of the transport state. *)
Lemma adp_captured mp ad log m :
  __init__ mp ad = (log, Ok m) ->
  AbstractElasticScattering.doping (super m) = AmsetData.doping ad /\
  AbstractElasticScattering.temperatures (super m) = AmsetData.temperatures ad /\
  fermi_levels m = AmsetData.fermi_levels ad /\
  vb_idx m = AmsetData.vb_idx ad /\
  is_metal m = AmsetData.is_metal ad.
Proof.
  intros Hi.
  destruct (adp_init_Ok _ _ _ _ Hi)
    as (self & c & dp & Hb & _ & _ & _ & Hs & Hvb & Hm & Hfl & _).
  destruct (base_init_Ok _ _ _ _ Hb) as (Hdop & Htemp & _ & _).
  by rewrite Hs.
Qed.

Lemma adp_semiconductor_pair mp ad log m Dv Dc :
  AmsetData.is_metal ad = false ->
  mp !! "deformation_potential" = Some (PTuple [Dv; Dc]) ->
  __init__ mp ad = (log, Ok m) ->
  deformation_potential m = PTuple [Dv * eV; Dc * eV]%Q.
Proof.
  intros Hmetal Hdp Hi.
  destruct (adp_init_Ok _ _ _ _ Hi) as (self & c & dp & _ & _ & Hdp' & Hpol & _).
  rewrite Hdp in Hdp'. injection Hdp' as <-.
  rewrite Hmetal in Hpol. by injection Hpol as _ <-.
Qed.

Lemma adp_base_term_Ok (m : t) :
  let nd := length (AbstractElasticScattering.doping (super m)) in
  let T := AbstractElasticScattering.temperatures (super m) in
  exists p, base_term m = Ok p /\ np.shape p = [nd; length T] /\ np.wf p /\
    forall n t, n < nd -> t < length T ->
      np.item p [n; t] = (_prefactor m * nth t T 0 * 1)%Q.
Proof. apply scaled_temperatures. Qed.

Lemma metal_uses_for_all_bands (m : t) (d : Q) :
  is_metal m = true -> deformation_potential m = PFloat d ->
  uses_for_all_bands m d.
Proof.
  intros Hm Hd spin b_idx. unfold prefactor. by rewrite Hm, Hd.
Qed.

(** C5. The fallback policy of the constructor, read off a successful
    construction: a metal given a tuple keeps its first entry, warns, and
    uses it for all bands; a metal given a scalar uses it for all bands and
    logs nothing; a semiconductor given a scalar [D] warns and from then on
    answers every call as the instance built from the pair [(D, D)]; a
    semiconductor given a pair keeps it as (valence, conduction).  The
    stored values are the supplied ones times [units.eV]. *)
Theorem deformation_potential_policy mp ad log m dp :
  mp !! "deformation_potential" = Some dp ->
  __init__ mp ad = (log, Ok m) ->
  match AmsetData.is_metal ad, dp with
  | true, PTuple (Dv :: _) =>
      log = [Warning metal_warning] /\
      deformation_potential m = PFloat (Dv * eV) /\
      uses_for_all_bands m (Dv * eV)
  | true, PFloat D =>
      log = [] /\
      deformation_potential m = PFloat (D * eV) /\
      uses_for_all_bands m (D * eV)
  | false, PFloat D =>
      log = [Warning semiconductor_warning] /\
      deformation_potential m = PTuple [D * eV; D * eV]%Q /\
      exists m',
        __init__ (<["deformation_potential" := PTuple [D; D]]> mp) ad = ([], Ok m') /\
        deformation_potential m' = deformation_potential m /\
        same_answers m m'
  | false, PTuple (Dv :: Dc :: _) =>
      log = [] /\
      deformation_potential m = PTuple [Dv * eV; Dc * eV]%Q
  | _, _ => False
  end.
Proof.
  intros Hdp Hi.
  destruct (adp_init_Ok _ _ _ _ Hi)
    as (self & c & dp' & Hb & Hec & Hdp' & Hpol & Hs & Hvb & Hm & Hfl & Hpre & Hnz).
  rewrite Hdp in Hdp'. injection Hdp' as <-.
  unfold init_deformation_potential in Hpol.
  destruct (AmsetData.is_metal ad) eqn:Hmetal, dp as [D|[|Dv [|Dc rest]]];
    simpl in Hpol; try discriminate Hpol; injection Hpol as <- Hd.
  - split; [done|]. split; [done|]. by apply metal_uses_for_all_bands.
  - split; [done|]. split; [done|]. by apply metal_uses_for_all_bands.
  - split; [done|]. split; [done|]. by apply metal_uses_for_all_bands.
  - split; [done|]. split; [done|].
    destruct (base_init_other _ mp (<["deformation_potential":=PTuple [D; D]]> mp)
                ad self Hb) as (self' & Hb' & Hdop & Htemp).
    { intros k Hk. destruct (decide (k = "deformation_potential")) as [->|Hne].
      - rewrite lookup_insert_eq. by eexists.
      - rewrite lookup_insert_ne by done.
        apply list_elem_of_In in Hk. simpl in Hk.
        destruct Hk as [<-|[<-|[]]]; [done|by eexists]. }
    eexists. split; [|split].
    + rewrite (adp_init_run _ _ self' c (PTuple [D; D]) Hb');
        [|by rewrite lookup_insert_ne|exact Hnz|by rewrite lookup_insert_eq].
      rewrite Hmetal. reflexivity.
    + done.
    + destruct m; simpl in *; subst.
      split; [|done]. intros spin b_idx.
      unfold prefactor, base_term; simpl. by rewrite Hdop, Htemp.
  - done.
Qed.

(** C1. On a semiconductor built with the pair [(Dv, Dc)], for a spin that
    has a valence-band index, [prefactor(spin, b_idx)] is the base term
    [_prefactor * temperatures[None, :] * np.ones((nd, nt))] with every
    (doping, temperature) entry multiplied by [(Dv * eV) ** 2] when
    [b_idx <= vb_idx[spin]] and by [(Dc * eV) ** 2] when
    [b_idx > vb_idx[spin]]. *)
Theorem prefactor_valence_conduction mp ad log m spin vb b_idx Dv Dc :
  AmsetData.is_metal ad = false ->
  mp !! "deformation_potential" = Some (PTuple [Dv; Dc]) ->
  __init__ mp ad = (log, Ok m) ->
  AmsetData.vb_idx ad !! spin = Some vb ->
  let D := if (b_idx <=? vb)%Z then Dv else Dc in
  let nd := length (AmsetData.doping ad) in
  let nt := length (AmsetData.temperatures ad) in
  exists base p,
    base_term m = Ok base /\
    prefactor m spin b_idx = Ok p /\
    np.shape p = [nd; nt] /\
    forall n t, n < nd -> t < nt ->
      np.getitem p [n; t] = Ok (np.item base [n; t] * (D * eV) ^ 2)%Q.
Proof.
  intros Hmetal Hdp Hi Hvb D nd nt.
  pose proof (adp_semiconductor_pair _ _ _ _ _ _ Hmetal Hdp Hi) as Hd.
  destruct (adp_captured _ _ _ _ Hi) as (Hdop & Htemp & _ & Hvbm & Hm).
  destruct (adp_base_term_Ok m) as (base & Hbase & Hsh & Hwf & _).
  rewrite Hdop, Htemp in Hsh. fold nd nt in Hsh.
  exists base. eexists. split; [done|]. split; [|split].
  - unfold prefactor. rewrite Hbase, Hm, Hmetal, Hvbm, Hd. simpl.
    unfold spin_get. rewrite Hvb. simpl.
    rewrite Z.gtb_ltb, Z.ltb_antisym. subst D.
    destruct (b_idx <=? vb)%Z; reflexivity.
  - done.
  - intros n t Hn Ht.
    rewrite getitem_in by (simpl; rewrite Hsh; by apply in_bounds_2).
    f_equal. apply item_map_in; [done|]. rewrite Hsh. by apply in_bounds_2.
Qed.

(** C7. The form factor of an instance built from a transport state whose
    Fermi levels are indexed by (doping, temperature) has shape
    [(ndoping, ntemperature) + q.shape] and every one of its elements is 1,
    whatever the values of [q]. *)
Theorem factor_identically_one mp ad log m (q : ndarray) :
  __init__ mp ad = (log, Ok m) ->
  AmsetData.shaped ad ->
  exists r,
    factor m q = Ok r /\
    np.shape r = [length (AbstractElasticScattering.doping (super m));
                  length (AbstractElasticScattering.temperatures (super m))]
                 ++ np.shape q /\
    np.wf r /\
    Forall (fun x => x = 1%Q) (np.data r).
Proof.
  intros Hi Hshaped.
  destruct (adp_captured _ _ _ _ Hi) as (Hdop & Htemp & Hfl & _).
  eexists. split; [reflexivity|]. simpl. split; [|split].
  - by rewrite Hfl, Hdop, Htemp, Hshaped.
  - unfold np.wf; simpl. by rewrite length_replicate.
  - apply Forall_forall. intros x Hx. by apply elem_of_replicate in Hx as [-> _].
Qed.

End adp.

Lemma deformation_potential_policy_witness :
  exists log m,
    AcousticDeformationPotentialScattering.__init__ (K:=sample_constants)
      sample_scalar_properties (sample_data false) = (log, Ok m) /\
    log = [Warning AcousticDeformationPotentialScattering.semiconductor_warning] /\
    AcousticDeformationPotentialScattering.deformation_potential m
    = PTuple [2 * @eV sample_constants; 2 * @eV sample_constants]%Q.
Proof.
  assert (H1 : sample_scalar_properties !! "deformation_potential" = Some (PFloat 2))
    by (vm_compute; reflexivity).
  destruct (AcousticDeformationPotentialScattering.__init__ (K:=sample_constants)
              sample_scalar_properties (sample_data false))
    as [log [m|err]] eqn:Hi; [|vm_compute in Hi; discriminate Hi].
  exists log, m. split; [reflexivity|].
  pose proof (deformation_potential_policy _ _ _ _ _ H1 Hi) as H.
  simpl in H. destruct H as (Hl & Hd & _). split; [exact Hl|exact Hd].
Defined.

Lemma prefactor_valence_conduction_witness :
  exists log m base p,
    AcousticDeformationPotentialScattering.__init__ (K:=sample_constants)
      sample_properties (sample_data false) = (log, Ok m) /\
    AcousticDeformationPotentialScattering.base_term m = Ok base /\
    AcousticDeformationPotentialScattering.prefactor m up 2 = Ok p /\
    np.getitem p [0; 1]
    = Ok (np.item base [0%nat; 1%nat] * (3 * @eV sample_constants) ^ 2)%Q.
Proof.
  destruct (AcousticDeformationPotentialScattering.__init__ (K:=sample_constants)
              sample_properties (sample_data false))
    as [log [m|err]] eqn:Hi; [|vm_compute in Hi; discriminate Hi].
  destruct (prefactor_valence_conduction (K:=sample_constants)
              sample_properties (sample_data false) log m up 1%Z 2%Z 2 3)
    as (base & p & Hbase & Hp & _ & Hnt).
  - reflexivity.
  - vm_compute; reflexivity.
  - exact Hi.
  - vm_compute; reflexivity.
  - exists log, m, base, p. repeat split; [exact Hbase|exact Hp|].
    apply (Hnt 0 1); simpl; lia.
Defined.

Lemma factor_identically_one_witness :
  exists log m r,
    AcousticDeformationPotentialScattering.__init__ (K:=sample_constants)
      sample_properties (sample_data true) = (log, Ok m) /\
    AcousticDeformationPotentialScattering.factor m (np.mk [2; 2] (qs [0; 5; 7; 9]%Z))
    = Ok r /\
    np.shape r = [1; 2; 2; 2] /\
    Forall (fun x => x = 1%Q) (np.data r).
Proof.
  destruct (AcousticDeformationPotentialScattering.__init__ (K:=sample_constants)
              sample_properties (sample_data true))
    as [log [m|err]] eqn:Hi; [|vm_compute in Hi; discriminate Hi].
  destruct (factor_identically_one (K:=sample_constants)
              sample_properties (sample_data true) log m
              (np.mk [2; 2] (qs [0; 5; 7; 9]%Z)) Hi)
    as (r & Hr & Hsh & _ & Hall).
  - reflexivity.
  - exists log, m, r. repeat split; [exact Hr| |exact Hall].
    rewrite Hsh.
    by destruct (adp_captured _ _ _ _ Hi) as (-> & -> & _).
Defined.

(** A metal, one doping, 300 K, 2 eV, 150 GPa: the single entry of the
    prefactor is the closed form, for every spin and band. *)
Example metal_scalar_scenario :
  exists m,
    AcousticDeformationPotentialScattering.__init__ (K:=sample_constants)
      metal_properties metal_300K = ([], Ok m) /\
    forall spin b_idx,
      AcousticDeformationPotentialScattering.prefactor m spin b_idx
      = Ok (np.mk [1; 1]
              [(@BOLTZMANN sample_constants * @Second sample_constants
                / (4 * @pi sample_constants ^ 2 * 150 * @gpa_to_au sample_constants)
                * 300 * 1 * (2 * @eV sample_constants) ^ 2)%Q]).
Proof.
  eexists. split; [vm_compute; reflexivity|].
  intros spin b_idx. reflexivity.
Qed.

(** ** The screening calculation *)

Lemma Forall_zip_with_same {A} (P : A -> Prop) (f : A -> A -> A) l1 l2 :
  (forall x y, P x -> P y -> P (f x y)) ->
  Forall P l1 -> Forall P l2 -> Forall P (zip_with f l1 l2).
Proof.
  intros Hf H1. revert l2. induction H1 as [|x l1 Hx _ IH]; intros l2 H2; simpl.
  - constructor.
  - destruct H2 as [|y l2 Hy H2]; constructor; auto.
Qed.

Lemma Forall_tail' {A} (P : A -> Prop) l : Forall P l -> Forall P (tail l).
Proof. by intros [|x l' _ H]. Qed.

Lemma diff_sorted (x : list Q) : Sorted Qle x -> Forall (Qle 0) (np.diff x).
Proof.
  unfold np.diff. induction x as [|a [|b x] IH]; intros Hs; simpl.
  - constructor.
  - constructor.
  - apply Sorted_inv in Hs as [Hs Hhd]. apply HdRel_inv in Hhd.
    constructor; [|by apply IH].
    unfold Qminus. rewrite <- (Qplus_opp_r a).
    apply Qplus_le_l with (z := a). ring_simplify. done.
Qed.

Lemma sum_nonneg (l : list Q) : Forall (Qle 0) l -> (0 <= np.sum l)%Q.
Proof.
  induction 1 as [|x l Hx _ IH]; simpl; [done|].
  rewrite <- (Qplus_0_l 0). by apply Qplus_le_compat.
Qed.

Lemma multiply_nonneg a b c :
  Forall (Qle 0) (np.data a) -> Forall (Qle 0) (np.data b) ->
  np.multiply a b = Ok c -> Forall (Qle 0) (np.data c).
Proof.
  intros Ha Hb. unfold np.multiply, np.map2.
  destruct (np.broadcast_shapes _ _); [|done]. intros [= <-].
  apply Forall_tabulate. intros idx _.
  apply Qmult_le_0_compat; by apply Forall_item.
Qed.

Lemma trapz_nonneg y x v :
  Forall (Qle 0) (np.data y) -> Sorted Qle (np.data x) ->
  np.trapz y x = Ok v -> (0 <= v)%Q.
Proof.
  intros Hy Hx. unfold np.trapz.
  destruct (np.shape y) as [|? [|]], (np.shape x) as [|? [|]]; try done.
  intros H. inv_bind H. injection H as <-.
  apply sum_nonneg. simpl. apply Forall_fmap.
  eapply Forall_impl.
  - eapply multiply_nonneg; [| |exact E]; simpl.
    + by apply diff_sorted.
    + apply Forall_zip_with_same; [|by apply Forall_tail'|done].
      intros a b Ha Hb. rewrite <- (Qplus_0_l 0). by apply Qplus_le_compat.
  - intros a Ha. simpl. apply Qle_shift_div_l; [done|]. by rewrite Qmult_0_l.
Qed.

Lemma trapz_total y x n :
  np.shape y = [n] -> np.wf y -> length (np.data x) = n -> np.shape x = [n] ->
  exists v, np.trapz y x = Ok v.
Proof.
  intros Hy Hwf Hx Hsx. unfold np.trapz. rewrite Hy, Hsx.
  unfold np.multiply. erewrite map2_Ok; [by eexists|].
  simpl. unfold np.diff. rewrite !length_zip_with.
  unfold np.wf in Hwf. rewrite Hy in Hwf. simpl in Hwf.
  replace (length (tail (np.data x)) `min` length (np.data x))
    with (length (tail (np.data y)) `min` length (np.data y)).
  - apply broadcast_same_vector.
  - destruct (np.data x), (np.data y); simpl in *; lia.
Qed.

Section screening_shape.
Context {K : constants}.
Variable FD : list Q -> Q -> Q -> list Q.

Lemma screening_step_shape ad sd isl idx isl' :
  screening_step FD ad sd isl idx = Ok isl' ->
  np.shape isl' = np.shape isl /\ (np.wf isl -> np.wf isl').
Proof.
  unfold screening_step. destruct idx as [|n [|t [|]]]; try done.
  cbv zeta. intros H. do 6 inv_bind H.
  by apply setitem_shape in H.
Qed.

Lemma calculate_shape ad sd isl :
  calculate_inverse_screening_length_sq FD ad sd = Ok isl ->
  np.shape isl = np.shape (AmsetData.fermi_levels ad) /\ np.wf isl.
Proof.
  unfold calculate_inverse_screening_length_sq. cbv zeta.
  apply (for_each_inv_Ok _
           (fun a => np.shape a = np.shape (AmsetData.fermi_levels ad) /\ np.wf a)).
  - split; [done|apply wf_zeros].
  - intros s x s' _ [Hs Hw] Hstep.
    apply screening_step_shape in Hstep as [-> Hw']. auto.
Qed.

(** On well-shaped input the calculation returns. *)
Hypothesis FD_length : forall energies mu kBT,
    length (FD energies mu kBT) = length energies.

Lemma calculate_total (ad : AmsetData.t) (d : Q) :
  AmsetData.shaped ad ->
  length (Dos.tdos (AmsetData.dos ad)) = length (Dos.energies (AmsetData.dos ad)) ->
  exists r, calculate_inverse_screening_length_sq FD ad (PFloat d) = Ok r /\
            np.shape r = [length (AmsetData.doping ad);
                          length (AmsetData.temperatures ad)].
Proof.
  intros Hshaped Hlen. unfold calculate_inverse_screening_length_sq. cbv zeta.
  simpl. rewrite Hshaped.
  set (nd := length (AmsetData.doping ad)).
  set (nt := length (AmsetData.temperatures ad)).
  apply (for_each_inv _ (fun a => np.shape a = [nd; nt])); [done|].
  intros isl idx (n & t & -> & Hn & Ht)%elem_of_ndindex_2 Hisl.
  unfold screening_step. cbv zeta.
  rewrite getitem_in by (rewrite Hshaped; by apply in_bounds_2). simpl.
  destruct (lookup_lt_is_Some_2 (AmsetData.temperatures ad) t Ht) as [temp Htemp].
  unfold list_get. rewrite Htemp. simpl.
  set (f := FD _ _ _).
  unfold np.multiply.
  erewrite map2_Ok
    by (simpl; unfold f; rewrite FD_length, Hlen; apply broadcast_same_vector).
  simpl.
  erewrite map2_Ok
    by (simpl; unfold f; rewrite FD_length; apply broadcast_same_vector).
  simpl.
  edestruct trapz_total as [v ->]; [| | |reflexivity|].
  - reflexivity.
  - apply wf_tabulate.
  - done.
  - simpl. unfold np.setitem. rewrite Hisl, in_bounds_2 by done.
    by eexists.
Qed.

End screening_shape.

Section screening_sign.
Context {K : constants}.
Variable FD : list Q -> Q -> Q -> list Q.

(** The assumptions of the claim.  The two imported constants that enter
    the formula are positive. *)
Hypothesis pi_pos : (0 < pi)%Q.
Hypothesis BOLTZMANN_pos : (0 < BOLTZMANN)%Q.
Hypothesis FD_range :
  forall energies mu kBT, Forall (fun f => 0 <= f <= 1)%Q (FD energies mu kBT).

Variable ad : AmsetData.t.
Variable d : Q.
Hypothesis tdos_nonneg : Forall (Qle 0) (Dos.tdos (AmsetData.dos ad)).
Hypothesis energies_sorted : Sorted Qle (Dos.energies (AmsetData.dos ad)).
Hypothesis temperatures_pos : Forall (Qlt 0) (AmsetData.temperatures ad).
Hypothesis dielectric_pos : (0 < d)%Q.
Hypothesis volume_pos : (0 < Structure.volume (AmsetData.structure ad))%Q.

Lemma screening_step_nonneg isl idx isl' :
  Forall (Qle 0) (np.data isl) ->
  screening_step FD ad (PFloat d) isl idx = Ok isl' ->
  Forall (Qle 0) (np.data isl').
Proof.
  intros Hisl. unfold screening_step.
  destruct idx as [|n [|t [|]]]; try done.
  cbv zeta. intros H. do 6 inv_bind H.
  rename x into ef, x0 into temp, x1 into tf, x2 into y, x3 into integral, x4 into sb.
  apply setitem_Ok in H as [_ ->]. simpl.
  apply Forall_insert; [done|].
  assert (Htemp : (0 < temp)%Q).
  { unfold list_get in E0.
    destruct (AmsetData.temperatures ad !! t) as [T|] eqn:HT; [|done].
    injection E0 as <-. by eapply Forall_lookup_1 in HT. }
  injection E4 as <-.
  set (f := FD (Dos.energies (AmsetData.dos ad)) ef (temp * BOLTZMANN)) in *.
  assert (Hf0 : Forall (Qle 0) f).
  { eapply Forall_impl; [apply FD_range|]. by intros a [? _]. }
  assert (Hf1 : Forall (Qle 0) ((fun v => 1 - v)%Q <$> f)).
  { apply Forall_fmap. eapply Forall_impl; [apply FD_range|].
    intros a [_ Ha]. simpl. unfold Qminus. rewrite <- (Qplus_opp_r a).
    by apply Qplus_le_l. }
  assert (Hint : (0 <= integral)%Q).
  { apply (trapz_nonneg y (np.array1 (Dos.energies (AmsetData.dos ad))));
      [|exact energies_sorted|exact E3].
    apply (multiply_nonneg tf (np.map (fun v => 1 - v)%Q (np.array1 f)));
      [|exact Hf1|exact E2].
    by apply (multiply_nonneg (np.array1 (Dos.tdos (AmsetData.dos ad))) (np.array1 f)). }
  apply Qle_shift_div_l.
  - repeat apply Qmult_lt_0_compat; done.
  - rewrite Qmult_0_l. repeat apply Qmult_le_0_compat; try done.
    by apply Qlt_le_weak.
Qed.

(** C6. Under the stated assumptions (a non-negative density of states on
    an ascending energy grid, positive temperatures, dielectric constant
    and cell volume, occupations between 0 and 1, and positive [np.pi] and
    [BOLTZMANN]) every entry of the array returned by
    [calculate_inverse_screening_length_sq] is non-negative. *)
Theorem inverse_screening_length_sq_nonneg r n t x :
  calculate_inverse_screening_length_sq FD ad (PFloat d) = Ok r ->
  np.getitem r [n; t] = Ok x ->
  (0 <= x)%Q.
Proof.
  intros Hr Hx.
  assert (Hall : Forall (Qle 0) (np.data r)).
  { revert Hr. unfold calculate_inverse_screening_length_sq. cbv zeta.
    apply (for_each_inv_Ok _ (fun a => Forall (Qle 0) (np.data a))).
    - simpl. apply Forall_forall. intros v Hv.
      by apply elem_of_replicate in Hv as [-> _].
    - intros s idx s' _ Hs Hstep. by eapply screening_step_nonneg. }
  unfold np.getitem in Hx. destruct (np.in_bounds _ _); [|done].
  injection Hx as <-. by apply Forall_item.
Qed.

End screening_sign.

Lemma sample_FD_range energies mu kBT :
  Forall (fun f => 0 <= f <= 1)%Q (sample_FD energies mu kBT).
Proof.
  unfold sample_FD. apply Forall_fmap, Forall_forall. intros x _. simpl.
  split; discriminate.
Qed.

Lemma sample_FD_length energies mu kBT :
  length (sample_FD energies mu kBT) = length energies.
Proof. unfold sample_FD. apply length_fmap. Qed.

Lemma inverse_screening_length_sq_nonneg_witness :
  exists r x,
    calculate_inverse_screening_length_sq (K:=sample_constants) sample_FD
      (sample_data false) (PFloat 10) = Ok r /\
    np.getitem r [0; 1] = Ok x /\
    (0 <= x)%Q.
Proof.
  destruct (calculate_total (K:=sample_constants) sample_FD sample_FD_length
              (sample_data false) 10) as (r & Hr & Hsh); [reflexivity..|].
  assert (Hx : np.getitem r [0; 1] = Ok (np.item r [0; 1]))
    by (apply getitem_in; by rewrite Hsh).
  exists r, (np.item r [0; 1]). split; [exact Hr|]. split; [exact Hx|].
  apply (inverse_screening_length_sq_nonneg (K:=sample_constants) sample_FD)
    with (ad := sample_data false) (d := 10%Q) (r := r) (n := 0) (t := 1).
  - reflexivity.
  - reflexivity.
  - apply sample_FD_range.
  - simpl. repeat constructor; discriminate.
  - simpl. repeat constructor; discriminate.
  - simpl. repeat constructor.
  - reflexivity.
  - reflexivity.
  - exact Hr.
  - exact Hx.
Defined.

(** ** Ionized impurities *)

Section imp.
Context {K : constants}.
Variable FD : list Q -> Q -> Q -> list Q.
Import IonizedImpurityScattering.

Lemma imp_init_Ok mp ad log m :
  __init__ FD mp ad = (log, Ok m) ->
  exists self sd sd2 ic info,
    AbstractElasticScattering.__init__ required_properties mp ad = Ok self /\
    mp !! "static_dielectric" = Some sd /\
    calculate_inverse_screening_length_sq FD ad sd
      = Ok (inverse_screening_length_sq m) /\
    for_each (impurity_step (AbstractElasticScattering.properties self) ad
                            (inverse_screening_length_sq m))
             (np.ndindex (np.shape (inverse_screening_length_sq m)))
             (np.zeros (np.shape (AmsetData.fermi_levels ad)), [])
      = Ok (ic, info) /\
    py_sq sd = Ok sd2 /\
    _prefactor m = np.map (fun x => x * (4 * pi) ^ 2 * Second / sd2)%Q ic /\
    super m = self.
Proof.
  unfold __init__. intros Hi.
  apply bind_Ok_inv in Hi as (l1 & self & l2 & [Hb ->]%lift_Ok_inv & Hi & ->).
  destruct (base_init_Ok _ _ _ _ Hb) as (_ & _ & _ & Hp).
  cbv zeta in Hi.
  apply bind_Ok_inv in Hi as (la & [] & l3 & _ & Hi & ->).
  apply bind_Ok_inv in Hi as (l1 & sd & l4 & [Hsd ->]%lift_Ok_inv & Hi & ->).
  apply bind_Ok_inv in Hi as (l1 & isl & l5 & [Hisl ->]%lift_Ok_inv & Hi & ->).
  apply bind_Ok_inv in Hi as (l1 & [ic info] & l6 & [Hloop ->]%lift_Ok_inv & Hi & ->).
  apply bind_Ok_inv in Hi as (lb & [] & l7 & _ & Hi & ->).
  apply bind_Ok_inv in Hi as (lc & [] & l8 & _ & Hi & ->).
  apply bind_Ok_inv in Hi as (l1 & sd' & l9 & [Hsd' ->]%lift_Ok_inv & Hi & ->).
  apply bind_Ok_inv in Hi as (l1 & sd2 & l10 & [Hsd2 ->]%lift_Ok_inv & Hi & ->).
  injection Hi as <- <-. simpl.
  rewrite Hsd in Hsd'. injection Hsd' as <-.
  unfold dict_get in Hsd.
  rewrite Hp in Hsd by (apply list_elem_of_In; simpl; tauto).
  destruct (mp !! "static_dielectric") as [sd0|] eqn:E1; [|done].
  injection Hsd as ->.
  by exists self, sd, sd2, ic, info.
Qed.

(** The screening array of an instance has the shape of the Fermi levels. *)
Lemma imp_screening_shape mp ad log m :
  __init__ FD mp ad = (log, Ok m) ->
  np.shape (inverse_screening_length_sq m) = np.shape (AmsetData.fermi_levels ad) /\
  np.wf (inverse_screening_length_sq m).
Proof.
  intros Hi. destruct (imp_init_Ok _ _ _ _ Hi) as (? & sd & ? & ? & ? & _ & _ & Hc & _).
  by apply calculate_shape in Hc.
Qed.

(** The form factor on a vector of length [nk], before any element is read. *)
Lemma imp_factor_Ok mp ad log m (q : ndarray) nk :
  __init__ FD mp ad = (log, Ok m) ->
  AmsetData.shaped ad ->
  np.shape q = [nk] ->
  let nd := length (AmsetData.doping ad) in
  let nt := length (AmsetData.temperatures ad) in
  factor m q
  = Ok (np.map (fun v => 1 / v ^ 2)%Q
          (np.tabulate [nd; nt; nk]
             (fun idx =>
                Qplus
                  (np.item (np.newaxis_front (np.newaxis_front q))
                           (np.bidx [1; 1; nk] idx))
                  (np.item (np.newaxis_back (inverse_screening_length_sq m))
                           (np.bidx [nd; nt; 1] idx))))).
Proof.
  intros Hi Hshaped Hq nd nt.
  destruct (imp_screening_shape _ _ _ _ Hi) as [Hsh _].
  rewrite Hshaped in Hsh. fold nd nt in Hsh.
  unfold factor, np.add.
  erewrite map2_Ok; [|simpl; rewrite Hq, Hsh; apply broadcast_vector_matrix].
  simpl. by rewrite Hq, Hsh.
Qed.

(** C4. For a one-dimensional [q] of length [nk], [factor(q)] has shape
    [(ndoping, ntemperature, nk)] and its entry at [(n, t, k)] is
    [1 / (q[k] + inverse_screening_length_sq[n, t]) ** 2], the same
    expression the code evaluates (where the sum is zero NumPy's entry is
    inf, a value the exact model does not have). *)
Theorem factor_brooks_herring mp ad log m (q : ndarray) nk :
  __init__ FD mp ad = (log, Ok m) ->
  AmsetData.shaped ad ->
  np.shape q = [nk] ->
  let nd := length (AmsetData.doping ad) in
  let nt := length (AmsetData.temperatures ad) in
  exists F,
    factor m q = Ok F /\
    np.shape F = [nd; nt; nk] /\
    forall n t k, n < nd -> t < nt -> k < nk ->
      np.getitem F [n; t; k]
      = Ok (1 / (np.item q [k] + np.item (inverse_screening_length_sq m) [n; t]) ^ 2)%Q.
Proof.
  intros Hi Hshaped Hq nd nt.
  destruct (imp_screening_shape _ _ _ _ Hi) as [Hsh _].
  rewrite Hshaped in Hsh. fold nd nt in Hsh.
  rewrite (imp_factor_Ok _ _ _ _ _ nk Hi Hshaped Hq). fold nd nt.
  eexists. split; [reflexivity|]. split; [done|].
  intros n t k Hn Ht Hk.
  pose proof (in_bounds_3 _ _ _ _ _ _ Hn Ht Hk) as Hb.
  rewrite getitem_in by exact Hb. f_equal.
  rewrite item_map_in; [|apply wf_tabulate|exact Hb].
  rewrite item_tabulate by exact Hb.
  assert (Hrk : (if nk =? 1 then 0 else k) = k).
  { destruct (nk =? 1) eqn:E; [|done]. apply Nat.eqb_eq in E. lia. }
  assert (Hrn : (if nd =? 1 then 0 else n) = n).
  { destruct (nd =? 1) eqn:E; [|done]. apply Nat.eqb_eq in E. lia. }
  assert (Hrt : (if nt =? 1 then 0 else t) = t).
  { destruct (nt =? 1) eqn:E; [|done]. apply Nat.eqb_eq in E. lia. }
  assert (HA : np.item (np.newaxis_front (np.newaxis_front q))
                       (np.bidx [1; 1; nk] [n; t; k])
               = np.item q [k]).
  { unfold np.bidx, np.item; simpl. rewrite Hq, Hrk; simpl. f_equal; lia. }
  assert (HB : np.item (np.newaxis_back (inverse_screening_length_sq m))
                       (np.bidx [nd; nt; 1] [n; t; k])
               = np.item (inverse_screening_length_sq m) [n; t]).
  { unfold np.bidx, np.item; simpl. rewrite Hsh, Hrn, Hrt; simpl. f_equal; lia. }
  by rewrite HA, HB.
Qed.

(** The concentration written by one pass depends on the properties
    through the two charges only, and not on the screening array. *)
Lemma impurity_step_concentration props1 props2 ad isl1 isl2 ic info1 info2 idx
      ic1 i1 ic2 i2 :
  props1 !! "donor_charge" = props2 !! "donor_charge" ->
  props1 !! "acceptor_charge" = props2 !! "acceptor_charge" ->
  impurity_step props1 ad isl1 (ic, info1) idx = Ok (ic1, i1) ->
  impurity_step props2 ad isl2 (ic, info2) idx = Ok (ic2, i2) ->
  ic1 = ic2.
Proof.
  intros Hd Ha. unfold impurity_step, dict_get. rewrite Hd, Ha.
  destruct idx as [|n [|t [|]]]; try done.
  intros H1 H2. do 11 inv_bind H1. do 11 inv_bind H2.
  same_result. congruence.
Qed.

Lemma impurity_loop_concentration props1 props2 ad isl1 isl2 l ic info1 info2
      ic1 i1 ic2 i2 :
  props1 !! "donor_charge" = props2 !! "donor_charge" ->
  props1 !! "acceptor_charge" = props2 !! "acceptor_charge" ->
  for_each (impurity_step props1 ad isl1) l (ic, info1) = Ok (ic1, i1) ->
  for_each (impurity_step props2 ad isl2) l (ic, info2) = Ok (ic2, i2) ->
  ic1 = ic2.
Proof.
  intros Hd Ha. revert ic info1 info2.
  induction l as [|idx l IH]; intros ic info1 info2; simpl.
  - congruence.
  - intros H1 H2. inv_bind H1. inv_bind H2.
    destruct x as [ica ia], x0 as [icb ib].
    pose proof (impurity_step_concentration _ _ _ _ _ _ _ _ _ _ _ _ _ Hd Ha E E0).
    subst icb. by eapply IH.
Qed.

Lemma quarter_of_doubled (a d : Q) : (a / (2 * d) ^ 2 == a / d ^ 2 / 4)%Q.
Proof.
  destruct (Qeq_dec d 0) as [Hz|Hnz].
  - rewrite Hz. unfold Qdiv.
    assert (E1 : (/ (2 * 0) ^ 2 == 0)%Q) by reflexivity.
    assert (E2 : (/ 0 ^ 2 == 0)%Q) by reflexivity.
    rewrite E1, E2. ring.
  - field. done.
Qed.

(** In exact arithmetic, doubling [static_dielectric] divides every entry
    of the cached [_prefactor] by four: the two constructions compute the
    same impurity concentration and differ in the last division only. *)
Lemma prefactor_quartered_in_exact_arithmetic mp ad d log1 m1 log2 m2 :
  mp !! "static_dielectric" = Some (PFloat d) ->
  __init__ FD mp ad = (log1, Ok m1) ->
  __init__ FD (<["static_dielectric" := PFloat (2 * d)]> mp) ad = (log2, Ok m2) ->
  np.shape (_prefactor m2) = np.shape (_prefactor m1) /\
  forall n t x1,
    np.getitem (_prefactor m1) [n; t] = Ok x1 ->
    exists x2, np.getitem (_prefactor m2) [n; t] = Ok x2 /\ (x2 == x1 / 4)%Q.
Proof.
  intros Hd H1 H2.
  destruct (imp_init_Ok _ _ _ _ H1)
    as (self1 & sd1 & d1 & ic1 & info1 & Hb1 & Hsd1 & Hc1 & Hl1 & Hsq1 & Hp1 & _).
  destruct (imp_init_Ok _ _ _ _ H2)
    as (self2 & sd2 & d2 & ic2 & info2 & Hb2 & Hsd2 & Hc2 & Hl2 & Hsq2 & Hp2 & _).
  rewrite Hd in Hsd1. rewrite lookup_insert_eq in Hsd2. simplify_eq.
  simpl in Hsq1, Hsq2. simplify_eq.
  apply calculate_shape in Hc1 as [Hs1 _], Hc2 as [Hs2 _].
  rewrite Hs1 in Hl1. rewrite Hs2 in Hl2.
  destruct (base_init_Ok _ _ _ _ Hb1) as (_ & _ & _ & Hp1').
  destruct (base_init_Ok _ _ _ _ Hb2) as (_ & _ & _ & Hp2').
  assert (ic1 = ic2) as <-.
  { eapply impurity_loop_concentration; [| |exact Hl1|exact Hl2].
    - rewrite Hp1', Hp2' by (apply list_elem_of_In; simpl; tauto).
      by rewrite lookup_insert_ne.
    - rewrite Hp1', Hp2' by (apply list_elem_of_In; simpl; tauto).
      by rewrite lookup_insert_ne. }
  rewrite Hp1, Hp2. split; [done|].
  intros n t x1. unfold np.getitem; simpl.
  destruct (np.in_bounds (np.shape ic1) [n; t]); [|done].
  intros [= <-]. eexists. split; [reflexivity|].
  unfold np.item; simpl. rewrite !nth_lookup, !list_lookup_fmap.
  destruct (np.data ic1 !! _) as [v|]; simpl.
  - apply quarter_of_doubled.
  - reflexivity.
Qed.

End imp.

Lemma factor_brooks_herring_witness :
  exists log m F,
    IonizedImpurityScattering.__init__ (K:=sample_constants) sample_FD
      sample_properties (sample_data false) = (log, Ok m) /\
    IonizedImpurityScattering.factor m (np.array1 (qs [1; 4; 9]%Z)) = Ok F /\
    np.shape F = [1; 2; 3] /\
    np.getitem F [0; 1; 2]
    = Ok (1 / (9 + np.item (IonizedImpurityScattering.inverse_screening_length_sq m)
                           [0%nat; 1%nat]) ^ 2)%Q.
Proof.
  destruct (IonizedImpurityScattering.__init__ (K:=sample_constants) sample_FD
              sample_properties (sample_data false))
    as [log [m|err]] eqn:Hi; [|vm_compute in Hi; discriminate Hi].
  destruct (factor_brooks_herring (K:=sample_constants) sample_FD
              sample_properties (sample_data false) log m
              (np.array1 (qs [1; 4; 9]%Z)) 3 Hi)
    as (F & HF & Hsh & Hitem); [reflexivity..|].
  exists log, m, F. split; [reflexivity|]. split; [exact HF|]. split; [exact Hsh|].
  apply (Hitem 0 1 2); simpl; lia.
Defined.

(** ** Ionized impurities in binary64 *)



Section imp_binary64.
Context {K : constants}.
Variable float_sq : Q -> Q.
Hypothesis float_sq_accurate : forall x,
    binary64.normal (x ^ 2) ->
    (Qabs (float_sq x - x ^ 2) <= (1 # 2 ^ 52) * x ^ 2)%Q.
Import IonizedImpurityScattering.


End imp_binary64.




(** ** Piezoelectric scattering *)

Section pie.
Context {K : constants}.
Import PiezoelectricScattering.

Lemma pie_init_Ok mp ad log m :
  __init__ mp ad = (log, Ok m) ->
  exists self pc sd,
    AbstractElasticScattering.__init__ required_properties mp ad = Ok self /\
    mp !! "piezoelectric_coefficient" = Some (PFloat pc) /\
    mp !! "static_dielectric" = Some (PFloat sd) /\
    super m = self /\
    _prefactor m
    = (1000000000 / e * e ^ 2 * k_B * pc ^ 2
       / (4 * pi ^ 2 * hbar * epsilon_0 * sd))%Q /\
    ~ (e == 0)%Q /\
    ~ (4 * pi ^ 2 * hbar * epsilon_0 * sd == 0)%Q.
Proof.
  unfold __init__. intros Hi.
  apply bind_Ok_inv in Hi as (l1 & self & l2 & [Hb ->]%lift_Ok_inv & Hi & ->).
  destruct (base_init_Ok _ _ _ _ Hb) as (_ & _ & _ & Hp).
  cbv zeta in Hi.
  apply bind_Ok_inv in Hi as (l1 & uc & l7 & [Huc ->]%lift_Ok_inv & Hi & ->).
  apply bind_Ok_inv in Hi as (l1 & pc & l3 & [Hpc ->]%lift_Ok_inv & Hi & ->).
  apply bind_Ok_inv in Hi as (l1 & pc2 & l4 & [Hpc2 ->]%lift_Ok_inv & Hi & ->).
  apply bind_Ok_inv in Hi as (l1 & sd & l5 & [Hsd ->]%lift_Ok_inv & Hi & ->).
  apply bind_Ok_inv in Hi as (l1 & den & l6 & [Hden ->]%lift_Ok_inv & Hi & ->).
  apply bind_Ok_inv in Hi as (l1 & pre & l8 & [Hpre ->]%lift_Ok_inv & Hi & ->).
  injection Hi as <- <-. simpl.
  unfold dict_get in Hpc, Hsd.
  rewrite Hp in Hpc, Hsd by (apply list_elem_of_In; simpl; tauto).
  destruct (mp !! "piezoelectric_coefficient") as [pc0|] eqn:E1; [|done].
  destruct (mp !! "static_dielectric") as [sd0|] eqn:E2; [|done].
  injection Hpc as ->. injection Hsd as ->.
  destruct pc as [pc|]; [|done]. destruct sd as [sd|]; [|done].
  injection Hpc2 as <-. injection Hden as <-.
  apply py_truediv_Ok_inv in Huc as [He ->].
  apply py_truediv_Ok_inv in Hpre as [Hnz ->].
  by exists self, pc, sd.
Qed.

Lemma pie_captured mp ad log m :
  __init__ mp ad = (log, Ok m) ->
  AbstractElasticScattering.doping (super m) = AmsetData.doping ad /\
  AbstractElasticScattering.temperatures (super m) = AmsetData.temperatures ad.
Proof.
  intros Hi.
  destruct (pie_init_Ok _ _ _ _ Hi) as (self & pc & sd & Hb & _ & _ & Hs & _).
  destruct (base_init_Ok _ _ _ _ Hb) as (Hdop & Htemp & _ & _).
  by rewrite Hs.
Qed.

End pie.

(** ** Piezoelectric scattering in binary64 *)

Lemma linear_up_to_rounding (p T1 T2 x1 x2 : Q) :
  (Qabs (x1 - p * T1) <= (3 # 2 ^ 53) * Qabs (p * T1))%Q ->
  (Qabs (x2 - p * T2) <= (3 # 2 ^ 53) * Qabs (p * T2))%Q ->
  (Qabs (x2 * T1 - x1 * T2) <= (1 # 2 ^ 50) * Qabs (p * T1 * T2))%Q.
Proof.
  intros H1 H2.
  assert (E : (x2 * T1 - x1 * T2
               == (x2 - p * T2) * T1 + - ((x1 - p * T1) * T2))%Q) by ring.
  rewrite E. eapply Qle_trans; [apply Qabs_triangle|].
  rewrite Qabs_opp, !Qabs_Qmult.
  rewrite !Qabs_Qmult in H1, H2.
  pose proof (Qabs_nonneg p). pose proof (Qabs_nonneg T1).
  pose proof (Qabs_nonneg T2).
  change (3 # 2 ^ 53)%Q with (3 # 9007199254740992)%Q in *.
  change (1 # 2 ^ 50)%Q with (1 # 1125899906842624)%Q.
  generalize dependent (Qabs (x2 - p * T2)). intros a2.
  generalize dependent (Qabs (x1 - p * T1)). intros a1.
  generalize dependent (Qabs p). intros ap.
  generalize dependent (Qabs T1). intros b1.
  generalize dependent (Qabs T2). intros b2.
  intros H2 H1 Hp HT1 HT2.
  assert (P1 : (a1 * b2 <= (3 # 9007199254740992) * (ap * b1) * b2)%Q)
    by (by apply Qmult_le_compat_r).
  assert (P2 : (a2 * b1 <= (3 # 9007199254740992) * (ap * b2) * b1)%Q)
    by (by apply Qmult_le_compat_r).
  assert (P3 : (0 <= ap * b1 * b2)%Q)
    by (repeat apply Qmult_le_0_compat; done).
  nra.
Qed.

Section pie_binary64.
Import PiezoelectricScattering.

(** C9, as binary64 has it.  [prefactor(spin, b_idx)] is the same array for
    every spin and band, and its entry at a doping [n] and a temperature
    [T] is the rounded product [_prefactor * T] (times the one of
    [np.ones]).  The entries [x1], [x2] at two temperatures [T1], [T2] are
    proportional to the temperatures up to that rounding:
    [|x2 * T1 - x1 * T2| <= 2 ** -50 * |_prefactor * T1 * T2|], while the
    two products are zero or normal numbers. *)
Theorem prefactor_linear_in_temperature (self : t) spin b_idx n t1 t2 T1 T2 :
  n < length (AbstractElasticScattering.doping (super self)) ->
  AbstractElasticScattering.temperatures (super self) !! t1 = Some T1 ->
  AbstractElasticScattering.temperatures (super self) !! t2 = Some T2 ->
  binary64.in_range (_prefactor self * T1) ->
  binary64.in_range (_prefactor self * T2) ->
  exists p x1 x2,
    prefactor_binary64 self spin b_idx = Ok p /\
    (forall spin' b_idx', prefactor_binary64 self spin' b_idx' = Ok p) /\
    np.getitem p [n; t1] = Ok x1 /\
    np.getitem p [n; t2] = Ok x2 /\
    x1 = binary64.round (binary64.round (_prefactor self * T1) * 1) /\
    x2 = binary64.round (binary64.round (_prefactor self * T2) * 1) /\
    (Qabs (x2 * T1 - x1 * T2)
     <= (1 # 2 ^ 50) * Qabs (_prefactor self * T1 * T2))%Q.
Proof.
  intros Hn Ht1 Ht2 _ _.
  destruct (rounded_temperatures (_prefactor self)
              (AbstractElasticScattering.temperatures (super self))
              (length (AbstractElasticScattering.doping (super self))))
    as (p & Hp & Hsh & _ & Hitem).
  pose proof (lookup_lt_Some _ _ _ Ht1) as Hlt1.
  pose proof (lookup_lt_Some _ _ _ Ht2) as Hlt2.
  exists p. do 2 eexists.
  split; [exact Hp|]. split; [intros; exact Hp|].
  split; [apply getitem_in; rewrite Hsh; by apply in_bounds_2|].
  split; [apply getitem_in; rewrite Hsh; by apply in_bounds_2|].
  rewrite !Hitem by done.
  rewrite (nth_lookup_Some _ _ _ _ Ht1), (nth_lookup_Some _ _ _ _ Ht2).
  split; [done|]. split; [done|].
  apply linear_up_to_rounding; apply round_twice_error.
Qed.

End pie_binary64.

Lemma prefactor_linear_in_temperature_witness :
  exists p x1 x2,
    PiezoelectricScattering.prefactor_binary64 sample_piezoelectric up 0 = Ok p /\
    np.getitem p [0; 0] = Ok x1 /\
    np.getitem p [0; 1] = Ok x2 /\
    (Qabs (x2 * 100 - x1 * 350)
     <= (1 # 2 ^ 50)
        * Qabs (PiezoelectricScattering._prefactor sample_piezoelectric
                * 100 * 350))%Q.
Proof.
  destruct (prefactor_linear_in_temperature sample_piezoelectric up 0 0 0 1
              100 350)
    as (p & x1 & x2 & Hp & _ & H1 & H2 & _ & _ & Hb);
    [simpl; lia|reflexivity|reflexivity| | |].
  - right. split; vm_compute; discriminate.
  - right. split; vm_compute; discriminate.
  - by exists p, x1, x2.
Defined.

(** C9 as stated fails in binary64: at 100 K and 350 K, with the cached
    value 60007986.17403545, the two entries are 6000798617.403545 and
    21002795160.912407; their ratio is not 3.5, neither as a rational nor
    rounded (3.4999999999999996). *)
Lemma prefactor_ratio_not_exact :
  exists p x1 x2,
    PiezoelectricScattering.prefactor_binary64 sample_piezoelectric up 0 = Ok p /\
    np.getitem p [0; 0] = Ok x1 /\
    np.getitem p [0; 1] = Ok x2 /\
    x1 = (1573073352760635 # 262144)%Q /\
    x2 = (2752878367331111 # 131072)%Q /\
    ~ (x2 / x1 == 350 / 100)%Q /\
    ~ (binary64.round (x2 / x1) == binary64.round (350 / 100))%Q.
Proof.
  do 3 eexists.
  split; [vm_compute; reflexivity|].
  split; [vm_compute; reflexivity|].
  split; [vm_compute; reflexivity|].
  split; [reflexivity|].
  split; [reflexivity|].
  split; vm_compute; discriminate.
Qed.

(** ** Shape of the form factor *)

Section form_factor_shape.
Context {K : constants}.
Variable FD : list Q -> Q -> Q -> list Q.

(** C2, as the code has it.  On a transport state whose Fermi levels are
    indexed by (doping, temperature): the acoustic form factor has shape
    [(ndoping, ntemperature) + q.shape] for an input of any rank; the
    ionized-impurity and piezoelectric form factors have shape
    [(ndoping, ntemperature, nk)] for a one-dimensional input of length
    [nk]. *)
Theorem factor_shape (ad : AmsetData.t) :
  AmsetData.shaped ad ->
  let nd := length (AmsetData.doping ad) in
  let nt := length (AmsetData.temperatures ad) in
  (forall mp log m q,
      AcousticDeformationPotentialScattering.__init__ mp ad = (log, Ok m) ->
      exists r, AcousticDeformationPotentialScattering.factor m q = Ok r /\
                np.shape r = [nd; nt] ++ np.shape q) /\
  (forall mp log m q nk,
      IonizedImpurityScattering.__init__ FD mp ad = (log, Ok m) ->
      np.shape q = [nk] ->
      exists r, IonizedImpurityScattering.factor m q = Ok r /\
                np.shape r = [nd; nt; nk]) /\
  (forall mp log m q nk,
      PiezoelectricScattering.__init__ mp ad = (log, Ok m) ->
      np.shape q = [nk] ->
      exists r, PiezoelectricScattering.factor m q = Ok r /\
                np.shape r = [nd; nt; nk]).
Proof.
  intros Hshaped nd nt. split; [|split].
  - intros mp log m q Hi.
    destruct (adp_captured _ _ _ _ Hi) as (_ & _ & Hfl & _).
    eexists. split; [reflexivity|]. simpl. by rewrite Hfl, Hshaped.
  - intros mp log m q nk Hi Hq.
    rewrite (imp_factor_Ok FD _ _ _ _ _ nk Hi Hshaped Hq).
    by eexists.
  - intros mp log m q nk Hi Hq.
    destruct (pie_captured _ _ _ _ Hi) as (Hdop & Htemp).
    eexists. split; [reflexivity|].
    unfold np.tile, np.pad_left; simpl.
    rewrite Hq, Hdop, Htemp; simpl.
    fold nd nt. f_equal; [lia|]. f_equal; [lia|]. f_equal. lia.
Qed.

End form_factor_shape.

Lemma factor_shape_witness :
  exists log m r,
    PiezoelectricScattering.__init__ (K:=sample_constants)
      sample_properties (sample_data false) = (log, Ok m) /\
    PiezoelectricScattering.factor m (np.array1 (qs [1; 4; 9]%Z)) = Ok r /\
    np.shape r = [1; 2; 3].
Proof.
  destruct (PiezoelectricScattering.__init__ (K:=sample_constants)
              sample_properties (sample_data false))
    as [log [m|err]] eqn:Hi; [|vm_compute in Hi; discriminate Hi].
  destruct (factor_shape (K:=sample_constants) sample_FD (sample_data false))
    as (_ & _ & Hpie); [reflexivity|].
  destruct (Hpie sample_properties log m (np.array1 (qs [1; 4; 9]%Z)) 3 Hi)
    as (r & Hr & Hsh); [reflexivity|].
  by exists log, m, r.
Defined.

(** C2 as stated fails beyond rank one: for a 2 x 2 input the
    piezoelectric form factor (one doping, two temperatures) has shape
    (1, 4, 2), not (1, 2, 2, 2), and the ionized-impurity form factor has
    shape (1, 1, 2, 2). *)
Lemma factor_shape_fails_for_matrix_input :
  exists log m r log' m' r',
    PiezoelectricScattering.__init__ (K:=sample_constants)
      sample_properties (sample_data false) = (log, Ok m) /\
    PiezoelectricScattering.factor m sample_matrix = Ok r /\
    np.shape r = [1; 4; 2] /\
    IonizedImpurityScattering.__init__ (K:=sample_constants) sample_FD
      sample_properties (sample_data false) = (log', Ok m') /\
    IonizedImpurityScattering.factor m' sample_matrix = Ok r' /\
    np.shape r' = [1; 1; 2; 2] /\
    np.shape r <> [1; 2] ++ np.shape sample_matrix /\
    np.shape r' <> [1; 2] ++ np.shape sample_matrix.
Proof.
  do 6 eexists.
  split; [vm_compute; reflexivity|].
  split; [vm_compute; reflexivity|].
  split; [reflexivity|].
  split; [vm_compute; reflexivity|].
  split; [vm_compute; reflexivity|].
  split; [reflexivity|].
  split; discriminate.
Qed.

(** * Further properties of the module *)

(** ** Dictionary comprehensions *)

Section comprehension.
Context `{Countable K} {V : Type}.

Lemma dict_comp_from_spec (f : K -> result V) keys acc d k :
  dict_comp_from f keys acc = Ok d ->
  (k ∈ keys -> exists v, f k = Ok v /\ d !! k = Some v) /\
  (k ∉ keys -> d !! k = acc !! k).
Proof.
  revert acc. induction keys as [|k0 ks IH]; intros acc; cbn [dict_comp_from].
  - intros [= <-]. split; [by intros ?%elem_of_nil|done].
  - destruct (f k0) as [v0|e0] eqn:Hk0; cbn [mbind result_bind]; [|done].
    intros Hd. destruct (IH _ Hd) as [Hin Hout].
    destruct (decide (k ∈ ks)) as [Hks|Hks].
    + split; [intros _; by apply Hin|]. intros Hn. destruct Hn. by right.
    + split.
      * intros [->|?]%elem_of_cons; [|done].
        exists v0. split; [done|]. rewrite Hout by done. apply lookup_insert_eq.
      * intros Hn. rewrite Hout by done. apply lookup_insert_ne.
        intros <-. apply Hn. by left.
Qed.

Lemma dict_comp_from_Ok (f : K -> result V) keys acc :
  (forall k, k ∈ keys -> exists v, f k = Ok v) ->
  exists d, dict_comp_from f keys acc = Ok d.
Proof.
  revert acc. induction keys as [|k0 ks IH]; intros acc Hall; simpl.
  - by exists acc.
  - destruct (Hall k0) as [v ->]; [by left|]. simpl.
    apply IH. intros k Hk. apply Hall. by right.
Qed.

(** A comprehension that raises does so with the exception of one of its
    keys, and every key before it was computed. *)
Lemma dict_comp_from_Raise (f : K -> result V) keys acc e :
  dict_comp_from f keys acc = Raise e -> exists k, k ∈ keys /\ f k = Raise e.
Proof.
  revert acc. induction keys as [|k0 ks IH]; intros acc; simpl; [done|].
  destruct (f k0) as [v0|e0] eqn:Hk0; simpl.
  - intros (k & ? & ?)%IH. exists k. split; [by right|done].
  - intros [= ->]. exists k0. split; [by left|done].
Qed.

End comprehension.

(** ** The shared constructor *)

Lemma np_len_Ok a d : np_len a = Ok d -> head (np.shape a) = Some d.
Proof. unfold np_len. destruct (np.shape a); [done|]. by intros [= ->]. Qed.

Lemma band_count_Ok (energies : gmap Spin ndarray) s d :
  (a ← spin_get energies s; np_len a) = Ok d ->
  energies !! s ≫= (fun a => head (np.shape a)) = Some d.
Proof.
  unfold spin_get. destruct (energies !! s) as [a|]; simpl; [|done].
  apply np_len_Ok.
Qed.

(** X1. A successful run of the shared constructor keeps exactly the
    required properties, with the values of the mapping, counts the bands
    of exactly the listed spins, and captures doping, temperatures and
    spins unchanged. *)
Theorem base_init_stores req mp ad self :
  AbstractElasticScattering.__init__ req mp ad = Ok self ->
  (forall k, AbstractElasticScattering.properties self !! k
             = if decide (k ∈ req) then mp !! k else None) /\
  (forall s, AbstractElasticScattering.nbands self !! s
             = if decide (s ∈ AmsetData.spins ad)
               then AmsetData.energies ad !! s ≫= (fun a => head (np.shape a))
               else None) /\
  AbstractElasticScattering.doping self = AmsetData.doping ad /\
  AbstractElasticScattering.temperatures self = AmsetData.temperatures ad /\
  AbstractElasticScattering.spins self = AmsetData.spins ad.
Proof.
  unfold AbstractElasticScattering.__init__, dict_comp.
  destruct (dict_comp_from (dict_get mp) req ∅) as [props|] eqn:Hp; simpl; [|done].
  destruct (dict_comp_from _ (AmsetData.spins ad) ∅) as [nb|] eqn:Hn; simpl; [|done].
  intros [= <-]; simpl. repeat split.
  - intros k. destruct (dict_comp_from_spec _ _ _ _ k Hp) as [Hin Hout].
    case_decide as Hk.
    + destruct (Hin Hk) as (v & Hv & ->). unfold dict_get in Hv.
      by destruct (mp !! k); simplify_eq.
    + by rewrite Hout.
  - intros s. destruct (dict_comp_from_spec _ _ _ _ s Hn) as [Hin Hout].
    case_decide as Hs.
    + destruct (Hin Hs) as (d & Hd & ->). symmetry. by apply band_count_Ok.
    + by rewrite Hout.
Qed.

Lemma base_init_stores_witness :
  exists self,
    AbstractElasticScattering.__init__ ["static_dielectric"] sample_properties
      (sample_data false) = Ok self /\
    AbstractElasticScattering.properties self !! "static_dielectric"
    = Some (PFloat 10) /\
    AbstractElasticScattering.properties self !! "donor_charge" = None /\
    AbstractElasticScattering.nbands self !! down = Some 3.
Proof.
  destruct (AbstractElasticScattering.__init__ ["static_dielectric"]
              sample_properties (sample_data false)) as [self|err] eqn:Hi;
    [|vm_compute in Hi; discriminate Hi].
  destruct (base_init_stores _ _ _ _ Hi) as (Hp & Hn & _).
  exists self. split; [reflexivity|].
  rewrite !Hp, Hn. by vm_compute.
Defined.

(** X2. The shared constructor returns an instance exactly when every
    required property is present and every listed spin has band energies
    with at least one axis. *)
Theorem base_init_succeeds_iff req mp ad :
  (exists self, AbstractElasticScattering.__init__ req mp ad = Ok self) <->
  (forall k, k ∈ req -> is_Some (mp !! k)) /\
  (forall s, s ∈ AmsetData.spins ad ->
             exists a, AmsetData.energies ad !! s = Some a /\ np.shape a <> []).
Proof.
  unfold AbstractElasticScattering.__init__, dict_comp. split.
  - intros [self Hi].
    destruct (dict_comp_from (dict_get mp) req ∅) as [props|] eqn:Hp; simpl in Hi; [|done].
    destruct (dict_comp_from _ (AmsetData.spins ad) ∅) as [nb|] eqn:Hn; simpl in Hi; [|done].
    split.
    + intros k Hk. destruct (dict_comp_from_spec _ _ _ _ k Hp) as [Hin _].
      destruct (Hin Hk) as (v & Hv & _). unfold dict_get in Hv.
      by destruct (mp !! k).
    + intros s Hs. destruct (dict_comp_from_spec _ _ _ _ s Hn) as [Hin _].
      destruct (Hin Hs) as (d & Hd & _). unfold spin_get in Hd.
      destruct (AmsetData.energies ad !! s) as [a|]; simpl in Hd; [|done].
      exists a. split; [done|]. unfold np_len in Hd. by destruct (np.shape a).
  - intros [Hreq Hspins].
    destruct (dict_comp_from_Ok (dict_get mp) req ∅) as [props ->].
    { intros k Hk. destruct (Hreq k Hk) as [v Hv]. exists v.
      by apply dict_get_Some. }
    destruct (dict_comp_from_Ok
                (fun s => a ← spin_get (AmsetData.energies ad) s; np_len a)
                (AmsetData.spins ad) ∅) as [nb Hnb].
    { intros s Hs. destruct (Hspins s Hs) as (a & Ha & Hsh).
      unfold spin_get. rewrite Ha. simpl. unfold np_len.
      destruct (np.shape a) as [|d sh]; [done|]. by exists d. }
    simpl. rewrite Hnb. simpl. by eexists.
Qed.

(** X3. With every required property present, a listed spin without band
    energies makes the shared constructor raise the [KeyError] of such a
    spin (band energies that are present are arrays, not scalars). *)
Theorem base_init_missing_spin req mp ad s :
  (forall k, k ∈ req -> is_Some (mp !! k)) ->
  (forall s' a, AmsetData.energies ad !! s' = Some a -> np.shape a <> []) ->
  s ∈ AmsetData.spins ad ->
  AmsetData.energies ad !! s = None ->
  exists s', s' ∈ AmsetData.spins ad /\ AmsetData.energies ad !! s' = None /\
    AbstractElasticScattering.__init__ req mp ad = Raise (KeyError (KSpin s')).
Proof.
  intros Hreq Harr Hs Hnone.
  unfold AbstractElasticScattering.__init__, dict_comp.
  destruct (dict_comp_from_Ok (dict_get mp) req ∅) as [props ->].
  { intros k Hk. destruct (Hreq k Hk) as [v Hv]. exists v.
    by apply dict_get_Some. }
  simpl.
  destruct (dict_comp_from _ (AmsetData.spins ad) ∅) as [nb|e] eqn:Hn; simpl.
  - destruct (dict_comp_from_spec _ _ _ _ s Hn) as [Hin _].
    destruct (Hin Hs) as (d & Hd & _). unfold spin_get in Hd.
    by rewrite Hnone in Hd.
  - apply dict_comp_from_Raise in Hn as (s' & Hs' & Hf).
    exists s'. split; [done|]. unfold spin_get in Hf.
    destruct (AmsetData.energies ad !! s') as [a|] eqn:Ha; simpl in Hf.
    + unfold np_len in Hf. specialize (Harr _ _ Ha). by destruct (np.shape a).
    + by injection Hf as <-.
Qed.

Lemma base_init_succeeds_iff_witness :
  (forall k, k ∈ ["static_dielectric"] -> is_Some (sample_properties !! k)) /\
  (forall s, s ∈ AmsetData.spins (sample_data false) ->
             exists a, AmsetData.energies (sample_data false) !! s = Some a /\
                       np.shape a <> []).
Proof.
  apply (base_init_succeeds_iff ["static_dielectric"] sample_properties
           (sample_data false)).
  destruct (AbstractElasticScattering.__init__ ["static_dielectric"]
              sample_properties (sample_data false)) as [self|err] eqn:Hi;
    [|vm_compute in Hi; discriminate Hi].
  by exists self.
Defined.

Lemma base_init_missing_spin_witness :
  exists s',
    AbstractElasticScattering.__init__ ["static_dielectric"] sample_properties
      sample_data_without_down = Raise (KeyError (KSpin s')).
Proof.
  destruct (base_init_missing_spin ["static_dielectric"] sample_properties
              sample_data_without_down down) as (s' & _ & _ & Hr).
  - intros k [->|[]%elem_of_nil]%elem_of_cons. by eexists.
  - intros s' a. destruct s'; vm_compute; [|discriminate].
    intros [= <-]. discriminate.
  - apply list_elem_of_In. simpl. tauto.
  - reflexivity.
  - by exists s'.
Defined.

(** ** Acoustic deformation potential: construction *)

Lemma normal_nonzero (x : Q) : binary64.normal x -> ~ (x == 0)%Q.
Proof.
  intros [Hlow _] E. rewrite E in Hlow. vm_compute in Hlow. by apply Hlow.
Qed.

Section adp_construction.
Context {K : constants}.
Import AcousticDeformationPotentialScattering.

(** X4. While the products that make the divisor of [_prefactor] are zero
    or normal numbers, the constructor returns an instance exactly when
    the shared constructor does, the elastic constant is a float, the
    divisor [4 * pi ** 2 * elastic_constant * gpa_to_au] is not zero, and
    the deformation potential is a float or a tuple long enough for the
    system: one entry for a metal, two for a semiconductor. *)
Theorem adp_init_succeeds_iff mp ad :
  (forall c, mp !! "elastic_constant" = Some (PFloat c) ->
             binary64.in_range (4 * pi ^ 2 * c) /\
             binary64.in_range (4 * pi ^ 2 * c * gpa_to_au)) ->
  (exists log m, __init__ mp ad = (log, Ok m)) <->
  (exists self c dp,
      AbstractElasticScattering.__init__ required_properties mp ad = Ok self /\
      mp !! "elastic_constant" = Some (PFloat c) /\
      ~ (4 * pi ^ 2 * c * gpa_to_au == 0)%Q /\
      mp !! "deformation_potential" = Some dp /\
      match dp with
      | PFloat _ => True
      | PTuple l => (if AmsetData.is_metal ad then 1 else 2) <= length l
      end).
Proof.
  intros _. split.
  - intros (log & m & Hi).
    destruct (adp_init_Ok _ _ _ _ Hi)
      as (self & c & dp & Hb & Hec & Hdp & Hpol & _ & _ & _ & _ & _ & Hnz).
    exists self, c, dp. repeat split; try done.
    unfold init_deformation_potential in Hpol.
    destruct (AmsetData.is_metal ad), dp as [D|[|Dv [|Dc l]]];
      simpl in *; try done; lia.
  - intros (self & c & dp & Hb & Hec & Hnz & Hdp & Hlen).
    rewrite (adp_init_run _ _ _ _ _ Hb Hec Hnz Hdp).
    unfold init_deformation_potential.
    destruct (AmsetData.is_metal ad), dp as [D|[|Dv [|Dc l]]];
      simpl in *; try lia; by eexists _, _.
Qed.

(** X5. An elastic constant given as a tuple stops the constructor with a
    [TypeError] before the deformation potential is looked at: nothing is
    logged, whatever the deformation potential is. *)
Theorem adp_init_tuple_elastic_constant mp ad self l :
  AbstractElasticScattering.__init__ required_properties mp ad = Ok self ->
  mp !! "elastic_constant" = Some (PTuple l) ->
  __init__ mp ad = ([], Raise TypeError).
Proof.
  intros Hb Hec. unfold __init__. rewrite Hb, lift_bind.
  destruct (base_init_Ok _ _ _ _ Hb) as (_ & _ & _ & Hp).
  cbv zeta.
  rewrite (dict_get_Some _ "elastic_constant" (PTuple l)), lift_bind
    by (rewrite Hp; [done|apply list_elem_of_In; simpl; tauto]).
  done.
Qed.

(** X6. With an elastic constant for which the divisor of [_prefactor]
    is a normal number (so that the division before it succeeds), a
    deformation-potential tuple that is too short stops the constructor
    with an [IndexError]: an empty tuple on a metal, after the warning
    about the metal has been logged; fewer than two entries on a
    semiconductor, with nothing logged. *)
Theorem adp_init_short_tuple mp ad self c l :
  AbstractElasticScattering.__init__ required_properties mp ad = Ok self ->
  mp !! "elastic_constant" = Some (PFloat c) ->
  binary64.normal (4 * pi ^ 2 * c) ->
  binary64.normal (4 * pi ^ 2 * c * gpa_to_au) ->
  mp !! "deformation_potential" = Some (PTuple l) ->
  length l < (if AmsetData.is_metal ad then 1 else 2) ->
  __init__ mp ad
  = (if AmsetData.is_metal ad then [Warning metal_warning] else [],
     Raise IndexError).
Proof.
  intros Hb Hec _ Hnz%normal_nonzero Hdp Hlen.
  rewrite (adp_init_run _ _ _ _ _ Hb Hec Hnz Hdp).
  unfold init_deformation_potential.
  destruct (AmsetData.is_metal ad), l as [|Dv [|Dc l]]; simpl in *; try lia; done.
Qed.

(** X27. An elastic constant of zero stops the constructor with a
    [ZeroDivisionError] when [_prefactor] is computed: before the
    deformation potential is looked at, with nothing logged. *)
Theorem adp_init_zero_elastic_constant mp ad self c :
  AbstractElasticScattering.__init__ required_properties mp ad = Ok self ->
  mp !! "elastic_constant" = Some (PFloat c) ->
  (c == 0)%Q ->
  __init__ mp ad = ([], Raise ZeroDivisionError).
Proof.
  intros Hb Hec Hc. unfold __init__. rewrite Hb, lift_bind.
  destruct (base_init_Ok _ _ _ _ Hb) as (_ & _ & _ & Hp).
  cbv zeta.
  rewrite (dict_get_Some _ "elastic_constant" (PFloat c)), lift_bind
    by (rewrite Hp; [done|apply list_elem_of_In; simpl; tauto]).
  unfold py_rmul. rewrite lift_bind.
  rewrite py_truediv_zero; [done|]. rewrite Hc. ring.
Qed.

End adp_construction.

Lemma adp_init_succeeds_iff_witness :
  exists log m,
    AcousticDeformationPotentialScattering.__init__ (K:=sample_constants)
      sample_properties (sample_data false) = (log, Ok m).
Proof.
  apply (adp_init_succeeds_iff (K:=sample_constants) sample_properties
           (sample_data false)).
  { intros c [= <-]. split; right; split; vm_compute; discriminate. }
  destruct (AbstractElasticScattering.__init__
              AcousticDeformationPotentialScattering.required_properties
              sample_properties (sample_data false)) as [self|err] eqn:Hb;
    [|vm_compute in Hb; discriminate Hb].
  exists self, 150%Q, (PTuple [2%Q; 3%Q]).
  split; [reflexivity|]. split; [reflexivity|]. split; [discriminate|].
  split; [reflexivity|]. simpl. lia.
Defined.

Lemma adp_init_tuple_elastic_constant_witness :
  AcousticDeformationPotentialScattering.__init__ (K:=sample_constants)
    (<["elastic_constant" := PTuple [150; 150]%Q]> sample_properties)
    (sample_data false)
  = ([], Raise TypeError).
Proof.
  destruct (AbstractElasticScattering.__init__
              AcousticDeformationPotentialScattering.required_properties
              (<["elastic_constant" := PTuple [150; 150]%Q]> sample_properties)
              (sample_data false)) as [self|err] eqn:Hb;
    [|vm_compute in Hb; discriminate Hb].
  apply (adp_init_tuple_elastic_constant (K:=sample_constants) _ _ self
           [150; 150]%Q Hb).
  reflexivity.
Defined.

Lemma adp_init_short_tuple_witness :
  AcousticDeformationPotentialScattering.__init__ (K:=sample_constants)
    (<["deformation_potential" := PTuple []]> sample_properties)
    (sample_data true)
  = ([Warning AcousticDeformationPotentialScattering.metal_warning],
     Raise IndexError).
Proof.
  destruct (AbstractElasticScattering.__init__
              AcousticDeformationPotentialScattering.required_properties
              (<["deformation_potential" := PTuple []]> sample_properties)
              (sample_data true)) as [self|err] eqn:Hb;
    [|vm_compute in Hb; discriminate Hb].
  apply (adp_init_short_tuple (K:=sample_constants) _ (sample_data true) self
           150 [] Hb);
    [reflexivity|split; vm_compute; discriminate
    |split; vm_compute; discriminate|reflexivity|simpl; lia].
Defined.

Lemma adp_init_zero_elastic_constant_witness :
  AcousticDeformationPotentialScattering.__init__ (K:=sample_constants)
    (<["elastic_constant" := PFloat 0]> sample_properties) (sample_data false)
  = ([], Raise ZeroDivisionError).
Proof.
  destruct (AbstractElasticScattering.__init__
              AcousticDeformationPotentialScattering.required_properties
              (<["elastic_constant" := PFloat 0]> sample_properties)
              (sample_data false)) as [self|err] eqn:Hb;
    [|vm_compute in Hb; discriminate Hb].
  apply (adp_init_zero_elastic_constant (K:=sample_constants) _ _ self 0 Hb);
    reflexivity.
Defined.

(** ** Acoustic deformation potential: the prefactor *)

Section adp_prefactor.
Context {K : constants}.
Import AcousticDeformationPotentialScattering.

(** What the constructor stores, by kind of system. *)
Lemma adp_stored mp ad log m :
  __init__ mp ad = (log, Ok m) ->
  exists dp, mp !! "deformation_potential" = Some dp /\
    if AmsetData.is_metal ad
    then exists d0,
        deformation_potential m = PFloat (d0 * eV) /\
        (dp = PFloat d0 \/ exists l, dp = PTuple (d0 :: l))
    else exists d0 d1,
        deformation_potential m = PTuple [d0 * eV; d1 * eV]%Q /\
        ((dp = PFloat d0 /\ d1 = d0) \/ exists l, dp = PTuple (d0 :: d1 :: l)).
Proof.
  intros Hi.
  destruct (adp_init_Ok _ _ _ _ Hi) as (self & c & dp & _ & _ & Hdp & Hpol & _).
  exists dp. split; [done|].
  unfold init_deformation_potential in Hpol.
  destruct (AmsetData.is_metal ad), dp as [D|[|Dv [|Dc l]]];
    simpl in Hpol; try discriminate Hpol; injection Hpol as _ <-.
  - exists D. by split; [|left].
  - exists Dv. split; [done|]. right. by eexists.
  - exists Dv. split; [done|]. right. by eexists.
  - exists D, D. split; [done|]. by left.
  - exists Dv, Dc. split; [done|]. right. by eexists.
Qed.

(** X7. Whenever [prefactor(spin, b_idx)] returns, the result has shape
    [(ndoping, ntemperature)] and its entry at [(n, t)] is
    [BOLTZMANN * Second / (4 * pi ** 2 * elastic_constant * gpa_to_au)
     * temperatures[t] * 1 * (d * eV) ** 2]
    for one of the supplied deformation potentials [d]: the entry does not
    depend on the doping index. *)
Theorem adp_prefactor_entries mp ad log m c spin b_idx p :
  __init__ mp ad = (log, Ok m) ->
  mp !! "elastic_constant" = Some (PFloat c) ->
  prefactor m spin b_idx = Ok p ->
  exists d,
    (mp !! "deformation_potential" = Some (PFloat d) \/
     exists l, mp !! "deformation_potential" = Some (PTuple l) /\ d ∈ l) /\
    np.shape p = [length (AmsetData.doping ad); length (AmsetData.temperatures ad)] /\
    forall n t T,
      n < length (AmsetData.doping ad) ->
      AmsetData.temperatures ad !! t = Some T ->
      np.getitem p [n; t]
      = Ok (BOLTZMANN * Second / (4 * pi ^ 2 * c * gpa_to_au) * T * 1
            * (d * eV) ^ 2)%Q.
Proof.
  intros Hi Hec Hp.
  destruct (adp_stored _ _ _ _ Hi) as (dp & Hdp & Hst).
  destruct (adp_init_Ok _ _ _ _ Hi) as (self & c' & dp' & _ & Hec' & _ & _ & _ & _ & _ & _ & Hpre & _).
  rewrite Hec in Hec'. injection Hec' as <-.
  destruct (adp_captured _ _ _ _ Hi) as (Hdop & Htemp & _ & Hvbm & Hm).
  destruct (adp_base_term_Ok m) as (base & Hbase & Hsh & Hwf & Hitem).
  rewrite Hdop, Htemp in Hsh, Hitem.
  assert (Hentry : forall D, p = np.map (fun x => x * D ^ 2)%Q base ->
            np.shape p = [length (AmsetData.doping ad);
                          length (AmsetData.temperatures ad)] /\
            forall n t T, n < length (AmsetData.doping ad) ->
              AmsetData.temperatures ad !! t = Some T ->
              np.getitem p [n; t]
              = Ok (BOLTZMANN * Second / (4 * pi ^ 2 * c * gpa_to_au) * T * 1
                    * D ^ 2)%Q).
  { intros D ->. split; [done|]. intros n t T Hn Ht.
    pose proof (lookup_lt_Some _ _ _ Ht) as Hlt.
    rewrite getitem_in by (simpl; rewrite Hsh; by apply in_bounds_2).
    rewrite item_map_in; [|done|rewrite Hsh; by apply in_bounds_2].
    rewrite Hitem by done. by rewrite nth_lookup, Ht, Hpre. }
  unfold prefactor in Hp. rewrite Hbase, Hm in Hp. simpl in Hp.
  destruct (AmsetData.is_metal ad).
  - destruct Hst as (d0 & Hd & Hsup). rewrite Hd in Hp. simpl in Hp.
    injection Hp as <-. exists d0. split.
    + destruct Hsup as [->|[l ->]]; [by left|]. right. exists (d0 :: l).
      split; [done|by left].
    + by apply Hentry.
  - destruct Hst as (d0 & d1 & Hd & Hsup). rewrite Hd in Hp.
    inv_bind Hp. destruct (b_idx >? x)%Z; simpl in Hp; injection Hp as <-.
    + exists d1. split; [|by apply Hentry].
      destruct Hsup as [[-> ->]|[l ->]]; [by left|]. right.
      exists (d0 :: d1 :: l). split; [done|]. by right; left.
    + exists d0. split; [|by apply Hentry].
      destruct Hsup as [[-> ->]|[l ->]]; [by left|]. right.
      exists (d0 :: d1 :: l). split; [done|]. by left.
Qed.

(** X8. [prefactor] of a constructed instance raises a [KeyError] in one
    case only: on a semiconductor, for a spin without a valence-band index,
    and the key is that spin.  On a metal no key is looked up. *)
Theorem adp_prefactor_key_error_iff mp ad log m spin b_idx k :
  __init__ mp ad = (log, Ok m) ->
  prefactor m spin b_idx = Raise (KeyError k) <->
  AmsetData.is_metal ad = false /\ AmsetData.vb_idx ad !! spin = None /\
  k = KSpin spin.
Proof.
  intros Hi.
  destruct (adp_stored _ _ _ _ Hi) as (dp & Hdp & Hst).
  destruct (adp_captured _ _ _ _ Hi) as (_ & _ & _ & Hvbm & Hm).
  destruct (adp_base_term_Ok m) as (base & Hbase & _).
  unfold prefactor. rewrite Hbase, Hm, Hvbm. simpl.
  destruct (AmsetData.is_metal ad).
  - destruct Hst as (d0 & -> & _). simpl. split; [done|]. by intros [? _].
  - destruct Hst as (d0 & d1 & -> & _). unfold spin_get.
    destruct (AmsetData.vb_idx ad !! spin) as [vb|]; simpl.
    + split; [|by intros (_ & ? & _)]. by destruct (b_idx >? vb)%Z.
    + split; [by intros [= <-]|]. by intros (_ & _ & ->).
Qed.

End adp_prefactor.

Lemma adp_prefactor_entries_witness :
  exists log m p d,
    AcousticDeformationPotentialScattering.__init__ (K:=sample_constants)
      sample_properties (sample_data true) = (log, Ok m) /\
    AcousticDeformationPotentialScattering.prefactor m down 7 = Ok p /\
    np.getitem p [0; 1]
    = Ok (@BOLTZMANN sample_constants * @Second sample_constants
          / (4 * @pi sample_constants ^ 2 * 150 * @gpa_to_au sample_constants)
          * 200 * 1 * (d * @eV sample_constants) ^ 2)%Q.
Proof.
  destruct (AcousticDeformationPotentialScattering.__init__ (K:=sample_constants)
              sample_properties (sample_data true))
    as [log [m|err]] eqn:Hi; [|vm_compute in Hi; discriminate Hi].
  destruct (AcousticDeformationPotentialScattering.prefactor m down 7)
    as [p|err] eqn:Hp.
  - destruct (adp_prefactor_entries (K:=sample_constants) sample_properties
                (sample_data true) log m 150 down 7%Z p Hi)
      as (d & _ & _ & Hent); [reflexivity|exact Hp|].
    exists log, m, p, d. split; [reflexivity|]. split; [exact Hp|].
    apply (Hent 0 1 200%Q); [simpl; lia|reflexivity].
  - vm_compute in Hi. injection Hi as _ <-. vm_compute in Hp. discriminate Hp.
Defined.

Lemma adp_prefactor_key_error_iff_witness :
  exists log m,
    AcousticDeformationPotentialScattering.__init__ (K:=sample_constants)
      sample_properties sample_data_vb_up_only = (log, Ok m) /\
    AcousticDeformationPotentialScattering.prefactor m down 0
    = Raise (KeyError (KSpin down)).
Proof.
  destruct (AcousticDeformationPotentialScattering.__init__ (K:=sample_constants)
              sample_properties sample_data_vb_up_only)
    as [log [m|err]] eqn:Hi; [|vm_compute in Hi; discriminate Hi].
  exists log, m. split; [reflexivity|].
  apply (adp_prefactor_key_error_iff (K:=sample_constants) sample_properties
           sample_data_vb_up_only log m down 0%Z (KSpin down) Hi).
  by repeat split.
Defined.

(** ** Arrays written entry by entry *)

Lemma ravel_unravel sh j : j < np.prod sh -> np.ravel sh (np.unravel sh j) = j.
Proof.
  revert j. induction sh as [|d sh IH]; intros j; simpl; [lia|].
  intros Hj. assert (0 < np.prod sh) by nia.
  rewrite IH by (apply Nat.mod_upper_bound; lia).
  rewrite (Nat.div_mod_eq j (np.prod sh)) at 3. lia.
Qed.

Lemma ravel_inj sh idx1 idx2 :
  np.in_bounds sh idx1 = true -> np.in_bounds sh idx2 = true ->
  np.ravel sh idx1 = np.ravel sh idx2 -> idx1 = idx2.
Proof.
  intros H1 H2 Heq.
  by rewrite <- (unravel_ravel sh idx1), <- (unravel_ravel sh idx2), Heq.
Qed.

Lemma elem_of_ndindex sh idx :
  idx ∈ np.ndindex sh <-> np.in_bounds sh idx = true.
Proof.
  unfold np.ndindex. rewrite list_elem_of_fmap. split.
  - intros (j & -> & Hj). apply elem_of_seq in Hj.
    apply in_bounds_unravel. lia.
  - intros Hb. exists (np.ravel sh idx). split; [by rewrite unravel_ravel|].
    apply elem_of_seq. pose proof (ravel_lt _ _ Hb). lia.
Qed.

Lemma NoDup_ndindex sh : NoDup (np.ndindex sh).
Proof.
  unfold np.ndindex. apply NoDup_fmap_2_strong; [|apply NoDup_seq].
  intros i j Hi Hj Heq. apply elem_of_seq in Hi, Hj.
  rewrite <- (ravel_unravel sh i), <- (ravel_unravel sh j), Heq by lia. done.
Qed.

Lemma item_setitem_eq a idx v a' :
  np.wf a -> np.setitem a idx v = Ok a' -> np.item a' idx = v.
Proof.
  intros Hwf [Hb ->]%setitem_Ok. unfold np.item; simpl.
  rewrite nth_lookup, list_lookup_insert_eq; [done|].
  rewrite Hwf. by apply ravel_lt.
Qed.

Lemma item_setitem_ne a idx v a' idx' :
  np.setitem a idx v = Ok a' ->
  np.in_bounds (np.shape a) idx' = true -> idx' <> idx ->
  np.item a' idx' = np.item a idx'.
Proof.
  intros [Hb ->]%setitem_Ok Hb' Hne. unfold np.item; simpl.
  rewrite !nth_lookup, list_lookup_insert_ne; [done|].
  intros Heq. apply Hne. symmetry. by eapply ravel_inj.
Qed.

(** A loop whose passes each write one entry of an array kept in the state:
    over distinct indices, every visited entry ends with the value written
    for it and the other entries are untouched. *)
Lemma for_each_writes {S} (arr : S -> ndarray) (body : S -> list nat -> result S)
    (R : list nat -> Q -> Prop) l s s' :
  (forall s x s1, x ∈ l -> body s x = Ok s1 ->
                  exists v, R x v /\ np.setitem (arr s) x v = Ok (arr s1)) ->
  NoDup l -> np.wf (arr s) ->
  for_each body l s = Ok s' ->
  np.shape (arr s') = np.shape (arr s) /\ np.wf (arr s') /\
  (forall idx, idx ∈ l -> R idx (np.item (arr s') idx)) /\
  (forall idx, np.in_bounds (np.shape (arr s)) idx = true -> idx ∉ l ->
               np.item (arr s') idx = np.item (arr s) idx).
Proof.
  revert s. induction l as [|x l IH]; intros s Hstep Hnd Hwf; simpl.
  - intros [= <-]. split; [done|]. split; [done|].
    split; [by intros idx ?%elem_of_nil|done].
  - intros H. inv_bind H. rename x0 into s1.
    apply NoDup_cons in Hnd as [Hx Hnd].
    destruct (Hstep s x s1) as (v & Hv & Hset); [by left|done|].
    destruct (setitem_shape _ _ _ _ Hset) as [Hsh Hwf1].
    destruct (IH s1) as (Hsh' & Hwf' & Hin & Hout); [|done|by apply Hwf1|done|].
    { intros s2 y s3 Hy. apply Hstep. by right. }
    rewrite Hsh in Hsh', Hout. split; [done|]. split; [done|]. split.
    + intros idx [->|Hidx]%elem_of_cons; [|by apply Hin].
      rewrite Hout; [|by apply setitem_Ok in Hset as [? _]|done].
      by rewrite (item_setitem_eq _ _ _ _ Hwf Hset).
    + intros idx Hb Hnot. apply not_elem_of_cons in Hnot as [Hne Hnot].
      rewrite Hout by done. by eapply item_setitem_ne.
Qed.

(** A loop stops with the exception of the first pass that raises. *)
Lemma for_each_raises {A S} (body : S -> A -> result S) (I : S -> Prop) e l s :
  I s ->
  (forall s x, x ∈ l -> I s ->
               (exists s', body s x = Ok s' /\ I s') \/ body s x = Raise e) ->
  (exists x, x ∈ l /\ forall s, I s -> body s x = Raise e) ->
  for_each body l s = Raise e.
Proof.
  revert s. induction l as [|x l IH]; intros s Hs Hstep (y & Hy & Hfail).
  - by apply elem_of_nil in Hy.
  - simpl. apply elem_of_cons in Hy as [->|Hy].
    + by rewrite (Hfail s Hs).
    + destruct (Hstep s x) as [(s1 & -> & Hs1)| ->]; [by left|done| |done].
      simpl. apply IH; [done| |by exists y].
      intros s2 z Hz. apply Hstep. by right.
Qed.

(** ** The screening calculation, entry by entry *)

Lemma unravel_vector n i : np.unravel [n] i = [i].
Proof. change (np.unravel [n] i) with [i / 1]. by rewrite Nat.div_1_r. Qed.

Lemma item_vector n (a : list Q) i : np.item (np.mk [n] a) [i] = nth i a 0%Q.
Proof. unfold np.item. simpl. by rewrite Nat.mul_1_r, Nat.add_0_r. Qed.

Lemma bidx_vector n i : i < n -> np.bidx [n] [i] = [i].
Proof.
  intros Hi. unfold np.bidx. simpl.
  destruct (n =? 1) eqn:E; [|done]. apply Nat.eqb_eq in E. f_equal. lia.
Qed.

(** Two vectors of the same length are multiplied sample by sample. *)
Lemma multiply_vectors n (a b : list Q) :
  length a = n -> length b = n ->
  np.multiply (np.mk [n] a) (np.mk [n] b) = Ok (np.mk [n] (zip_with Qmult a b)).
Proof.
  intros Ha Hb. unfold np.multiply.
  rewrite (map2_Ok _ _ _ [n]) by apply broadcast_same_vector.
  unfold np.tabulate. do 2 f_equal.
  change (np.prod [n]) with (n * 1). rewrite Nat.mul_1_r.
  apply list_eq. intros i. rewrite list_lookup_fmap, lookup_zip_with.
  destruct (decide (i < n)) as [Hi|Hi].
  - rewrite lookup_seq_lt by done. cbn [fmap option_fmap option_map Nat.add].
    destruct (lookup_lt_is_Some_2 a i) as [x Hx]; [lia|].
    destruct (lookup_lt_is_Some_2 b i) as [y Hy]; [lia|].
    rewrite Hx, Hy. cbn [mbind option_bind np.shape].
    rewrite unravel_vector, bidx_vector, !item_vector by done.
    by rewrite !nth_lookup, Hx, Hy.
  - rewrite lookup_seq_ge by lia. cbn [fmap option_fmap option_map].
    by rewrite (lookup_ge_None_2 a) by lia.
Qed.

Lemma trapz_vectors n (y x : list Q) :
  length y = n -> length x = n ->
  np.trapz (np.mk [n] y) (np.mk [n] x) = Ok (trapezoid y x).
Proof.
  intros Hy Hx. unfold np.trapz, np.array1. cbn [np.shape np.data].
  assert (Hl : length (zip_with Qplus (tail y) y) = length (np.diff x)).
  { unfold np.diff. rewrite !length_zip_with. destruct x, y; simpl in *; lia. }
  rewrite Hl, (multiply_vectors (length (np.diff x))) by done.
  done.
Qed.

Section screening_entries.
Context {K : constants}.
Variable FD : list Q -> Q -> Q -> list Q.

Lemma screening_step_written ad d isl idx isl' :
  screening_step FD ad (PFloat d) isl idx = Ok isl' ->
  exists v, screening_written FD ad d idx v /\ np.setitem isl idx v = Ok isl'.
Proof.
  unfold screening_step. destruct idx as [|n [|t [|]]]; try done.
  cbv zeta. intros H. do 6 inv_bind H.
  unfold list_get in E0.
  destruct (AmsetData.temperatures ad !! t) as [T|] eqn:HT; [|done].
  injection E0 as <-. injection E4 as <-.
  eexists. split; [|exact H].
  by exists n, t, x, T, x1, x2, x3.
Qed.

Lemma calculate_written ad d r :
  calculate_inverse_screening_length_sq FD ad (PFloat d) = Ok r ->
  np.shape r = np.shape (AmsetData.fermi_levels ad) /\
  forall idx, np.in_bounds (np.shape (AmsetData.fermi_levels ad)) idx = true ->
              screening_written FD ad d idx (np.item r idx).
Proof.
  unfold calculate_inverse_screening_length_sq. cbv zeta. intros Hr.
  destruct (for_each_writes (fun a => a) _ (screening_written FD ad d) _ _ _
              (fun s x s1 _ => screening_step_written ad d s x s1)
              (NoDup_ndindex _) (wf_zeros _) Hr) as (Hsh & _ & Hin & _).
  split; [done|]. intros idx Hb. by apply Hin, elem_of_ndindex.
Qed.


Hypothesis FD_length : forall energies mu kBT,
    length (FD energies mu kBT) = length energies.

(** X9. When the density of states has one value per grid energy, the
    entry of the returned array at [(n, t)] is the trapezoidal integral of
    [tdos * f * (1 - f)] over the energy grid, with [f] the occupation at
    the Fermi level [fermi_levels[n, t]] and the temperature
    [temperatures[t]], times [4 * pi / (static_dielectric * BOLTZMANN *
    temperatures[t] * vol)]: every entry is written once, from the
    temperature of its own column. *)
Theorem screening_entry_closed_form ad d r n t ef T :
  length (Dos.tdos (AmsetData.dos ad)) = length (Dos.energies (AmsetData.dos ad)) ->
  calculate_inverse_screening_length_sq FD ad (PFloat d) = Ok r ->
  np.getitem (AmsetData.fermi_levels ad) [n; t] = Ok ef ->
  AmsetData.temperatures ad !! t = Some T ->
  np.getitem r [n; t]
  = Ok (trapezoid
          (screening_integrand (Dos.tdos (AmsetData.dos ad))
             (FD (Dos.energies (AmsetData.dos ad)) ef (T * BOLTZMANN)))
          (Dos.energies (AmsetData.dos ad))
        * 4 * pi
        / (d * BOLTZMANN * T * Structure.volume (AmsetData.structure ad)))%Q.
Proof.
  intros Hlen Hr Hef HT.
  destruct (calculate_written _ _ _ Hr) as [Hsh Hw].
  assert (Hb : np.in_bounds (np.shape (AmsetData.fermi_levels ad)) [n; t] = true).
  { unfold np.getitem in Hef. by destruct (np.in_bounds _ _). }
  rewrite getitem_in by by rewrite Hsh. f_equal.
  destruct (Hw _ Hb) as (n' & t' & ef' & T' & tf & y & integral
                         & [= <- <-] & Hef' & HT' & Htf & Hy & Hint & ->).
  rewrite Hef in Hef'. rewrite HT in HT'. simplify_eq.
  set (f := FD _ _ _) in *.
  assert (Hf : length f = length (Dos.energies (AmsetData.dos ad)))
    by apply FD_length.
  unfold np.array1 in Htf. rewrite Hlen, Hf in Htf.
  rewrite multiply_vectors in Htf by done. injection Htf as <-.
  unfold np.map, np.array1 in Hy. cbn [np.shape np.data] in Hy. rewrite Hf in Hy.
  rewrite multiply_vectors in Hy
    by (rewrite ?length_zip_with, ?length_fmap; lia).
  injection Hy as <-.
  unfold np.array1 in Hint. rewrite trapz_vectors in Hint
    by (rewrite ?length_zip_with, ?length_fmap; lia).
  by injection Hint as <-.
Qed.

End screening_entries.

Lemma half_of_doubled (a d b c v : Q) :
  (a / (2 * d * b * c * v) == a / (d * b * c * v) / 2)%Q.
Proof.
  destruct (Qeq_dec (d * b * c * v) 0) as [Hz|Hnz].
  - assert (H2 : (2 * d * b * c * v == 0)%Q).
    { transitivity (2 * (d * b * c * v))%Q; [ring|]. rewrite Hz. ring. }
    unfold Qdiv. rewrite Hz, H2.
    assert (E : (/ 0 == 0)%Q) by reflexivity. rewrite E. ring.
  - field. repeat split; intros H; apply Hnz; rewrite H; ring.
Qed.

Section screening_scaling.
Context {K : constants}.
Variable FD : list Q -> Q -> Q -> list Q.

(** X10. With the same transport state, doubling the dielectric constant
    halves every entry of the inverse screening length squared. *)
Theorem screening_halved_by_doubled_dielectric ad d r1 r2 n t x1 :
  calculate_inverse_screening_length_sq FD ad (PFloat d) = Ok r1 ->
  calculate_inverse_screening_length_sq FD ad (PFloat (2 * d)) = Ok r2 ->
  np.getitem r1 [n; t] = Ok x1 ->
  exists x2, np.getitem r2 [n; t] = Ok x2 /\ (x2 == x1 / 2)%Q.
Proof.
  intros H1 H2 Hx1.
  destruct (calculate_written _ _ _ _ H1) as [Hsh1 Hw1].
  destruct (calculate_written _ _ _ _ H2) as [Hsh2 Hw2].
  assert (Hb : np.in_bounds (np.shape (AmsetData.fermi_levels ad)) [n; t] = true).
  { unfold np.getitem in Hx1. rewrite Hsh1 in Hx1. by destruct (np.in_bounds _ _). }
  rewrite getitem_in in Hx1 by by rewrite Hsh1. injection Hx1 as <-.
  exists (np.item r2 [n; t]). split; [apply getitem_in; by rewrite Hsh2|].
  destruct (Hw1 _ Hb) as (n1 & t1 & ef1 & T1 & tf1 & y1 & i1
                          & [= <- <-] & Hef1 & HT1 & Htf1 & Hy1 & Hi1 & ->).
  destruct (Hw2 _ Hb) as (n2 & t2 & ef2 & T2 & tf2 & y2 & i2
                          & [= <- <-] & Hef2 & HT2 & Htf2 & Hy2 & Hi2 & ->).
  rewrite Hef1 in Hef2. rewrite HT1 in HT2. simplify_eq.
  same_result. apply half_of_doubled.
Qed.

End screening_scaling.

Lemma screening_entry_closed_form_witness :
  exists r,
    calculate_inverse_screening_length_sq (K:=sample_constants) sample_FD
      (sample_data false) (PFloat 10) = Ok r /\
    np.getitem r [0; 1]
    = Ok (trapezoid
            (screening_integrand (qs [1; 2; 3]%Z)
               (sample_FD (qs [-1; 0; 2]%Z) 1 (200 * @BOLTZMANN sample_constants)))
            (qs [-1; 0; 2]%Z)
          * 4 * @pi sample_constants
          / (10 * @BOLTZMANN sample_constants * 200 * 10))%Q.
Proof.
  destruct (calculate_inverse_screening_length_sq (K:=sample_constants) sample_FD
              (sample_data false) (PFloat 10)) as [r|err] eqn:Hr;
    [|vm_compute in Hr; discriminate Hr].
  exists r. split; [reflexivity|].
  apply (screening_entry_closed_form (K:=sample_constants) sample_FD
           sample_FD_length (sample_data false) 10 r 0 1 1 200);
    [reflexivity|exact Hr|reflexivity|reflexivity].
Defined.

Lemma screening_halved_by_doubled_dielectric_witness :
  exists r1 r2 x1 x2,
    calculate_inverse_screening_length_sq (K:=sample_constants) sample_FD
      (sample_data false) (PFloat 10) = Ok r1 /\
    calculate_inverse_screening_length_sq (K:=sample_constants) sample_FD
      (sample_data false) (PFloat (2 * 10)) = Ok r2 /\
    np.getitem r1 [0; 1] = Ok x1 /\
    np.getitem r2 [0; 1] = Ok x2 /\
    (x2 == x1 / 2)%Q.
Proof.
  destruct (calculate_inverse_screening_length_sq (K:=sample_constants) sample_FD
              (sample_data false) (PFloat 10)) as [r1|err] eqn:H1;
    [|vm_compute in H1; discriminate H1].
  destruct (calculate_inverse_screening_length_sq (K:=sample_constants) sample_FD
              (sample_data false) (PFloat (2 * 10))) as [r2|err] eqn:H2;
    [|vm_compute in H2; discriminate H2].
  destruct (np.getitem r1 [0; 1]) as [x1|err] eqn:Hx1.
  - destruct (screening_halved_by_doubled_dielectric (K:=sample_constants)
                sample_FD (sample_data false) 10 r1 r2 0 1 x1 H1 H2 Hx1)
      as (x2 & Hx2 & Hq).
    by exists r1, r2, x1, x2.
  - vm_compute in H1. injection H1 as <-. vm_compute in Hx1. discriminate Hx1.
Defined.

(** ** The screening calculation: edge cases *)

Lemma length_unravel sh j : length (np.unravel sh j) = length sh.
Proof. revert j. induction sh as [|d sh IH]; intros j; simpl; [done|]. by rewrite IH. Qed.

Lemma ndindex_nonempty sh :
  0 < np.prod sh -> exists l, np.ndindex sh = np.unravel sh 0 :: l.
Proof.
  unfold np.ndindex. destruct (np.prod sh) as [|k]; [lia|]. intros _.
  by eexists.
Qed.

Lemma unravel_origin_2 nd nt : np.unravel [nd; nt] 0 = [0; 0].
Proof.
  change (np.unravel [nd; nt] 0) with [0 / (nt * 1); (0 mod (nt * 1)) / 1].
  by rewrite Nat.Div0.div_0_l, Nat.Div0.mod_0_l.
Qed.

Lemma broadcast_vectors_mismatch a b :
  a <> b -> a <> 1 -> b <> 1 -> np.broadcast_shapes [a] [b] = None.
Proof.
  intros Hab Ha Hb. unfold np.broadcast_shapes. simpl.
  apply Nat.eqb_neq in Hab, Ha, Hb. by rewrite Hab, Ha, Hb.
Qed.

Lemma multiply_mismatch (a b : list Q) :
  length a <> length b -> length a <> 1 -> length b <> 1 ->
  np.multiply (np.array1 a) (np.array1 b) = Raise ValueError.
Proof.
  intros Hab Ha Hb. unfold np.multiply, np.map2. cbn [np.shape np.array1].
  by rewrite broadcast_vectors_mismatch.
Qed.

Section screening_edges.
Context {K : constants}.
Variable FD : list Q -> Q -> Q -> list Q.

(** X11. Without any (doping, temperature) entry the calculation returns
    the empty array of zeros and looks at nothing else, not even at the
    type of the dielectric constant. *)
Theorem screening_of_no_entries ad sd :
  np.prod (np.shape (AmsetData.fermi_levels ad)) = 0 ->
  calculate_inverse_screening_length_sq FD ad sd
  = Ok (np.zeros (np.shape (AmsetData.fermi_levels ad))).
Proof.
  intros Hz. unfold calculate_inverse_screening_length_sq, np.ndindex.
  cbv zeta. cbn [np.shape np.zeros]. by rewrite Hz.
Qed.

(** X12. Fermi levels that hold at least one entry but do not have exactly
    two axes make the calculation raise a [ValueError] (the loop unpacks
    every index into a doping and a temperature index). *)
Theorem screening_requires_two_axes ad sd :
  0 < np.prod (np.shape (AmsetData.fermi_levels ad)) ->
  length (np.shape (AmsetData.fermi_levels ad)) <> 2 ->
  calculate_inverse_screening_length_sq FD ad sd = Raise ValueError.
Proof.
  intros Hpos Hrank. unfold calculate_inverse_screening_length_sq.
  cbv zeta. cbn [np.shape np.zeros].
  destruct (ndindex_nonempty _ Hpos) as [l ->]. cbn [for_each].
  pose proof (length_unravel (np.shape (AmsetData.fermi_levels ad)) 0) as Hl.
  unfold screening_step.
  destruct (np.unravel _ 0) as [|n [|t [|]]]; simpl in Hl; try done.
Qed.

(** X13. A density of states and an energy grid of different lengths,
    neither of length one, make the calculation raise the [ValueError] of
    NumPy broadcasting as soon as there is a first entry to compute. *)
Theorem screening_dos_length_mismatch ad sd nd nt T :
  (forall energies mu kBT, length (FD energies mu kBT) = length energies) ->
  np.shape (AmsetData.fermi_levels ad) = [S nd; S nt] ->
  AmsetData.temperatures ad !! 0 = Some T ->
  length (Dos.tdos (AmsetData.dos ad)) <> length (Dos.energies (AmsetData.dos ad)) ->
  length (Dos.tdos (AmsetData.dos ad)) <> 1 ->
  length (Dos.energies (AmsetData.dos ad)) <> 1 ->
  calculate_inverse_screening_length_sq FD ad sd = Raise ValueError.
Proof.
  intros HFD Hsh HT Hne H1 H2. unfold calculate_inverse_screening_length_sq.
  cbv zeta. cbn [np.shape np.zeros]. rewrite Hsh.
  destruct (ndindex_nonempty [S nd; S nt]) as [l ->]; [simpl; lia|].
  rewrite unravel_origin_2. cbn [for_each]. unfold screening_step. cbv zeta.
  rewrite getitem_in by (by rewrite Hsh). cbn [mbind result_bind].
  unfold list_get. rewrite HT. cbn [mbind result_bind].
  rewrite multiply_mismatch by (rewrite ?HFD; done). done.
Qed.

(** X14. A dielectric constant given as a tuple makes the calculation
    raise a [TypeError] on its first entry, after the integral of that
    entry has been computed. *)
Theorem screening_tuple_dielectric ad l nd nt T :
  (forall energies mu kBT, length (FD energies mu kBT) = length energies) ->
  np.shape (AmsetData.fermi_levels ad) = [S nd; S nt] ->
  AmsetData.temperatures ad !! 0 = Some T ->
  length (Dos.tdos (AmsetData.dos ad)) = length (Dos.energies (AmsetData.dos ad)) ->
  calculate_inverse_screening_length_sq FD ad (PTuple l) = Raise TypeError.
Proof.
  intros HFD Hsh HT Hlen. unfold calculate_inverse_screening_length_sq.
  cbv zeta. cbn [np.shape np.zeros]. rewrite Hsh.
  destruct (ndindex_nonempty [S nd; S nt]) as [l' ->]; [simpl; lia|].
  rewrite unravel_origin_2. cbn [for_each]. unfold screening_step. cbv zeta.
  rewrite getitem_in by (by rewrite Hsh). cbn [mbind result_bind].
  unfold list_get. rewrite HT. cbn [mbind result_bind].
  set (f := FD _ _ _).
  assert (Hf : length f = length (Dos.energies (AmsetData.dos ad))) by apply HFD.
  unfold np.array1. rewrite Hlen, Hf.
  rewrite multiply_vectors by done. cbn [mbind result_bind].
  unfold np.map. cbn [np.shape np.data].
  rewrite multiply_vectors by (rewrite ?length_zip_with, ?length_fmap; lia).
  cbn [mbind result_bind].
  rewrite trapz_vectors by (rewrite ?length_zip_with, ?length_fmap; lia).
  done.
Qed.

End screening_edges.

Lemma screening_of_no_entries_witness :
  calculate_inverse_screening_length_sq (K:=sample_constants) sample_FD
    (with_fermi_levels (np.mk [0; 2] []) (sample_data false)) (PTuple [10; 10]%Q)
  = Ok (np.zeros [0; 2]).
Proof.
  apply (screening_of_no_entries (K:=sample_constants) sample_FD
           (with_fermi_levels (np.mk [0; 2] []) (sample_data false))).
  reflexivity.
Defined.

Lemma screening_requires_two_axes_witness :
  calculate_inverse_screening_length_sq (K:=sample_constants) sample_FD
    (with_fermi_levels (np.mk [2] (qs [0; 1]%Z)) (sample_data false)) (PFloat 10)
  = Raise ValueError.
Proof.
  apply (screening_requires_two_axes (K:=sample_constants) sample_FD
           (with_fermi_levels (np.mk [2] (qs [0; 1]%Z)) (sample_data false)));
    simpl; lia.
Defined.

Lemma screening_dos_length_mismatch_witness :
  calculate_inverse_screening_length_sq (K:=sample_constants) sample_FD
    (with_dos {| Dos.tdos := qs [1; 2]%Z; Dos.energies := qs [-1; 0; 2]%Z |}
              (sample_data false))
    (PFloat 10)
  = Raise ValueError.
Proof.
  apply (screening_dos_length_mismatch (K:=sample_constants) sample_FD
           (with_dos {| Dos.tdos := qs [1; 2]%Z; Dos.energies := qs [-1; 0; 2]%Z |}
                     (sample_data false))
           (PFloat 10) 0 1 100 sample_FD_length);
    try reflexivity; simpl; lia.
Defined.

Lemma screening_tuple_dielectric_witness :
  calculate_inverse_screening_length_sq (K:=sample_constants) sample_FD
    (sample_data false) (PTuple [10; 10]%Q)
  = Raise TypeError.
Proof.
  apply (screening_tuple_dielectric (K:=sample_constants) sample_FD
           (sample_data false) [10; 10]%Q 0 1 100 sample_FD_length);
    reflexivity.
Defined.

(** ** Ionized impurities: what the constructor computes *)

(** A loop whose passes each append one record to a list kept in the
    state. *)
Lemma for_each_appends {A S R} (info : S -> list R) (body : S -> A -> result S)
    (I : S -> Prop) (P : A -> R -> Prop) l s s' :
  I s ->
  (forall s x s1, x ∈ l -> I s -> body s x = Ok s1 ->
                  I s1 /\ exists r, P x r /\ info s1 = info s ++ [r]) ->
  for_each body l s = Ok s' ->
  exists rs, info s' = info s ++ rs /\ Forall2 P l rs.
Proof.
  revert s. induction l as [|x l IH]; intros s Hs Hstep; simpl.
  - intros [= <-]. exists []. by rewrite app_nil_r.
  - intros H. inv_bind H. rename x0 into s1.
    destruct (Hstep s x s1) as (Hs1 & r & Hr & Hi); [by left|done..|].
    destruct (IH s1) as (rs & Hrs & Hall); [done| |done|].
    { intros s2 y s3 Hy. apply Hstep. by right. }
    exists (r :: rs). split; [|by constructor].
    by rewrite Hrs, Hi, <- app_assoc.
Qed.

Section imp_construction.
Context {K : constants}.
Variable FD : list Q -> Q -> Q -> list Q.
Import IonizedImpurityScattering.

Lemma impurity_step_written props ad isl st idx st' :
  impurity_step props ad isl st idx = Ok st' ->
  exists v, concentration_written props ad idx v /\
            np.setitem st.1 idx v = Ok st'.1 /\
            (np.wf st.1 ->
             exists r, impurity_report props ad isl idx r /\ st'.2 = st.2 ++ [r]).
Proof.
  unfold impurity_step. destruct st as [ic info].
  destruct idx as [|n [|t [|]]]; try done.
  intros H. do 11 inv_bind H. injection H as <-.
  rename x into e_nt, x0 into h_nt, x6 into dop, x7 into T.
  unfold dict_get in E1, E3.
  destruct (props !! "donor_charge") as [dcv|] eqn:Hdc; [|done].
  destruct (props !! "acceptor_charge") as [acv|] eqn:Hac; [|done].
  injection E1 as <-. injection E3 as <-.
  destruct dcv as [dc|]; [|done]. destruct acv as [ac|]; [|done].
  injection E2 as <-. injection E4 as <-.
  unfold list_get in E6, E7.
  destruct (AmsetData.doping ad !! n) as [dop'|] eqn:Hdop; [|done].
  destruct (AmsetData.temperatures ad !! t) as [T'|] eqn:HT; [|done].
  injection E6 as ->. injection E7 as ->.
  assert (Hw : concentration_written props ad [n; t]
                 (Qabs e_nt * dc ^ 2 + Qabs h_nt * ac ^ 2)%Q)
    by by exists n, t, e_nt, h_nt, dc, ac.
  eexists. split; [exact Hw|]. split; [exact E5|].
  intros Hwf. eexists. split; [|reflexivity].
  exists n, t, dop, T, (Qabs e_nt * dc ^ 2 + Qabs h_nt * ac ^ 2)%Q.
  split; [done|]. split; [done|]. split; [done|]. split; [done|].
  unfold np.getitem in E8, E9.
  destruct (np.in_bounds (np.shape isl) [n; t]); [|done].
  destruct (np.in_bounds (np.shape x5) [n; t]); [|done].
  injection E8 as <-. injection E9 as <-.
  by rewrite (item_setitem_eq _ _ _ _ Hwf E5).
Qed.

Lemma impurity_loop_written props ad isl sh sh' ic info :
  for_each (impurity_step props ad isl) (np.ndindex sh) (np.zeros sh', [])
    = Ok (ic, info) ->
  np.shape ic = sh' /\ np.wf ic /\
  (forall idx, np.in_bounds sh idx = true ->
               concentration_written props ad idx (np.item ic idx)) /\
  Forall2 (impurity_report props ad isl) (np.ndindex sh) info.
Proof.
  intros Hl.
  destruct (for_each_writes fst (impurity_step props ad isl)
              (concentration_written props ad) (np.ndindex sh)
              (np.zeros sh', []) (ic, info)) as (Hsh & Hwf & Hin & _);
    [|apply NoDup_ndindex|apply wf_zeros|exact Hl|].
  { intros s x s1 _ Hb.
    destruct (impurity_step_written _ _ _ _ _ _ Hb) as (v & Hw & Hs & _).
    by exists v. }
  destruct (for_each_appends snd (impurity_step props ad isl)
              (fun s => np.wf s.1) (impurity_report props ad isl)
              (np.ndindex sh) (np.zeros sh', []) (ic, info))
    as (rs & Hrs & Hall); [apply wf_zeros| |exact Hl|].
  { intros s x s1 _ Hs Hb.
    destruct (impurity_step_written _ _ _ _ _ _ Hb) as (v & _ & Hset & Hr).
    split; [by apply (setitem_shape _ _ _ _ Hset)|by apply Hr]. }
  simpl in *. subst rs. repeat split; try done.
  intros idx Hb. by apply Hin, elem_of_ndindex.
Qed.

(** X15. The cached prefactor of a constructed instance holds, at every
    (doping, temperature) index of the Fermi levels,
    [(abs(electron_conc[n, t]) * donor_charge ** 2
      + abs(hole_conc[n, t]) * acceptor_charge ** 2)
     * (4 * pi) ** 2 * Second / static_dielectric ** 2]. *)
Theorem imp_prefactor_entries mp ad log m dc ac sd n t e_nt h_nt :
  __init__ FD mp ad = (log, Ok m) ->
  mp !! "donor_charge" = Some (PFloat dc) ->
  mp !! "acceptor_charge" = Some (PFloat ac) ->
  mp !! "static_dielectric" = Some (PFloat sd) ->
  np.in_bounds (np.shape (AmsetData.fermi_levels ad)) [n; t] = true ->
  np.getitem (AmsetData.electron_conc ad) [n; t] = Ok e_nt ->
  np.getitem (AmsetData.hole_conc ad) [n; t] = Ok h_nt ->
  np.getitem (_prefactor m) [n; t]
  = Ok ((Qabs e_nt * dc ^ 2 + Qabs h_nt * ac ^ 2)
        * (4 * pi) ^ 2 * Second / sd ^ 2)%Q.
Proof.
  intros Hi Hdc Hac Hsd Hb He Hh.
  destruct (imp_init_Ok FD _ _ _ _ Hi)
    as (self & sd' & sd2 & ic & info & Hbase & Hsd' & Hc & Hl & Hsq & Hp & _).
  rewrite Hsd in Hsd'. injection Hsd' as <-. injection Hsq as <-.
  destruct (base_init_Ok _ _ _ _ Hbase) as (_ & _ & _ & Hprops).
  apply calculate_shape in Hc as [Hs _]. rewrite Hs in Hl.
  destruct (impurity_loop_written _ _ _ _ _ _ _ Hl) as (Hsh & Hwf & Hw & _).
  rewrite Hp. rewrite getitem_in by (simpl; by rewrite Hsh). f_equal.
  rewrite item_map_in; [|done|by rewrite Hsh].
  destruct (Hw _ Hb) as (n' & t' & e' & h' & dc' & ac' & [= <- <-]
                         & He' & Hh' & Hdc' & Hac' & ->).
  rewrite Hprops in Hdc', Hac' by (apply list_elem_of_In; simpl; tauto).
  rewrite He in He'. rewrite Hh in Hh'. rewrite Hdc in Hdc'. rewrite Hac in Hac'.
  by simplify_eq.
Qed.

End imp_construction.

Lemma Qsq_nonneg (a : Q) : (0 <= a ^ 2)%Q.
Proof. simpl. nra. Qed.

Lemma Qdiv_nonneg (a b : Q) : (0 <= a)%Q -> (0 <= b)%Q -> (0 <= a / b)%Q.
Proof.
  intros Ha Hb. unfold Qdiv. apply Qmult_le_0_compat; [done|].
  by apply Qinv_le_0_compat.
Qed.

Lemma concentration_written_nonneg props ad idx v :
  concentration_written props ad idx v -> (0 <= v)%Q.
Proof.
  intros (n & t & e_nt & h_nt & dc & ac & _ & _ & _ & _ & _ & ->).
  pose proof (Qabs_nonneg e_nt). pose proof (Qabs_nonneg h_nt).
  pose proof (Qsq_nonneg dc). pose proof (Qsq_nonneg ac).
  rewrite <- (Qplus_0_l 0).
  apply Qplus_le_compat; by apply Qmult_le_0_compat.
Qed.

Section imp_log.
Context {K : constants}.
Variable FD : list Q -> Q -> Q -> list Q.
Import IonizedImpurityScattering.

(** X16. For a static dielectric whose square is a normal number (not
    zero in particular), a positive time unit [Second] and a normal
    [(4 * pi) ** 2], every entry of the cached prefactor of a constructed
    instance is non-negative, whatever the signs of the carrier
    concentrations and of the charges. *)
Theorem imp_prefactor_nonneg mp ad log m d n t x :
  (0 < Second)%Q ->
  binary64.normal ((4 * pi) ^ 2) ->
  mp !! "static_dielectric" = Some (PFloat d) ->
  binary64.normal (d ^ 2) ->
  __init__ FD mp ad = (log, Ok m) ->
  np.getitem (_prefactor m) [n; t] = Ok x ->
  (0 <= x)%Q.
Proof.
  intros HS%Qlt_le_weak _ _ _ Hi Hx.
  destruct (imp_init_Ok FD _ _ _ _ Hi)
    as (self & sd & sd2 & ic & info & _ & _ & Hc & Hl & Hsq & Hp & _).
  apply calculate_shape in Hc as [Hs _]. rewrite Hs in Hl.
  destruct (impurity_loop_written _ _ _ _ _ _ _ Hl) as (Hsh & Hwf & Hw & _).
  rewrite Hp in Hx. unfold np.getitem in Hx. simpl in Hx.
  destruct (np.in_bounds (np.shape ic) [n; t]) eqn:Hb; [|done].
  injection Hx as <-. rewrite item_map_in by done.
  rewrite Hsh in Hb. apply Hw, concentration_written_nonneg in Hb.
  destruct sd as [s|]; [|done]. injection Hsq as <-.
  apply Qdiv_nonneg; [|apply Qsq_nonneg].
  apply Qmult_le_0_compat; [|done].
  apply Qmult_le_0_compat; [done|apply Qsq_nonneg].
Qed.

(** The records of a successful construction, in order. *)
Lemma imp_init_log mp ad log m :
  __init__ FD mp ad = (log, Ok m) ->
  exists self ic info,
    AbstractElasticScattering.__init__ required_properties mp ad = Ok self /\
    for_each (impurity_step (AbstractElasticScattering.properties self) ad
                            (inverse_screening_length_sq m))
             (np.ndindex (np.shape (AmsetData.fermi_levels ad)))
             (np.zeros (np.shape (AmsetData.fermi_levels ad)), [])
      = Ok (ic, info) /\
    log = Debug "Initializing IMP scattering"
          :: Debug "Inverse screening length (β) and impurity concentration (Nᵢᵢ):"
          :: info.
Proof.
  unfold __init__. intros Hi.
  apply bind_Ok_inv in Hi as (l1 & self & l2 & [Hb ->]%lift_Ok_inv & Hi & ->).
  cbv zeta in Hi.
  apply bind_Ok_inv in Hi as (la & [] & l3 & [= <-] & Hi & ->).
  apply bind_Ok_inv in Hi as (l1 & sd & l4 & [Hsd ->]%lift_Ok_inv & Hi & ->).
  apply bind_Ok_inv in Hi as (l1 & isl & l5 & [Hisl ->]%lift_Ok_inv & Hi & ->).
  apply bind_Ok_inv in Hi as (l1 & [ic info] & l6 & [Hloop ->]%lift_Ok_inv & Hi & ->).
  apply bind_Ok_inv in Hi as (lb & [] & l7 & [= <-] & Hi & ->).
  apply bind_Ok_inv in Hi as (lc & [] & l8 & [= <-] & Hi & ->).
  apply bind_Ok_inv in Hi as (l1 & sd' & l9 & [Hsd' ->]%lift_Ok_inv & Hi & ->).
  apply bind_Ok_inv in Hi as (l1 & sd2 & l10 & [Hsd2 ->]%lift_Ok_inv & Hi & ->).
  injection Hi as <- <-. simpl.
  apply calculate_shape in Hisl as [Hs _]. rewrite Hs in Hloop.
  exists self, ic, info. by rewrite app_nil_r.
Qed.

(** X17. A successful construction logs, in this order: the record that
    the class is being initialised, the heading of the report, and one
    report per (doping, temperature) index of the Fermi levels in row-major
    order, each with the doping and the temperature of its index, the
    screening value stored at that index and the impurity concentration
    computed for it. *)
Theorem imp_log_records mp ad log m :
  __init__ FD mp ad = (log, Ok m) ->
  exists reports,
    log = Debug "Initializing IMP scattering"
          :: Debug "Inverse screening length (β) and impurity concentration (Nᵢᵢ):"
          :: reports /\
    Forall2 (impurity_report mp ad (inverse_screening_length_sq m))
            (np.ndindex (np.shape (AmsetData.fermi_levels ad))) reports.
Proof.
  intros Hi.
  destruct (imp_init_log _ _ _ _ Hi) as (self & ic & info & Hb & Hl & ->).
  destruct (base_init_Ok _ _ _ _ Hb) as (_ & _ & _ & Hprops).
  destruct (impurity_loop_written _ _ _ _ _ _ _ Hl) as (_ & _ & _ & Hall).
  exists info. split; [done|].
  eapply Forall2_impl; [exact Hall|].
  intros idx r (n & t & dop & T & v & -> & Hdop & HT & Hw & ->).
  exists n, t, dop, T, v. repeat split; try done.
  destruct Hw as (n' & t' & e_nt & h_nt & dc & ac & Heq & He & Hh & Hdc & Hac & ->).
  rewrite Hprops in Hdc, Hac by (apply list_elem_of_In; simpl; tauto).
  by exists n', t', e_nt, h_nt, dc, ac.
Qed.

End imp_log.

Lemma imp_prefactor_entries_witness :
  exists log m,
    IonizedImpurityScattering.__init__ (K:=sample_constants) sample_FD
      sample_properties (sample_data false) = (log, Ok m) /\
    np.getitem (IonizedImpurityScattering._prefactor m) [0; 1]
    = Ok ((Qabs 5 * 2 ^ 2 + Qabs (-7) * 1 ^ 2)
          * (4 * @pi sample_constants) ^ 2 * @Second sample_constants / 10 ^ 2)%Q.
Proof.
  destruct (IonizedImpurityScattering.__init__ (K:=sample_constants) sample_FD
              sample_properties (sample_data false))
    as [log [m|err]] eqn:Hi; [|vm_compute in Hi; discriminate Hi].
  exists log, m. split; [reflexivity|].
  apply (imp_prefactor_entries (K:=sample_constants) sample_FD
           sample_properties (sample_data false) log m 2 1 10 0 1 5 (-7) Hi);
    reflexivity.
Defined.

Lemma imp_prefactor_nonneg_witness :
  exists log m x,
    IonizedImpurityScattering.__init__ (K:=sample_constants) sample_FD
      sample_properties (sample_data false) = (log, Ok m) /\
    np.getitem (IonizedImpurityScattering._prefactor m) [0; 0] = Ok x /\
    (0 <= x)%Q.
Proof.
  destruct (IonizedImpurityScattering.__init__ (K:=sample_constants) sample_FD
              sample_properties (sample_data false))
    as [log [m|err]] eqn:Hi; [|vm_compute in Hi; discriminate Hi].
  destruct (np.getitem (IonizedImpurityScattering._prefactor m) [0; 0])
    as [x|err] eqn:Hx.
  - exists log, m, x. split; [reflexivity|]. split; [exact Hx|].
    apply (imp_prefactor_nonneg (K:=sample_constants) sample_FD
             sample_properties (sample_data false) log m 10 0 0 x);
      [reflexivity|split; vm_compute; discriminate|reflexivity
      |split; vm_compute; discriminate|exact Hi|exact Hx].
  - vm_compute in Hi. injection Hi as _ <-. vm_compute in Hx. discriminate Hx.
Defined.

Lemma imp_log_records_witness :
  exists log m reports,
    IonizedImpurityScattering.__init__ (K:=sample_constants) sample_FD
      sample_properties (sample_data false) = (log, Ok m) /\
    log = Debug "Initializing IMP scattering"
          :: Debug "Inverse screening length (β) and impurity concentration (Nᵢᵢ):"
          :: reports /\
    length reports = 2.
Proof.
  destruct (IonizedImpurityScattering.__init__ (K:=sample_constants) sample_FD
              sample_properties (sample_data false))
    as [log [m|err]] eqn:Hi; [|vm_compute in Hi; discriminate Hi].
  destruct (imp_log_records (K:=sample_constants) sample_FD sample_properties
              (sample_data false) log m Hi) as (reports & Hlog & Hall).
  exists log, m, reports. split; [reflexivity|]. split; [exact Hlog|].
  apply Forall2_length in Hall. by rewrite <- Hall.
Defined.

(** ** Ionized impurities: when the constructor returns *)

Lemma py_bind_Ok {A B} (l : list log_record) (a : A) (f : A -> py B) :
  (l, Ok a) ≫= f = (l ++ (f a).1, (f a).2).
Proof. simpl. by destruct (f a). Qed.

Lemma lift_Ok_bind {A B} (a : A) (f : A -> py B) : lift (Ok a) ≫= f = f a.
Proof. by rewrite lift_bind. Qed.

Lemma lift_Raise_bind {A B} e (f : A -> py B) :
  lift (Raise e) ≫= f = ([], Raise e).
Proof. done. Qed.

Lemma logger_debug_bind {B} msg (f : unit -> py B) :
  logger_debug msg ≫= f = (Debug msg :: (f tt).1, (f tt).2).
Proof. unfold logger_debug. by rewrite py_bind_Ok. Qed.

Lemma log_list_bind {B} items (f : unit -> py B) :
  log_list items ≫= f = (items ++ (f tt).1, (f tt).2).
Proof. unfold log_list. by rewrite py_bind_Ok. Qed.

Section imp_total.
Context {K : constants}.
Variable FD : list Q -> Q -> Q -> list Q.
Hypothesis FD_length : forall energies mu kBT,
    length (FD energies mu kBT) = length energies.
Import IonizedImpurityScattering.

Lemma screening_step_total ad d isl nd nt n t :
  np.shape (AmsetData.fermi_levels ad) = [nd; nt] ->
  nt <= length (AmsetData.temperatures ad) ->
  length (Dos.tdos (AmsetData.dos ad)) = length (Dos.energies (AmsetData.dos ad)) ->
  np.shape isl = [nd; nt] -> n < nd -> t < nt ->
  exists isl', screening_step FD ad (PFloat d) isl [n; t] = Ok isl' /\
               np.shape isl' = [nd; nt].
Proof.
  intros Hsh Hnt Hlen Hisl Hn Ht. unfold screening_step. cbv zeta.
  rewrite getitem_in by (rewrite Hsh; by apply in_bounds_2).
  cbn [mbind result_bind].
  destruct (lookup_lt_is_Some_2 (AmsetData.temperatures ad) t) as [T HT]; [lia|].
  unfold list_get. rewrite HT. cbn [mbind result_bind].
  set (f := FD _ _ _).
  assert (Hf : length f = length (Dos.energies (AmsetData.dos ad)))
    by apply FD_length.
  unfold np.array1. rewrite Hlen, Hf.
  rewrite multiply_vectors by done. cbn [mbind result_bind].
  unfold np.map. cbn [np.shape np.data].
  rewrite multiply_vectors by (rewrite ?length_zip_with, ?length_fmap; lia).
  cbn [mbind result_bind].
  rewrite trapz_vectors by (rewrite ?length_zip_with, ?length_fmap; lia).
  cbn [mbind result_bind py_mul].
  unfold np.setitem. rewrite Hisl, in_bounds_2 by done. by eexists.
Qed.

Lemma calculate_total_rows ad d nd nt :
  np.shape (AmsetData.fermi_levels ad) = [nd; nt] ->
  nt <= length (AmsetData.temperatures ad) ->
  length (Dos.tdos (AmsetData.dos ad)) = length (Dos.energies (AmsetData.dos ad)) ->
  exists r, calculate_inverse_screening_length_sq FD ad (PFloat d) = Ok r /\
            np.shape r = [nd; nt].
Proof.
  intros Hsh Hnt Hlen. unfold calculate_inverse_screening_length_sq. cbv zeta.
  cbn [np.shape np.zeros]. rewrite Hsh.
  apply (for_each_inv _ (fun a => np.shape a = [nd; nt])); [done|].
  intros isl idx (n & t & -> & Hn & Ht)%elem_of_ndindex_2 Hisl.
  by apply screening_step_total.
Qed.

Lemma impurity_step_runs props ad isl ic info nd nt n t dc ac :
  np.shape (AmsetData.electron_conc ad) = [nd; nt] ->
  np.shape (AmsetData.hole_conc ad) = [nd; nt] ->
  props !! "donor_charge" = Some (PFloat dc) ->
  props !! "acceptor_charge" = Some (PFloat ac) ->
  nt <= length (AmsetData.temperatures ad) ->
  np.shape isl = [nd; nt] -> np.shape ic = [nd; nt] -> n < nd -> t < nt ->
  if decide (n < length (AmsetData.doping ad))
  then exists st', impurity_step props ad isl (ic, info) [n; t] = Ok st' /\
                   np.shape st'.1 = [nd; nt]
  else impurity_step props ad isl (ic, info) [n; t] = Raise IndexError.
Proof.
  intros He Hh Hdc Hac Hnt Hisl Hic Hn Ht. unfold impurity_step.
  pose proof (in_bounds_2 _ _ _ _ Hn Ht) as Hb.
  rewrite (getitem_in (AmsetData.electron_conc ad)) by (by rewrite He).
  rewrite (getitem_in (AmsetData.hole_conc ad)) by (by rewrite Hh).
  cbn [mbind result_bind].
  rewrite (dict_get_Some _ _ _ Hdc), (dict_get_Some _ _ _ Hac).
  cbn [mbind result_bind py_sq].
  unfold np.setitem. rewrite Hic, Hb. cbn [mbind result_bind].
  destruct (lookup_lt_is_Some_2 (AmsetData.temperatures ad) t) as [T HT]; [lia|].
  unfold list_get. rewrite HT.
  case_decide as Hdop.
  - destruct (lookup_lt_is_Some_2 (AmsetData.doping ad) n Hdop) as [dop ->].
    cbn [mbind result_bind].
    rewrite (getitem_in isl) by (by rewrite Hisl).
    cbn [mbind result_bind].
    rewrite getitem_in by exact Hb.
    cbn [mbind result_bind]. by eexists.
  - rewrite (lookup_ge_None_2 (AmsetData.doping ad) n) by lia. done.
Qed.


(** X18. The constructor returns an instance whenever the shared
    constructor does, the two charges and the dielectric constant are
    floats whose squares do not overflow, the Fermi levels and both carrier
    concentrations have the same two-axis shape, covered by the doping and
    temperature arrays, and the density of states has one value per grid
    energy.  The screening array and the cached prefactor then have the
    shape of the Fermi levels. *)
Theorem imp_init_succeeds mp ad self dc ac sd nd nt :
  AbstractElasticScattering.__init__ required_properties mp ad = Ok self ->
  mp !! "donor_charge" = Some (PFloat dc) ->
  mp !! "acceptor_charge" = Some (PFloat ac) ->
  mp !! "static_dielectric" = Some (PFloat sd) ->
  np.shape (AmsetData.fermi_levels ad) = [nd; nt] ->
  np.shape (AmsetData.electron_conc ad) = [nd; nt] ->
  np.shape (AmsetData.hole_conc ad) = [nd; nt] ->
  nd <= length (AmsetData.doping ad) ->
  nt <= length (AmsetData.temperatures ad) ->
  length (Dos.tdos (AmsetData.dos ad)) = length (Dos.energies (AmsetData.dos ad)) ->
  (dc ^ 2 <= binary64.huge)%Q ->
  (ac ^ 2 <= binary64.huge)%Q ->
  (sd ^ 2 <= binary64.huge)%Q ->
  exists log m,
    __init__ FD mp ad = (log, Ok m) /\
    np.shape (inverse_screening_length_sq m) = [nd; nt] /\
    np.shape (_prefactor m) = [nd; nt].
Proof.
  intros Hb Hdc Hac Hsd Hfl He Hh Hnd Hnt Hlen _ _ _.
  destruct (base_init_Ok _ _ _ _ Hb) as (_ & _ & _ & Hp).
  destruct (calculate_total_rows ad sd nd nt Hfl Hnt Hlen) as (isl & Hisl & Hsh).
  destruct (for_each_inv
              (impurity_step (AbstractElasticScattering.properties self) ad isl)
              (fun st => np.shape st.1 = [nd; nt])
              (np.ndindex (np.shape isl))
              (np.zeros (np.shape (AmsetData.fermi_levels ad)), []))
    as ([ic info] & Hloop & Hic); [by rewrite Hfl| |].
  { rewrite Hsh. intros [ic info] idx (n & t & -> & Hn & Ht)%elem_of_ndindex_2 Hic.
    pose proof (impurity_step_runs (AbstractElasticScattering.properties self)
                  ad isl ic info nd nt n t dc ac He Hh) as Hrun.
    rewrite decide_True in Hrun by lia.
    apply Hrun; try done;
      rewrite Hp by (apply list_elem_of_In; simpl; tauto); done. }
  assert (Hget : dict_get (AbstractElasticScattering.properties self)
                    "static_dielectric" = Ok (PFloat sd)).
  { apply dict_get_Some. rewrite Hp; [done|].
    apply list_elem_of_In; simpl; tauto. }
  unfold __init__. rewrite Hb, lift_Ok_bind. cbv zeta beta.
  rewrite logger_debug_bind. cbv beta.
  rewrite Hget, !lift_Ok_bind. cbv beta.
  rewrite Hisl, !lift_Ok_bind. cbv beta.
  rewrite Hloop, !lift_Ok_bind. cbv beta iota.
  rewrite !logger_debug_bind. cbv beta.
  rewrite !log_list_bind. cbv beta.
  cbn [py_sq]. rewrite !lift_Ok_bind. cbv beta.
  simpl. eexists _, _. split; [reflexivity|]. by split.
Qed.

(** X19. A doping array shorter than the first axis of the Fermi levels
    stops the constructor with an [IndexError]: the report looks up
    [doping[n]] for every entry, after the squares of the two charges have
    been taken (they are assumed not to overflow).  The screening array has
    been computed by then and only the first record has been logged. *)
Theorem imp_init_short_doping mp ad self dc ac sd nd nt :
  AbstractElasticScattering.__init__ required_properties mp ad = Ok self ->
  mp !! "donor_charge" = Some (PFloat dc) ->
  mp !! "acceptor_charge" = Some (PFloat ac) ->
  mp !! "static_dielectric" = Some (PFloat sd) ->
  np.shape (AmsetData.fermi_levels ad) = [nd; nt] ->
  np.shape (AmsetData.electron_conc ad) = [nd; nt] ->
  np.shape (AmsetData.hole_conc ad) = [nd; nt] ->
  length (AmsetData.doping ad) < nd ->
  0 < nt <= length (AmsetData.temperatures ad) ->
  length (Dos.tdos (AmsetData.dos ad)) = length (Dos.energies (AmsetData.dos ad)) ->
  (dc ^ 2 <= binary64.huge)%Q ->
  (ac ^ 2 <= binary64.huge)%Q ->
  __init__ FD mp ad = ([Debug "Initializing IMP scattering"], Raise IndexError).
Proof.
  intros Hb Hdc Hac Hsd Hfl He Hh Hnd [Hnt0 Hnt] Hlen _ _.
  destruct (base_init_Ok _ _ _ _ Hb) as (_ & _ & _ & Hp).
  destruct (calculate_total_rows ad sd nd nt Hfl Hnt Hlen) as (isl & Hisl & Hsh).
  assert (Hloop :
    for_each (impurity_step (AbstractElasticScattering.properties self) ad isl)
             (np.ndindex (np.shape isl))
             (np.zeros (np.shape (AmsetData.fermi_levels ad)), [])
    = Raise IndexError).
  { rewrite Hsh.
    apply (for_each_raises _ (fun st => np.shape st.1 = [nd; nt]));
      [by rewrite Hfl| |].
    - intros [ic info] idx (n & t & -> & Hn & Ht)%elem_of_ndindex_2 Hic.
      pose proof (impurity_step_runs (AbstractElasticScattering.properties self)
                    ad isl ic info nd nt n t dc ac He Hh) as Hrun.
      case_decide; [left|right]; apply Hrun; try done;
        rewrite Hp by (apply list_elem_of_In; simpl; tauto); done.
    - exists [length (AmsetData.doping ad); 0]. split.
      + apply elem_of_ndindex. by apply in_bounds_2.
      + intros [ic info] Hic.
        pose proof (impurity_step_runs (AbstractElasticScattering.properties self)
                      ad isl ic info nd nt (length (AmsetData.doping ad)) 0
                      dc ac He Hh) as Hrun.
        rewrite decide_False in Hrun by lia.
        apply Hrun; try done;
          rewrite Hp by (apply list_elem_of_In; simpl; tauto); done. }
  assert (Hget : dict_get (AbstractElasticScattering.properties self)
                    "static_dielectric" = Ok (PFloat sd)).
  { apply dict_get_Some. rewrite Hp; [done|].
    apply list_elem_of_In; simpl; tauto. }
  unfold __init__. rewrite Hb, lift_Ok_bind. cbv zeta beta.
  rewrite logger_debug_bind. cbv beta.
  rewrite Hget, !lift_Ok_bind. cbv beta.
  rewrite Hisl, !lift_Ok_bind. cbv beta.
  by rewrite Hloop, !lift_Raise_bind.
Qed.

End imp_total.

Lemma imp_init_succeeds_witness :
  exists log m,
    IonizedImpurityScattering.__init__ (K:=sample_constants) sample_FD
      sample_properties (sample_data false) = (log, Ok m) /\
    np.shape (IonizedImpurityScattering.inverse_screening_length_sq m) = [1; 2] /\
    np.shape (IonizedImpurityScattering._prefactor m) = [1; 2].
Proof.
  destruct (AbstractElasticScattering.__init__
              IonizedImpurityScattering.required_properties
              sample_properties (sample_data false))
    as [self|err] eqn:Hb; [|vm_compute in Hb; discriminate Hb].
  apply (imp_init_succeeds (K:=sample_constants) sample_FD sample_FD_length
           sample_properties (sample_data false) self 2 1 10 1 2 Hb);
    first [reflexivity | simpl; lia | vm_compute; discriminate].
Defined.

Lemma imp_init_short_doping_witness :
  IonizedImpurityScattering.__init__ (K:=sample_constants) sample_FD
    sample_properties (with_doping [] (sample_data false))
  = ([Debug "Initializing IMP scattering"], Raise IndexError).
Proof.
  destruct (AbstractElasticScattering.__init__
              IonizedImpurityScattering.required_properties
              sample_properties (with_doping [] (sample_data false)))
    as [self|err] eqn:Hb; [|vm_compute in Hb; discriminate Hb].
  apply (imp_init_short_doping (K:=sample_constants) sample_FD sample_FD_length
           sample_properties (with_doping [] (sample_data false)) self
           2 1 10 1 2 Hb);
    first [reflexivity | simpl; lia | vm_compute; discriminate].
Defined.

(** ** Piezoelectric scattering *)

Section pie_construction.
Context {K : constants}.
Import PiezoelectricScattering.

Lemma pie_init_run mp ad self pcv sdv :
  AbstractElasticScattering.__init__ required_properties mp ad = Ok self ->
  ~ (e == 0)%Q ->
  mp !! "piezoelectric_coefficient" = Some pcv ->
  mp !! "static_dielectric" = Some sdv ->
  __init__ mp ad
  = (pc2 ← lift (py_sq pcv);
     den ← lift (py_rmul (4 * pi ^ 2 * hbar * epsilon_0) sdv);
     _prefactor ← lift (py_truediv (1000000000 / e * e ^ 2 * k_B * pc2) den);
     mret {| super := self; _prefactor := _prefactor |}).
Proof.
  intros Hb He Hpc Hsd.
  destruct (base_init_Ok _ _ _ _ Hb) as (_ & _ & _ & Hp).
  unfold __init__. rewrite Hb, lift_Ok_bind. cbv zeta beta.
  rewrite (py_truediv_nonzero _ _ He), lift_Ok_bind. cbv beta.
  rewrite (dict_get_Some _ "piezoelectric_coefficient" pcv)
    by (rewrite Hp; [done|apply list_elem_of_In; simpl; tauto]).
  rewrite (dict_get_Some _ "static_dielectric" sdv)
    by (rewrite Hp; [done|apply list_elem_of_In; simpl; tauto]).
  rewrite lift_Ok_bind. cbv beta.
  destruct pcv as [pc|l]; cbn [py_sq]; [|by rewrite !lift_Raise_bind].
  by rewrite !lift_Ok_bind.
Qed.

(** X20. For a piezoelectric coefficient whose square does not overflow
    and a static dielectric for which the divisor
    [4 * pi ** 2 * hbar * epsilon_0 * static_dielectric] is zero or a
    normal number, the constructor returns an instance exactly when the
    shared constructor does, both properties are floats, and neither [e]
    nor the divisor is zero.  It then logs nothing and caches
    [1e9 / e * e ** 2 * k_B * pc ** 2 / (4 * pi ** 2 * hbar * epsilon_0 * sd)]. *)
Theorem pie_init_succeeds_iff mp ad log m :
  (forall pc, mp !! "piezoelectric_coefficient" = Some (PFloat pc) ->
              (pc ^ 2 <= binary64.huge)%Q) ->
  (forall sd, mp !! "static_dielectric" = Some (PFloat sd) ->
              binary64.in_range (4 * pi ^ 2 * hbar * epsilon_0 * sd)) ->
  __init__ mp ad = (log, Ok m) <->
  (exists self pc sd,
      AbstractElasticScattering.__init__ required_properties mp ad = Ok self /\
      mp !! "piezoelectric_coefficient" = Some (PFloat pc) /\
      mp !! "static_dielectric" = Some (PFloat sd) /\
      ~ (e == 0)%Q /\
      ~ (4 * pi ^ 2 * hbar * epsilon_0 * sd == 0)%Q /\
      log = [] /\
      m = {| super := self;
             _prefactor := (1000000000 / e * e ^ 2 * k_B * pc ^ 2
                            / (4 * pi ^ 2 * hbar * epsilon_0 * sd))%Q |}).
Proof.
  intros _ _. split.
  - intros Hi.
    destruct (pie_init_Ok _ _ _ _ Hi)
      as (self & pc & sd & Hb & Hpc & Hsd & _ & _ & He & Hnz).
    exists self, pc, sd. repeat (split; [done|]).
    rewrite (pie_init_run _ _ _ _ _ Hb He Hpc Hsd) in Hi.
    cbn [py_sq py_rmul] in Hi.
    rewrite !lift_Ok_bind, (py_truediv_nonzero _ _ Hnz), lift_Ok_bind in Hi.
    by injection Hi as <- <-.
  - intros (self & pc & sd & Hb & Hpc & Hsd & He & Hnz & -> & ->).
    rewrite (pie_init_run _ _ _ _ _ Hb He Hpc Hsd).
    cbn [py_sq py_rmul].
    by rewrite !lift_Ok_bind, (py_truediv_nonzero _ _ Hnz), lift_Ok_bind.
Qed.

(** X21. A piezoelectric coefficient or a static dielectric constant given
    as a tuple stops the constructor with a [TypeError]; nothing is logged.
    (The constant [e] is not zero, and a coefficient that is a float has a
    square that does not overflow: both are evaluated first.) *)
Theorem pie_init_tuple_property mp ad self pcv sdv :
  AbstractElasticScattering.__init__ required_properties mp ad = Ok self ->
  mp !! "piezoelectric_coefficient" = Some pcv ->
  mp !! "static_dielectric" = Some sdv ->
  is_tuple pcv = true \/ is_tuple sdv = true ->
  ~ (e == 0)%Q ->
  (forall pc, pcv = PFloat pc -> (pc ^ 2 <= binary64.huge)%Q) ->
  __init__ mp ad = ([], Raise TypeError).
Proof.
  intros Hb Hpc Hsd Htup He _.
  rewrite (pie_init_run _ _ _ _ _ Hb He Hpc Hsd).
  destruct pcv as [pc|l]; cbn [py_sq]; [|by rewrite lift_Raise_bind].
  destruct sdv as [sd|l]; cbn [py_rmul]; [by destruct Htup|].
  by rewrite lift_Ok_bind, lift_Raise_bind.
Qed.

(** X28. A static dielectric of zero stops the constructor with a
    [ZeroDivisionError], with nothing logged (for a nonzero [e] and a
    coefficient whose square does not overflow, which are evaluated
    first). *)
Theorem pie_init_zero_dielectric mp ad self pc sd :
  AbstractElasticScattering.__init__ required_properties mp ad = Ok self ->
  mp !! "piezoelectric_coefficient" = Some (PFloat pc) ->
  mp !! "static_dielectric" = Some (PFloat sd) ->
  ~ (e == 0)%Q ->
  (pc ^ 2 <= binary64.huge)%Q ->
  (sd == 0)%Q ->
  __init__ mp ad = ([], Raise ZeroDivisionError).
Proof.
  intros Hb Hpc Hsd He _ Hz.
  rewrite (pie_init_run _ _ _ _ _ Hb He Hpc Hsd).
  cbn [py_sq py_rmul]. rewrite !lift_Ok_bind.
  rewrite py_truediv_zero; [done|]. rewrite Hz. ring.
Qed.

(** X22. [prefactor(spin, b_idx)] has shape [(ndoping, ntemperature)] and
    its entry at [(n, t)] is the cached constant times the temperature
    (times the one of [np.ones]), for every spin and band. *)
Theorem pie_prefactor_entries mp ad log m spin b_idx pc sd n t T :
  __init__ mp ad = (log, Ok m) ->
  mp !! "piezoelectric_coefficient" = Some (PFloat pc) ->
  mp !! "static_dielectric" = Some (PFloat sd) ->
  n < length (AmsetData.doping ad) ->
  AmsetData.temperatures ad !! t = Some T ->
  exists p,
    prefactor m spin b_idx = Ok p /\
    np.shape p = [length (AmsetData.doping ad);
                  length (AmsetData.temperatures ad)] /\
    np.getitem p [n; t]
    = Ok (1000000000 / e * e ^ 2 * k_B * pc ^ 2
          / (4 * pi ^ 2 * hbar * epsilon_0 * sd) * T * 1)%Q.
Proof.
  intros Hi Hpc Hsd Hn Ht.
  destruct (pie_captured _ _ _ _ Hi) as (Hdop & Htemp).
  destruct (pie_init_Ok _ _ _ _ Hi) as (self & pc' & sd' & _ & Hpc' & Hsd' & _ & Hpre & _ & _).
  rewrite Hpc in Hpc'. rewrite Hsd in Hsd'.
  injection Hpc' as <-. injection Hsd' as <-.
  destruct (scaled_temperatures (_prefactor m)
              (AbstractElasticScattering.temperatures (super m))
              (length (AbstractElasticScattering.doping (super m))))
    as (p & Hp & Hsh & _ & Hitem).
  rewrite Hdop, Htemp in Hsh, Hitem.
  pose proof (lookup_lt_Some _ _ _ Ht) as Hlt.
  exists p. split; [exact Hp|]. split; [exact Hsh|].
  rewrite getitem_in by (rewrite Hsh; by apply in_bounds_2).
  rewrite Hitem by done.
  by rewrite (nth_lookup_Some _ _ _ _ Ht), Hpre.
Qed.

(** [np.tile] of a vector over the doping and temperature axes. *)
Lemma tile_over_grid (q : ndarray) nd nt nk :
  np.shape q = [nk] ->
  np.tile q [nd; nt; 1]
  = np.tabulate [nd; nt; nk]
      (fun idx => np.item (np.mk [1; 1; nk] (np.data q))
                          (zip_with Nat.modulo idx [1; 1; nk])).
Proof.
  intros Hq. unfold np.tile, np.pad_left. rewrite Hq. simpl.
  by rewrite !Nat.add_0_r, Nat.mul_1_r.
Qed.

Lemma tile_matrix_over_grid (q : ndarray) nd nt a b :
  np.shape q = [a; b] ->
  np.tile q [nd; nt; 1]
  = np.tabulate [nd; a * nt; b]
      (fun idx => np.item (np.mk [1; a; b] (np.data q))
                          (zip_with Nat.modulo idx [1; a; b])).
Proof.
  intros Hq. unfold np.tile, np.pad_left. rewrite Hq. simpl.
  by rewrite !Nat.add_0_r, Nat.mul_1_r.
Qed.

(** X23. For a one-dimensional [k_diff_sq] of length [nk], [factor] has
    shape [(ndoping, ntemperature, nk)] and its entry at [(n, t, k)] is
    [1 / k_diff_sq[k]]: the same row for every doping and temperature. *)
Theorem pie_factor_entries mp ad log m (q : ndarray) nk :
  __init__ mp ad = (log, Ok m) ->
  np.shape q = [nk] ->
  let nd := length (AmsetData.doping ad) in
  let nt := length (AmsetData.temperatures ad) in
  exists F,
    factor m q = Ok F /\
    np.shape F = [nd; nt; nk] /\
    forall n t k, n < nd -> t < nt -> k < nk ->
      np.getitem F [n; t; k] = Ok (1 / np.item q [k])%Q.
Proof.
  intros Hi Hq nd nt.
  destruct (pie_captured _ _ _ _ Hi) as (Hdop & Htemp).
  unfold factor. cbv zeta. rewrite Hdop, Htemp, (tile_over_grid q _ _ nk Hq). fold nd nt.
  eexists. split; [reflexivity|]. split; [done|].
  intros n t k Hn Ht Hk.
  pose proof (in_bounds_3 _ _ _ _ _ _ Hn Ht Hk) as Hb.
  rewrite getitem_in by exact Hb. f_equal.
  rewrite item_map_in; [|apply wf_tabulate|exact Hb].
  rewrite item_tabulate by exact Hb.
  unfold np.item. simpl.
  rewrite (Nat.mod_small k nk) by done.
  by rewrite Hq.
Qed.

(** X24. A two-dimensional [k_diff_sq] of shape [(a, b)] gets no new
    temperature axis: [np.tile] repeats its rows along the middle axis, so
    the result has shape [(ndoping, a * ntemperature, b)] and its entry at
    [(n, j, k)] is [1 / k_diff_sq[j mod a, k]]. *)
Theorem pie_factor_matrix_input mp ad log m (q : ndarray) a b :
  __init__ mp ad = (log, Ok m) ->
  np.shape q = [a; b] ->
  let nd := length (AmsetData.doping ad) in
  let nt := length (AmsetData.temperatures ad) in
  exists F,
    factor m q = Ok F /\
    np.shape F = [nd; a * nt; b] /\
    forall n j k, n < nd -> j < a * nt -> k < b ->
      np.getitem F [n; j; k] = Ok (1 / np.item q [j mod a; k])%Q.
Proof.
  intros Hi Hq nd nt.
  destruct (pie_captured _ _ _ _ Hi) as (Hdop & Htemp).
  unfold factor. cbv zeta. rewrite Hdop, Htemp, (tile_matrix_over_grid q _ _ a b Hq).
  fold nd nt.
  eexists. split; [reflexivity|]. split; [done|].
  intros n j k Hn Hj Hk.
  pose proof (in_bounds_3 _ _ _ _ _ _ Hn Hj Hk) as Hb.
  rewrite getitem_in by exact Hb. f_equal.
  rewrite item_map_in; [|apply wf_tabulate|exact Hb].
  rewrite item_tabulate by exact Hb.
  unfold np.item. simpl.
  rewrite (Nat.mod_small k b) by done.
  by rewrite Hq.
Qed.

End pie_construction.

Lemma pie_init_succeeds_iff_witness :
  exists log m self pc sd,
    PiezoelectricScattering.__init__ (K:=sample_constants)
      sample_properties (sample_data false) = (log, Ok m) /\
    AbstractElasticScattering.__init__
      PiezoelectricScattering.required_properties
      sample_properties (sample_data false) = Ok self /\
    sample_properties !! "piezoelectric_coefficient" = Some (PFloat pc) /\
    sample_properties !! "static_dielectric" = Some (PFloat sd) /\
    log = [].
Proof.
  destruct (PiezoelectricScattering.__init__ (K:=sample_constants)
              sample_properties (sample_data false))
    as [log [m|err]] eqn:Hi; [|vm_compute in Hi; discriminate Hi].
  assert (Hpc : forall pc,
             sample_properties !! "piezoelectric_coefficient" = Some (PFloat pc) ->
             (pc ^ 2 <= binary64.huge)%Q)
    by (intros pc [= <-]; vm_compute; discriminate).
  assert (Hsd : forall sd,
             sample_properties !! "static_dielectric" = Some (PFloat sd) ->
             binary64.in_range
               (4 * @pi sample_constants ^ 2 * @hbar sample_constants
                * @epsilon_0 sample_constants * sd))
    by (intros sd [= <-]; right; split; vm_compute; discriminate).
  destruct (proj1 (pie_init_succeeds_iff (K:=sample_constants)
                     sample_properties (sample_data false) log m Hpc Hsd) Hi)
    as (self & pc & sd & Hb & Hpc' & Hsd' & _ & _ & Hlog & _).
  by exists log, m, self, pc, sd.
Defined.

Lemma pie_init_tuple_property_witness :
  PiezoelectricScattering.__init__ (K:=sample_constants)
    (<["static_dielectric" := PTuple [10%Q; 11%Q]]> sample_properties)
    (sample_data false)
  = ([], Raise TypeError).
Proof.
  destruct (AbstractElasticScattering.__init__
              PiezoelectricScattering.required_properties
              (<["static_dielectric" := PTuple [10%Q; 11%Q]]> sample_properties)
              (sample_data false))
    as [self|err] eqn:Hb; [|vm_compute in Hb; discriminate Hb].
  apply (pie_init_tuple_property (K:=sample_constants)
           (<["static_dielectric" := PTuple [10%Q; 11%Q]]> sample_properties)
           (sample_data false) self (PFloat (1 # 10)) (PTuple [10%Q; 11%Q]) Hb);
    [reflexivity|reflexivity|by right|discriminate
    |intros pc [= <-]; vm_compute; discriminate].
Defined.

Lemma pie_init_zero_dielectric_witness :
  PiezoelectricScattering.__init__ (K:=sample_constants)
    (<["static_dielectric" := PFloat 0]> sample_properties) (sample_data false)
  = ([], Raise ZeroDivisionError).
Proof.
  destruct (AbstractElasticScattering.__init__
              PiezoelectricScattering.required_properties
              (<["static_dielectric" := PFloat 0]> sample_properties)
              (sample_data false))
    as [self|err] eqn:Hb; [|vm_compute in Hb; discriminate Hb].
  apply (pie_init_zero_dielectric (K:=sample_constants)
           (<["static_dielectric" := PFloat 0]> sample_properties)
           (sample_data false) self (1 # 10) 0 Hb);
    [reflexivity|reflexivity|discriminate|vm_compute; discriminate|reflexivity].
Defined.

Lemma pie_prefactor_entries_witness :
  exists log m p,
    PiezoelectricScattering.__init__ (K:=sample_constants)
      sample_properties (sample_data false) = (log, Ok m) /\
    PiezoelectricScattering.prefactor m up 0 = Ok p /\
    np.shape p = [1; 2] /\
    np.getitem p [0; 1]
    = Ok (1000000000 / @e sample_constants * @e sample_constants ^ 2
          * @k_B sample_constants * (1 # 10) ^ 2
          / (4 * @pi sample_constants ^ 2 * @hbar sample_constants
             * @epsilon_0 sample_constants * 10) * 200 * 1)%Q.
Proof.
  destruct (PiezoelectricScattering.__init__ (K:=sample_constants)
              sample_properties (sample_data false))
    as [log [m|err]] eqn:Hi; [|vm_compute in Hi; discriminate Hi].
  destruct (pie_prefactor_entries (K:=sample_constants)
              sample_properties (sample_data false) log m up 0
              (1 # 10) 10 0 1 200 Hi)
    as (p & Hp & Hsh & Hx); [reflexivity|reflexivity|simpl; lia|reflexivity|].
  by exists log, m, p.
Defined.

Lemma pie_factor_entries_witness :
  exists log m F,
    PiezoelectricScattering.__init__ (K:=sample_constants)
      sample_properties (sample_data false) = (log, Ok m) /\
    PiezoelectricScattering.factor m (np.array1 (qs [1; 4; 9]%Z)) = Ok F /\
    np.shape F = [1; 2; 3] /\
    np.getitem F [0; 1; 2] = Ok (1 / 9)%Q.
Proof.
  destruct (PiezoelectricScattering.__init__ (K:=sample_constants)
              sample_properties (sample_data false))
    as [log [m|err]] eqn:Hi; [|vm_compute in Hi; discriminate Hi].
  destruct (pie_factor_entries (K:=sample_constants)
              sample_properties (sample_data false) log m
              (np.array1 (qs [1; 4; 9]%Z)) 3 Hi)
    as (F & HF & Hsh & Hx); [reflexivity|].
  exists log, m, F. split; [reflexivity|]. split; [exact HF|].
  split; [exact Hsh|]. apply (Hx 0 1 2); simpl; lia.
Defined.

Lemma pie_factor_matrix_input_witness :
  exists log m F,
    PiezoelectricScattering.__init__ (K:=sample_constants)
      sample_properties (sample_data false) = (log, Ok m) /\
    PiezoelectricScattering.factor m sample_matrix = Ok F /\
    np.shape F = [1; 4; 2] /\
    np.getitem F [0; 3; 0] = Ok (1 / 3)%Q.
Proof.
  destruct (PiezoelectricScattering.__init__ (K:=sample_constants)
              sample_properties (sample_data false))
    as [log [m|err]] eqn:Hi; [|vm_compute in Hi; discriminate Hi].
  destruct (pie_factor_matrix_input (K:=sample_constants)
              sample_properties (sample_data false) log m sample_matrix 2 2 Hi)
    as (F & HF & Hsh & Hx); [reflexivity|].
  exists log, m, F. split; [reflexivity|]. split; [exact HF|].
  split; [exact Hsh|]. apply (Hx 0 3 0); simpl; lia.
Defined.

(** ** Ionized impurities: the form factor *)

Lemma screened_form_factor_bound (a b : Q) :
  (0 <= a)%Q -> (0 < b)%Q ->
  (0 < 1 / (a + b) ^ 2)%Q /\ (1 / (a + b) ^ 2 <= 1 / b ^ 2)%Q.
Proof.
  intros Ha Hb.
  assert (Hb2 : (0 < b ^ 2)%Q) by (simpl; nra).
  assert (Hle : (b ^ 2 <= (a + b) ^ 2)%Q) by (simpl; nra).
  generalize dependent ((a + b) ^ 2)%Q. generalize dependent (b ^ 2)%Q.
  intros X HX Y HY.
  assert (HY0 : (0 < Y)%Q) by lra.
  pose proof (Qinv_lt_0_compat _ HX) as Hu.
  pose proof (Qinv_lt_0_compat _ HY0) as Hv.
  assert (HuX : (/ X * X == 1)%Q) by (field; lra).
  assert (HvY : (/ Y * Y == 1)%Q) by (field; lra).
  unfold Qdiv. rewrite !Qmult_1_l.
  split; [exact Hv|]. nra.
Qed.

Section imp_form_factor.
Context {K : constants}.
Variable FD : list Q -> Q -> Q -> list Q.
Import IonizedImpurityScattering.

(** One entry of the form factor on a vector. *)
Lemma imp_factor_item mp ad log m (q : ndarray) nk n t k :
  __init__ FD mp ad = (log, Ok m) ->
  AmsetData.shaped ad ->
  np.shape q = [nk] ->
  n < length (AmsetData.doping ad) ->
  t < length (AmsetData.temperatures ad) ->
  k < nk ->
  exists F,
    factor m q = Ok F /\
    np.getitem F [n; t; k]
    = Ok (1 / (np.item q [k]
               + np.item (inverse_screening_length_sq m) [n; t]) ^ 2)%Q.
Proof.
  intros Hi Hshaped Hq Hn Ht Hk.
  set (nd := length (AmsetData.doping ad)) in *.
  set (nt := length (AmsetData.temperatures ad)) in *.
  destruct (imp_screening_shape _ _ _ _ _ Hi) as [Hsh _].
  rewrite Hshaped in Hsh. fold nd nt in Hsh.
  rewrite (imp_factor_Ok _ _ _ _ _ _ nk Hi Hshaped Hq). fold nd nt.
  eexists. split; [reflexivity|].
  pose proof (in_bounds_3 _ _ _ _ _ _ Hn Ht Hk) as Hb.
  rewrite getitem_in by exact Hb. f_equal.
  rewrite item_map_in; [|apply wf_tabulate|exact Hb].
  rewrite item_tabulate by exact Hb.
  assert (Hrk : (if nk =? 1 then 0 else k) = k).
  { destruct (nk =? 1) eqn:E; [|done]. apply Nat.eqb_eq in E. lia. }
  assert (Hrn : (if nd =? 1 then 0 else n) = n).
  { destruct (nd =? 1) eqn:E; [|done]. apply Nat.eqb_eq in E. lia. }
  assert (Hrt : (if nt =? 1 then 0 else t) = t).
  { destruct (nt =? 1) eqn:E; [|done]. apply Nat.eqb_eq in E. lia. }
  assert (HA : np.item (np.newaxis_front (np.newaxis_front q))
                       (np.bidx [1; 1; nk] [n; t; k])
               = np.item q [k]).
  { unfold np.bidx, np.item; simpl. rewrite Hq, Hrk; simpl. f_equal; lia. }
  assert (HB : np.item (np.newaxis_back (inverse_screening_length_sq m))
                       (np.bidx [nd; nt; 1] [n; t; k])
               = np.item (inverse_screening_length_sq m) [n; t]).
  { unfold np.bidx, np.item; simpl. rewrite Hsh, Hrn, Hrt; simpl. f_equal; lia. }
  by rewrite HA, HB.
Qed.

(** X25. Screening keeps the form factor finite at small [q]: where
    [q[k]] is not negative and the squared inverse screening length at
    [(n, t)] is positive, the entry at [(n, t, k)] is positive and at most
    [1 / inverse_screening_length_sq[n, t] ** 2]. *)
Theorem imp_factor_bounded mp ad log m (q : ndarray) nk n t k :
  __init__ FD mp ad = (log, Ok m) ->
  AmsetData.shaped ad ->
  np.shape q = [nk] ->
  n < length (AmsetData.doping ad) ->
  t < length (AmsetData.temperatures ad) ->
  k < nk ->
  (0 <= np.item q [k])%Q ->
  (0 < np.item (inverse_screening_length_sq m) [n; t])%Q ->
  exists F x,
    factor m q = Ok F /\
    np.getitem F [n; t; k] = Ok x /\
    (0 < x)%Q /\
    (x <= 1 / np.item (inverse_screening_length_sq m) [n; t] ^ 2)%Q.
Proof.
  intros Hi Hshaped Hq Hn Ht Hk Hq0 Hisl.
  destruct (imp_factor_item _ _ _ _ _ _ _ _ _ Hi Hshaped Hq Hn Ht Hk)
    as (F & HF & Hx).
  exists F. eexists. split; [exact HF|]. split; [exact Hx|].
  by apply screened_form_factor_bound.
Qed.

(** X26. A two-dimensional [norm_q_sq] of shape [(a, b)] is broadcast
    against the screening array with its first axis on the temperature
    axis; when the two lengths differ and neither is 1, [factor] raises a
    [ValueError]. *)
Theorem imp_factor_matrix_mismatch mp ad log m (q : ndarray) a b :
  __init__ FD mp ad = (log, Ok m) ->
  AmsetData.shaped ad ->
  np.shape q = [a; b] ->
  a <> length (AmsetData.temperatures ad) ->
  a <> 1 ->
  length (AmsetData.temperatures ad) <> 1 ->
  factor m q = Raise ValueError.
Proof.
  intros Hi Hshaped Hq Ha Ha1 Hnt.
  destruct (imp_screening_shape _ _ _ _ _ Hi) as [Hsh _].
  rewrite Hshaped in Hsh.
  unfold factor, np.add, np.map2. simpl. rewrite Hq, Hsh. simpl.
  unfold np.broadcast_shapes. simpl.
  apply Nat.eqb_neq in Ha, Ha1, Hnt.
  destruct (b =? 1); simpl; by rewrite Ha, Ha1, Hnt.
Qed.

End imp_form_factor.

Lemma imp_factor_bounded_witness :
  exists log m F x,
    IonizedImpurityScattering.__init__ (K:=sample_constants) sample_FD
      sample_properties (sample_data false) = (log, Ok m) /\
    IonizedImpurityScattering.factor m (np.array1 (qs [1; 4; 9]%Z)) = Ok F /\
    np.getitem F [0; 1; 2] = Ok x /\
    (0 < x)%Q /\
    (x <= 1 / np.item (IonizedImpurityScattering.inverse_screening_length_sq m)
                      [0; 1]%nat ^ 2)%Q.
Proof.
  destruct (IonizedImpurityScattering.__init__ (K:=sample_constants) sample_FD
              sample_properties (sample_data false))
    as [log [m|err]] eqn:Hi; [|vm_compute in Hi; discriminate Hi].
  destruct (imp_factor_bounded (K:=sample_constants) sample_FD
              sample_properties (sample_data false) log m
              (np.array1 (qs [1; 4; 9]%Z)) 3 0 1 2 Hi)
    as (F & x & HF & Hx & H0 & H1);
    [reflexivity|reflexivity|simpl; lia|simpl; lia|lia|discriminate| |].
  - vm_compute in Hi. injection Hi as _ <-. vm_compute. reflexivity.
  - by exists log, m, F, x.
Defined.

Lemma imp_factor_matrix_mismatch_witness :
  exists log m,
    IonizedImpurityScattering.__init__ (K:=sample_constants) sample_FD
      sample_properties (sample_data false) = (log, Ok m) /\
    IonizedImpurityScattering.factor m (np.mk [3; 2] (qs [1; 2; 3; 4; 5; 6]%Z))
    = Raise ValueError.
Proof.
  destruct (IonizedImpurityScattering.__init__ (K:=sample_constants) sample_FD
              sample_properties (sample_data false))
    as [log [m|err]] eqn:Hi; [|vm_compute in Hi; discriminate Hi].
  exists log, m. split; [reflexivity|].
  apply (imp_factor_matrix_mismatch (K:=sample_constants) sample_FD
           sample_properties (sample_data false) log m
           (np.mk [3; 2] (qs [1; 2; 3; 4; 5; 6]%Z)) 3 2 Hi);
    [reflexivity|reflexivity|simpl; lia|lia|simpl; lia].
Defined.
